(** * Ski area clustering: a shallow embedding of [ArangoGraphClusterer.ts]

    The objects collection of the graph database is a list of documents
    with pairwise distinct [_key]s, in the order in which [FOR object IN
    objects] enumerates them.  Every [await]ed store operation is one
    atomic step.  The callbacks of a [Promise.all] batch of the three
    assignment passes are interleaved request by request, in the order a
    schedule gives; in the removal of ambiguous duplicates and in the
    augmentation a callback writes its own ski area only and reads
    documents that no callback of the batch writes, and these batches are
    run callback by callback in cursor order.  Exceptions are values of
    [Result]; the recursion of the traversal is bounded by a fuel argument
    whose exhaustion is the separate outcome [Timeout]. *)

From Stdlib Require Import List String Bool Arith Lia ZArith QArith Qround.
Import ListNotations.
Local Open Scope string_scope.
Local Open Scope list_scope.
Local Open Scope nat_scope.

(** ** Enumerations of [openskidata-format] *)

Inductive Activity := Downhill | Nordic | Backcountry.
Inductive SourceType := OPENSTREETMAP | SKIMAP_ORG.
Inductive MapObjectType := SkiArea | Lift | Run.
Inductive Status := Proposed | Planned | Construction | Operating | Disused | Abandoned.
Inductive GeometryType := Point | LineString | Polygon | MultiPolygon | GeometryCollection.

Definition Activity_eqb (a b : Activity) : bool :=
  match a, b with
  | Downhill, Downhill | Nordic, Nordic | Backcountry, Backcountry => true
  | _, _ => false
  end.

Definition SourceType_eqb (a b : SourceType) : bool :=
  match a, b with
  | OPENSTREETMAP, OPENSTREETMAP | SKIMAP_ORG, SKIMAP_ORG => true
  | _, _ => false
  end.

Definition MapObjectType_eqb (a b : MapObjectType) : bool :=
  match a, b with
  | SkiArea, SkiArea | Lift, Lift | Run, Run => true
  | _, _ => false
  end.

(** [Array.prototype.includes] on activities and on strings. *)
Definition includes (l : list Activity) (a : Activity) : bool :=
  existsb (Activity_eqb a) l.

Definition str_in (s : string) (l : list string) : bool :=
  existsb (String.eqb s) l.

(** [export const allSkiAreaActivities = new Set([Downhill, Nordic])] *)
Definition allSkiAreaActivities : list Activity := [Downhill; Nordic].

(** ** Exceptions and results *)

Inductive ArangoError := InvalidGeometryError | OtherArangoError.

Inductive Exception :=
| NoIDForSkiAreaStartingObject
| SkiAreaGeometryMustBePolygon
| GetSkiAreasReturnedNonPolygon
| UnexpectedVisitAreaGeometryType
| NoActivitiesForRun
| NoCentroidPointCouldBeFound
| QueryFailed
| UniqueConstraintViolated
| DocumentNotFound
| TypeError.

Inductive Result (A : Type) : Type :=
| Ok (a : A)
| Throw (e : Exception)
| Timeout.
Arguments Ok {A} a.
Arguments Throw {A} e.
Arguments Timeout {A}.

Definition bind {A B : Type} (r : Result A) (k : A -> Result B) : Result B :=
  match r with
  | Ok a => k a
  | Throw e => Throw e
  | Timeout => Timeout
  end.

Notation "x <- c ;; k" := (bind c (fun x => k))
  (at level 61, c at next level, right associativity).
Notation "' p <- c ;; k" := (bind c (fun x => let p := x in k))
  (at level 61, p pattern, c at next level, right associativity).

(** ** JavaScript numbers, as far as the site-relation ratio needs them.

    The quotient of two array lengths is [NaN] for [0/0], [Infinity] for
    [n/0] and otherwise the double nearest to the rational quotient;
    against the representable constant [0.5] the rounded and the exact
    quotient compare alike for lengths below [2^53]. *)

Inductive JsNumber := JsNaN | JsInfinity | JsFinite (q : Q).

Definition js_div (a b : nat) : JsNumber :=
  match b, a with
  | O, O => JsNaN
  | O, S _ => JsInfinity
  | S _, _ => JsFinite (Z.of_nat a # Pos.of_nat b)
  end.

Definition js_gt (x : JsNumber) (y : Q) : bool :=
  match x with
  | JsNaN => false
  | JsInfinity => true
  | JsFinite q => negb (Qle_bool q y)
  end.

(** ** External collaborators: turf, the geo index of the store *)

Class GeoLibrary := {
  Geometry : Type;
  geometry_type : Geometry -> GeometryType;
  (** [bufferGeometry(geometry, km)], [null] for a degenerate input *)
  bufferGeometry : Geometry -> Q -> option Geometry;
  (** [turf.polygon(area.coordinates[i]).geometry] for each [i] *)
  polygonsOf : Geometry -> list Geometry;
  GEO_INTERSECTS : Geometry -> Geometry -> bool;
  GEO_CONTAINS : Geometry -> Geometry -> bool;
  (** the error, if any, with which the store rejects a query over an area *)
  arangoError : Geometry -> option ArangoError;
  (** [centroid(...).geometry], which the typings allow to be [null] *)
  centroid : list Geometry -> option Geometry;
  RunConvention : Type;
  getRunConvention : Geometry -> RunConvention;
  Statistics : Type;
  Location : Type
}.

Definition maxDistanceInKilometers : Q := 1 # 2.
Definition maxMergeDistanceInKilometers : Q := 1 # 4.

Section Clustering.
Context {geo : GeoLibrary}.

(** ** Documents *)

Record SkiAreaProperties := {
  p_id : string;
  p_name : option string;
  p_generated : bool;
  p_activities : list Activity;
  p_status : Status;
  p_sources : list (SourceType * string);
  p_runConvention : RunConvention;
  p_website : option string;
  p_location : option Location;
  p_statistics : option Statistics
}.

Record MapObject := {
  _key : string;
  id : string;
  type : MapObjectType;
  geometry : Geometry;
  activities : list Activity;
  skiAreas : list string;
  isInSkiAreaPolygon : bool;
  isBasisForNewSkiArea : bool;
  isInSkiAreaSite : bool;
  isPolygon : bool;
  source : option SourceType;
  properties : option SkiAreaProperties
}.

Definition Store := list MapObject.

Definition keys (objects : list MapObject) : list string := map _key objects.

Definition has_key (k : string) (store : Store) : bool := str_in k (keys store).

(** [collection.remove({_key})] *)
Definition collection_remove (k : string) (store : Store) : Result Store :=
  if has_key k store
  then Ok (filter (fun o => negb (String.eqb (_key o) k)) store)
  else Throw DocumentNotFound.

(** [collection.removeByKeys(keys)]: absent keys are ignored *)
Definition collection_removeByKeys (ks : list string) (store : Store) : Store :=
  filter (fun o => negb (str_in (_key o) ks)) store.

(** [collection.update(key, patch)] *)
Definition collection_update (k : string) (patch : MapObject -> MapObject)
    (store : Store) : Result Store :=
  if has_key k store
  then Ok (map (fun o => if String.eqb (_key o) k then patch o else o) store)
  else Throw DocumentNotFound.

(** [collection.save(document)] *)
Definition collection_save (doc : MapObject) (store : Store) : Result Store :=
  if has_key (_key doc) store
  then Throw UniqueConstraintViolated
  else Ok (store ++ [doc]).

(** AQL [APPEND(array, [v], true)] and [REMOVE_VALUES(array, values)] *)
Definition APPEND_unique (l : list string) (v : string) : list string :=
  if str_in v l then l else l ++ [v].

Definition REMOVE_VALUES (l vs : list string) : list string :=
  filter (fun x => negb (str_in x vs)) l.

(** AQL [a ANY IN b] *)
Definition ANY_IN_activities (a b : list Activity) : bool :=
  existsb (includes b) a.

Definition ANY_IN (a b : list string) : bool :=
  existsb (fun x => str_in x b) a.

(** ** Traversal *)

(** [alreadyVisited] is left out of the record: the spread
    [{...context, activities}] copies the reference, so one array is
    shared by the whole traversal.  It is threaded as state. *)
Record VisitContext := {
  ctx_id : string;
  ctx_activities : list Activity;
  excludeObjectsAlreadyInSkiAreaPolygon : bool;
  searchPolygon : option Geometry
}.

Inductive Match := intersects | contains.

Definition Visit : Type := Result (list MapObject * list string).

Definition nearbyFilter (area : Geometry) (m : Match) (context : VisitContext)
    (alreadyVisited : list string) (object : MapObject) : bool :=
  (match m with
   | intersects => GEO_INTERSECTS area (geometry object)
   | contains => GEO_CONTAINS area (geometry object)
   end)
  && negb (str_in (ctx_id context) (skiAreas object))
  && negb (str_in (_key object) alreadyVisited)
  && (if excludeObjectsAlreadyInSkiAreaPolygon context
      then negb (isInSkiAreaPolygon object) else true)
  && ANY_IN_activities (activities object) (ctx_activities context).

Definition findNearbyObjects (store : Store) (area : Geometry) (m : Match)
    (context : VisitContext) (alreadyVisited : list string) : Visit :=
  match arangoError area with
  | Some InvalidGeometryError => Ok ([], alreadyVisited)
  | Some OtherArangoError => Throw QueryFailed
  | None =>
      let allFound := filter (nearbyFilter area m context alreadyVisited) store in
      Ok (allFound, alreadyVisited ++ keys allFound)
  end.

(** The loop [for (i...) foundObjects = foundObjects.concat(await visit(objects[i]))] *)
Fixpoint concatVisits {A : Type} (visit : list string -> A -> Visit)
    (alreadyVisited : list string) (items : list A) : Visit :=
  match items with
  | [] => Ok ([], alreadyVisited)
  | x :: rest =>
      '(found, visited1) <- visit alreadyVisited x ;;
      '(more, visited2) <- concatVisits visit visited1 rest ;;
      Ok (found ++ more, visited2)
  end.

(** [visitPolygon], with the recursive call to [visitObject] as argument *)
Definition visitPolygon (store : Store)
    (visitObject : VisitContext -> list string -> MapObject -> Visit)
    (context : VisitContext) (alreadyVisited : list string)
    (geom : Geometry) : Visit :=
  let isInSkiAreaPolygon :=
    match searchPolygon context with Some _ => true | None => false end in
  '(objects, visited1) <-
    findNearbyObjects store geom
      (if isInSkiAreaPolygon then contains else intersects)
      context alreadyVisited ;;
  if isInSkiAreaPolygon
  then Ok (objects, visited1)
  else concatVisits (visitObject context) visited1 objects.

Definition withActivities (context : VisitContext) (acts : list Activity)
    : VisitContext :=
  {| ctx_id := ctx_id context;
     ctx_activities := acts;
     excludeObjectsAlreadyInSkiAreaPolygon :=
       excludeObjectsAlreadyInSkiAreaPolygon context;
     searchPolygon := searchPolygon context |}.

(** [{...context, activities: context.activities.filter(a => object.activities.includes(a))}] *)
Definition objectContextOf (context : VisitContext) (object : MapObject)
    : VisitContext :=
  withActivities context
    (filter (includes (activities object)) (ctx_activities context)).

Fixpoint visitObject (fuel : nat) (store : Store) (context : VisitContext)
    (alreadyVisited : list string) (object : MapObject) : Visit :=
  match fuel with
  | O => Timeout
  | S fuel' =>
      let searchArea :=
        match searchPolygon context with
        | Some p => Some p
        | None => bufferGeometry (geometry object) maxDistanceInKilometers
        end in
      match searchArea with
      | None => Ok ([object], alreadyVisited)
      | Some area =>
          let objectContext := objectContextOf context object in
          match geometry_type area with
          | Polygon =>
              '(found, visited1) <-
                visitPolygon store (visitObject fuel' store)
                  objectContext alreadyVisited area ;;
              Ok (object :: found, visited1)
          | MultiPolygon =>
              '(found, visited1) <-
                concatVisits
                  (fun visited poly =>
                     visitPolygon store (visitObject fuel' store)
                       objectContext visited poly)
                  alreadyVisited (polygonsOf area) ;;
              Ok (object :: found, visited1)
          | _ => Throw UnexpectedVisitAreaGeometryType
          end
      end
  end.

(** A traversal started on a store cannot nest deeper than the store has
    documents, so this much fuel never runs out (see [traverse_total]). *)
Definition traverse (store : Store) (context : VisitContext)
    (alreadyVisited : list string) (object : MapObject) : Visit :=
  visitObject (S (List.length store)) store context alreadyVisited object.

(** What a part of a traversal adds: [found] are documents of the store
    that were not in [alreadyVisited] before and are in it afterwards,
    each with an activity among [acts]. *)
Definition Discovered (store : Store) (acts : list Activity)
    (visited : list string) (found : list MapObject) (visited' : list string)
    : Prop :=
  incl visited visited' /\
  (NoDup (keys store) -> NoDup (keys found)) /\
  (forall o, In o found ->
     In o store /\ ~ In (_key o) visited /\ In (_key o) visited' /\
     ANY_IN_activities (activities o) acts = true).

(** Documents whose key is not in [visited]: the bound on the depth of
    the recursion. *)
Definition unvisited (store : Store) (visited : list string) : nat :=
  List.length (filter (fun o => negb (str_in (_key o) visited)) store).


(** ** Store queries *)

(** [new Set(array)]: first occurrences, in insertion order *)
Definition Set_add {A : Type} (mem : A -> list A -> bool) (acc : list A) (x : A)
    : list A :=
  if mem x acc then acc else acc ++ [x].

Definition Set_of_strings (l : list string) : list string :=
  fold_left (Set_add str_in) l [].

Definition Set_of_activities (l : list Activity) : list Activity :=
  fold_left (Set_add (fun a acc => includes acc a)) l [].

Definition source_is (s : SourceType) (object : MapObject) : bool :=
  match source object with
  | Some s' => SourceType_eqb s' s
  | None => false
  end.

Definition same_source (a b : MapObject) : bool :=
  match source a, source b with
  | Some x, Some y => SourceType_eqb x y
  | None, None => true
  | _, _ => false
  end.

Definition is_type (t : MapObjectType) (object : MapObject) : bool :=
  MapObjectType_eqb (type object) t.

Record GetSkiAreasOptions := {
  gs_onlySource : option SourceType;
  gs_onlyPolygons : bool;
  gs_onlyInPolygon : option Geometry
}.

Definition skiAreasFilter (options : GetSkiAreasOptions) (object : MapObject)
    : bool :=
  (match gs_onlyInPolygon options with
   | Some area => GEO_INTERSECTS area (geometry object)
   | None => true
   end)
  && is_type SkiArea object
  && (match gs_onlySource options with
      | Some s => source_is s object
      | None => true
      end)
  && (if gs_onlyPolygons options then isPolygon object else true).

(** The cursor is a snapshot of the matching documents. *)
Definition getSkiAreas (options : GetSkiAreasOptions) (store : Store)
    : Result (list MapObject) :=
  match match gs_onlyInPolygon options with
        | Some area => arangoError area
        | None => None
        end with
  | Some InvalidGeometryError => Ok []
  | Some OtherArangoError => Throw QueryFailed
  | None => Ok (filter (skiAreasFilter options) store)
  end.

Definition getSkiAreasByID (ids : list string) (store : Store) : list MapObject :=
  filter (fun object => str_in (id object) ids) store.

Definition getObjects (skiAreaID : string) (store : Store) : list MapObject :=
  filter (fun object => str_in skiAreaID (skiAreas object)
                        && negb (is_type SkiArea object)) store.

Definition marked (id' : string) (inPolygon : bool) (object : MapObject)
    : MapObject :=
  {| _key := _key object; id := id object; type := type object;
     geometry := geometry object; activities := activities object;
     skiAreas := APPEND_unique (skiAreas object) id';
     isInSkiAreaPolygon := isInSkiAreaPolygon object || inPolygon;
     isBasisForNewSkiArea := false;
     isInSkiAreaSite := isInSkiAreaSite object;
     isPolygon := isPolygon object; source := source object;
     properties := properties object |}.

(** The [FILTER ... UPDATE] of [markSkiArea] on one document *)
Definition markOne (id' : string) (isInSkiAreaPolygon : bool)
    (objects : list MapObject) (object : MapObject) : MapObject :=
  if str_in (_key object) (keys objects)
  then marked id' isInSkiAreaPolygon object
  else object.

Definition markSkiArea (id' : string) (isInSkiAreaPolygon : bool)
    (objects : list MapObject) (store : Store) : Store :=
  map (markOne id' isInSkiAreaPolygon objects) store.

(** Runs the callback of [skiAreas.map] on each ski area of the cursor. *)
Fixpoint forEachSkiArea (f : MapObject -> Store -> Result Store)
    (skiAreas : list MapObject) (store : Store) : Result Store :=
  match skiAreas with
  | [] => Ok store
  | skiArea :: rest =>
      store1 <- f skiArea store ;;
      forEachSkiArea f rest store1
  end.

(** ** Removal of ambiguous duplicates *)

Definition removeAmbiguousDuplicateSkiArea (skiArea : MapObject) (store : Store)
    : Result Store :=
  match geometry_type (geometry skiArea) with
  | Polygon | MultiPolygon =>
      otherSkiAreas <-
        getSkiAreas {| gs_onlySource := Some SKIMAP_ORG;
                       gs_onlyPolygons := false;
                       gs_onlyInPolygon := Some (geometry skiArea) |} store ;;
      if 1 <? List.length otherSkiAreas
      then collection_remove (_key skiArea) store
      else Ok store
  | _ => Throw GetSkiAreasReturnedNonPolygon
  end.

Definition removeAmbiguousDuplicateSkiAreas (store : Store) : Result Store :=
  skiAreas <-
    getSkiAreas {| gs_onlySource := Some OPENSTREETMAP;
                   gs_onlyPolygons := true;
                   gs_onlyInPolygon := None |} store ;;
  forEachSkiArea removeAmbiguousDuplicateSkiArea skiAreas store.

(** ** Merging *)

(** [./MergeSkiAreaObjects] is not part of the sources at hand. *)
Variable mergeSkiAreaObjects : list MapObject -> option MapObject.

Definition getSkiAreasToMerge (skiArea : MapObject) (store : Store)
    : Result (list MapObject) :=
  match bufferGeometry (geometry skiArea) maxMergeDistanceInKilometers with
  | None => Ok []
  | Some buffer =>
      '(nearbyObjects, _) <-
        findNearbyObjects store buffer intersects
          {| ctx_id := id skiArea;
             ctx_activities := activities skiArea;
             excludeObjectsAlreadyInSkiAreaPolygon := false;
             searchPolygon := None |} [] ;;
      let otherSkiAreaIDs := Set_of_strings (flat_map skiAreas nearbyObjects) in
      let otherSkiAreas := getSkiAreasByID otherSkiAreaIDs store in
      Ok (filter (fun other => negb (same_source other skiArea)) otherSkiAreas)
  end.

Definition withSkiAreas (l : list string) (object : MapObject) : MapObject :=
  {| _key := _key object; id := id object; type := type object;
     geometry := geometry object; activities := activities object;
     skiAreas := l;
     isInSkiAreaPolygon := isInSkiAreaPolygon object;
     isBasisForNewSkiArea := isBasisForNewSkiArea object;
     isInSkiAreaSite := isInSkiAreaSite object;
     isPolygon := isPolygon object; source := source object;
     properties := properties object |}.

Definition mergeSkiAreas (skiAreas' : list MapObject) (store : Store)
    : Result Store :=
  let ids := Set_of_strings (keys skiAreas') in
  match mergeSkiAreaObjects skiAreas' with
  | None => Ok store
  | Some skiArea =>
      store1 <- collection_update (_key skiArea) (fun _ => skiArea) store ;;
      let ids := filter (fun k => negb (String.eqb k (_key skiArea))) ids in
      let store2 :=
        map (fun object =>
               if ANY_IN ids (skiAreas object)
               then withSkiAreas
                      (APPEND_unique (REMOVE_VALUES (skiAreas object) ids)
                                     (_key skiArea)) object
               else object) store1 in
      Ok (collection_removeByKeys ids store2)
  end.

(** ** Assignment of lifts and runs to ski areas *)

Record AssignOptions := {
  onlySource : SourceType;
  mergeWithOtherSourceIfNearby : bool;
  removeIfNoObjectsFound : bool;
  removeIfSubstantialNumberOfObjectsInSkiAreaSite : bool;
  onlyIfNotAlreadyAssignedToPolygon : bool;
  onlyInPolygon : bool
}.

Definition withActivitiesOf (acts : list Activity) (object : MapObject)
    : MapObject :=
  {| _key := _key object; id := id object; type := type object;
     geometry := geometry object; activities := acts;
     skiAreas := skiAreas object;
     isInSkiAreaPolygon := isInSkiAreaPolygon object;
     isBasisForNewSkiArea := isBasisForNewSkiArea object;
     isInSkiAreaSite := isInSkiAreaSite object;
     isPolygon := isPolygon object; source := source object;
     properties := properties object |}.

Definition withPropertyActivities (acts : list Activity) (p : SkiAreaProperties)
    : SkiAreaProperties :=
  {| p_id := p_id p; p_name := p_name p; p_generated := p_generated p;
     p_activities := acts; p_status := p_status p; p_sources := p_sources p;
     p_runConvention := p_runConvention p; p_website := p_website p;
     p_location := p_location p; p_statistics := p_statistics p |}.

(** The patch [{activities, properties: {activities}}] *)
Definition activitiesPatch (acts : list Activity) (object : MapObject)
    : MapObject :=
  {| _key := _key object; id := id object; type := type object;
     geometry := geometry object; activities := acts;
     skiAreas := skiAreas object;
     isInSkiAreaPolygon := isInSkiAreaPolygon object;
     isBasisForNewSkiArea := isBasisForNewSkiArea object;
     isInSkiAreaSite := isInSkiAreaSite object;
     isPolygon := isPolygon object; source := source object;
     properties := option_map (withPropertyActivities acts) (properties object) |}.

(** Reading a field of [skiArea.properties] *)
Definition propertiesOf (skiArea : MapObject) : Result SkiAreaProperties :=
  match properties skiArea with
  | Some p => Ok p
  | None => Throw TypeError
  end.

Definition isLiftOrRun (object : MapObject) : bool :=
  is_type Lift object || is_type Run object.

(** The activities of the clustered objects, added to the stored ones *)
Definition clusteredActivities (stored : list Activity)
    (memberObjects : list MapObject) : list Activity :=
  fold_left
    (fun accumulated object =>
       fold_left
         (fun acc activity =>
            if includes allSkiAreaActivities activity
            then Set_add (fun a l => includes l a) acc activity
            else acc)
         (activities object) accumulated)
    (filter (fun object => negb (is_type SkiArea object)) memberObjects)
    (Set_of_activities stored).

(** [!memberObjects.some((object) => object.type !== MapObjectType.SkiArea)] *)
Definition noObjectsFound (memberObjects : list MapObject) : bool :=
  negb (existsb (fun object => negb (is_type SkiArea object)) memberObjects).

Definition liftsAndRunsOf (memberObjects : list MapObject) : list MapObject :=
  filter isLiftOrRun memberObjects.

Definition liftsAndRunsInSiteRelationOf (memberObjects : list MapObject)
    : list MapObject :=
  filter isInSkiAreaSite (liftsAndRunsOf memberObjects).

(** [liftsAndRunsInSiteRelation.length / liftsAndRuns.length > 0.5] *)
Definition substantialNumberInSiteRelation (memberObjects : list MapObject)
    : bool :=
  js_gt (js_div (List.length (liftsAndRunsInSiteRelationOf memberObjects))
                (List.length (liftsAndRunsOf memberObjects))) (1 # 2).

(** What follows the traversal in the callback of [assignObjectsToSkiAreas] *)
Definition assignMembers (options : AssignOptions) (skiArea : MapObject)
    (props : SkiAreaProperties) (hasKnownSkiAreaActivities : bool)
    (memberObjects : list MapObject) (store : Store) : Result Store :=
  let removeDueToNoObjects :=
    removeIfNoObjectsFound options && noObjectsFound memberObjects in
  if removeDueToNoObjects
  then collection_remove (_key skiArea) store
  else
    let removeDueToSignificantObjectsInSiteRelation :=
      removeIfSubstantialNumberOfObjectsInSkiAreaSite options
      && substantialNumberInSiteRelation memberObjects in
    if removeDueToSignificantObjectsInSiteRelation
    then collection_remove (_key skiArea) store
    else
      let store1 :=
        markSkiArea (p_id props) (onlyInPolygon options) memberObjects store in
      if hasKnownSkiAreaActivities
      then Ok store1
      else
        collection_update (_key skiArea)
          (activitiesPatch (clusteredActivities (p_activities props) memberObjects))
          store1.

Definition visitContextFor (options : AssignOptions) (props : SkiAreaProperties)
    (activitiesForClustering : list Activity) (searchPolygon' : option Geometry)
    : VisitContext :=
  {| ctx_id := p_id props;
     ctx_activities := activitiesForClustering;
     excludeObjectsAlreadyInSkiAreaPolygon :=
       onlyIfNotAlreadyAssignedToPolygon options;
     searchPolygon := searchPolygon' |}.

(** [activitiesForClustering] *)
Definition activitiesForClusteringOf (skiArea : MapObject) : list Activity :=
  if 0 <? List.length (activities skiArea) then activities skiArea
  else allSkiAreaActivities.

Definition clusterSkiArea (options : AssignOptions) (skiArea : MapObject)
    (props : SkiAreaProperties) (store : Store) : Result Store :=
  searchPolygon' <-
    (if onlyInPolygon options
     then match geometry_type (geometry skiArea) with
          | Polygon | MultiPolygon => Ok (Some (geometry skiArea))
          | _ => Throw SkiAreaGeometryMustBePolygon
          end
     else Ok None) ;;
  let hasKnownSkiAreaActivities := 0 <? List.length (activities skiArea) in
  let activitiesForClustering := activitiesForClusteringOf skiArea in
  let skiArea' := withActivitiesOf activitiesForClustering skiArea in
  '(memberObjects, _) <-
    traverse store
      (visitContextFor options props activitiesForClustering searchPolygon')
      [_key skiArea] skiArea' ;;
  assignMembers options skiArea props hasKnownSkiAreaActivities memberObjects store.

(** The callback of [skiAreas.map] in [assignObjectsToSkiAreas], run on its
    own *)
Definition assignObjectsToSkiArea (options : AssignOptions) (skiArea : MapObject)
    (store : Store) : Result Store :=
  props <- propertiesOf skiArea ;;
  if String.eqb (p_id props) ""
  then Throw NoIDForSkiAreaStartingObject
  else
    if mergeWithOtherSourceIfNearby options
    then
      skiAreasToMerge <- getSkiAreasToMerge skiArea store ;;
      if 0 <? List.length skiAreasToMerge
      then mergeSkiAreas (skiArea :: skiAreasToMerge) store
      else clusterSkiArea options skiArea props store
    else clusterSkiArea options skiArea props store.

(** ** The callbacks of a [Promise.all] batch

    A callback of [skiAreas.map(async ...)] runs up to its next [await]
    of a store request.  [Await effect next] is a callback suspended at
    such a request: when the store serves it on the collection [store],
    the collection becomes [effect store] and the callback goes on as
    [next store].  The requests of one callback are served in its program
    order; between two of them the store may serve requests of the other
    callbacks of the batch. *)

Inductive Task (A : Type) : Type :=
| Return (a : A)
| Raise (e : Exception)
| OutOfFuel
| Await (effect : Store -> Store) (next : Store -> Task A).
Arguments Return {A} a.
Arguments Raise {A} e.
Arguments OutOfFuel {A}.
Arguments Await {A} effect next.

Fixpoint andThen {A B : Type} (t : Task A) (k : A -> Task B) : Task B :=
  match t with
  | Return a => k a
  | Raise e => Raise e
  | OutOfFuel => OutOfFuel
  | Await effect next => Await effect (fun store => andThen (next store) k)
  end.

Definition settled {A : Type} (r : Result A) : Task A :=
  match r with
  | Ok a => Return a
  | Throw e => Raise e
  | Timeout => OutOfFuel
  end.

(** [await] of a request that only reads *)
Definition query {A : Type} (q : Store -> Result A) : Task A :=
  Await (fun store => store) (fun store => settled (q store)).

(** [await] of a request that writes; a request that fails writes nothing *)
Definition request (w : Store -> Result Store) : Task unit :=
  Await (fun store => match w store with Ok store1 => store1 | _ => store end)
        (fun store => settled (_ <- w store ;; Ok tt)).

(** The callback run on its own, no other request in between *)
Fixpoint runTask {A : Type} (t : Task A) (store : Store) : Result (A * Store) :=
  match t with
  | Return a => Ok (a, store)
  | Raise e => Throw e
  | OutOfFuel => Timeout
  | Await effect next => runTask (next store) (effect store)
  end.

Definition findNearbyObjects_task (area : Geometry) (m : Match)
    (context : VisitContext) (alreadyVisited : list string)
    : Task (list MapObject * list string) :=
  query (fun store => findNearbyObjects store area m context alreadyVisited).

Fixpoint concatVisits_task {A : Type}
    (visit : list string -> A -> Task (list MapObject * list string))
    (alreadyVisited : list string) (items : list A)
    : Task (list MapObject * list string) :=
  match items with
  | [] => Return ([], alreadyVisited)
  | x :: rest =>
      andThen (visit alreadyVisited x) (fun first =>
      andThen (concatVisits_task visit (snd first) rest) (fun more =>
      Return (fst first ++ fst more, snd more)))
  end.

Definition visitPolygon_task
    (visitObject : VisitContext -> list string -> MapObject
                   -> Task (list MapObject * list string))
    (context : VisitContext) (alreadyVisited : list string) (geom : Geometry)
    : Task (list MapObject * list string) :=
  let isInSkiAreaPolygon :=
    match searchPolygon context with Some _ => true | None => false end in
  andThen
    (findNearbyObjects_task geom
       (if isInSkiAreaPolygon then contains else intersects)
       context alreadyVisited)
    (fun nearby =>
       if isInSkiAreaPolygon
       then Return nearby
       else concatVisits_task (visitObject context) (snd nearby) (fst nearby)).

Fixpoint visitObject_task (fuel : nat) (context : VisitContext)
    (alreadyVisited : list string) (object : MapObject)
    : Task (list MapObject * list string) :=
  match fuel with
  | O => OutOfFuel
  | S fuel' =>
      let searchArea :=
        match searchPolygon context with
        | Some p => Some p
        | None => bufferGeometry (geometry object) maxDistanceInKilometers
        end in
      match searchArea with
      | None => Return ([object], alreadyVisited)
      | Some area =>
          let objectContext := objectContextOf context object in
          match geometry_type area with
          | Polygon =>
              andThen
                (visitPolygon_task (visitObject_task fuel')
                   objectContext alreadyVisited area)
                (fun found => Return (object :: fst found, snd found))
          | MultiPolygon =>
              andThen
                (concatVisits_task
                   (fun visited poly =>
                      visitPolygon_task (visitObject_task fuel')
                        objectContext visited poly)
                   alreadyVisited (polygonsOf area))
                (fun found => Return (object :: fst found, snd found))
          | _ => Raise UnexpectedVisitAreaGeometryType
          end
      end
  end.

Definition getSkiAreasToMerge_task (skiArea : MapObject)
    : Task (list MapObject) :=
  match bufferGeometry (geometry skiArea) maxMergeDistanceInKilometers with
  | None => Return []
  | Some buffer =>
      andThen
        (findNearbyObjects_task buffer intersects
           {| ctx_id := id skiArea;
              ctx_activities := activities skiArea;
              excludeObjectsAlreadyInSkiAreaPolygon := false;
              searchPolygon := None |} [])
        (fun nearby =>
           let otherSkiAreaIDs := Set_of_strings (flat_map skiAreas (fst nearby)) in
           andThen
             (query (fun store => Ok (getSkiAreasByID otherSkiAreaIDs store)))
             (fun otherSkiAreas =>
                Return (filter (fun other => negb (same_source other skiArea))
                               otherSkiAreas)))
  end.

(** The query that updates the references to merged ski areas *)
Definition updateReferences (ids : list string) (k : string) (store : Store)
    : Store :=
  map (fun object =>
         if ANY_IN ids (skiAreas object)
         then withSkiAreas
                (APPEND_unique (REMOVE_VALUES (skiAreas object) ids) k) object
         else object) store.

Definition mergeSkiAreas_task (skiAreas' : list MapObject) : Task unit :=
  let ids := Set_of_strings (keys skiAreas') in
  match mergeSkiAreaObjects skiAreas' with
  | None => Return tt
  | Some skiArea =>
      andThen (request (collection_update (_key skiArea) (fun _ => skiArea)))
        (fun _ =>
           let ids := filter (fun k => negb (String.eqb k (_key skiArea))) ids in
           andThen
             (request (fun store => Ok (updateReferences ids (_key skiArea) store)))
             (fun _ =>
                request (fun store => Ok (collection_removeByKeys ids store))))
  end.

Definition assignMembers_task (options : AssignOptions) (skiArea : MapObject)
    (props : SkiAreaProperties) (hasKnownSkiAreaActivities : bool)
    (memberObjects : list MapObject) : Task unit :=
  let removeDueToNoObjects :=
    removeIfNoObjectsFound options && noObjectsFound memberObjects in
  if removeDueToNoObjects
  then request (collection_remove (_key skiArea))
  else
    let removeDueToSignificantObjectsInSiteRelation :=
      removeIfSubstantialNumberOfObjectsInSkiAreaSite options
      && substantialNumberInSiteRelation memberObjects in
    if removeDueToSignificantObjectsInSiteRelation
    then request (collection_remove (_key skiArea))
    else
      andThen
        (request (fun store =>
                    Ok (markSkiArea (p_id props) (onlyInPolygon options)
                                    memberObjects store)))
        (fun _ =>
           if hasKnownSkiAreaActivities
           then Return tt
           else
             request
               (collection_update (_key skiArea)
                  (activitiesPatch
                     (clusteredActivities (p_activities props) memberObjects)))).

Definition clusterSkiArea_task (fuel : nat) (options : AssignOptions)
    (skiArea : MapObject) (props : SkiAreaProperties) : Task unit :=
  andThen
    (settled
       (if onlyInPolygon options
        then match geometry_type (geometry skiArea) with
             | Polygon | MultiPolygon => Ok (Some (geometry skiArea))
             | _ => Throw SkiAreaGeometryMustBePolygon
             end
        else Ok None))
    (fun searchPolygon' =>
       let hasKnownSkiAreaActivities := 0 <? List.length (activities skiArea) in
       let activitiesForClustering := activitiesForClusteringOf skiArea in
       let skiArea' := withActivitiesOf activitiesForClustering skiArea in
       andThen
         (visitObject_task fuel
            (visitContextFor options props activitiesForClustering searchPolygon')
            [_key skiArea] skiArea')
         (fun found =>
            assignMembers_task options skiArea props hasKnownSkiAreaActivities
                               (fst found))).

(** The callback of [skiAreas.map] in [assignObjectsToSkiAreas], request
    by request *)
Definition assignObjectsToSkiArea_task (fuel : nat) (options : AssignOptions)
    (skiArea : MapObject) : Task unit :=
  andThen (settled (propertiesOf skiArea)) (fun props =>
  if String.eqb (p_id props) ""
  then Raise NoIDForSkiAreaStartingObject
  else
    if mergeWithOtherSourceIfNearby options
    then
      andThen (getSkiAreasToMerge_task skiArea) (fun skiAreasToMerge =>
      if 0 <? List.length skiAreasToMerge
      then mergeSkiAreas_task (skiArea :: skiAreasToMerge)
      else clusterSkiArea_task fuel options skiArea props)
    else clusterSkiArea_task fuel options skiArea props).

(** *** [Promise.all] *)

(** The first of the callbacks that has thrown *)
Fixpoint rejection (tasks : list (Task unit)) : option Exception :=
  match tasks with
  | [] => None
  | Raise e :: _ => Some e
  | _ :: rest => rejection rest
  end.

Fixpoint replaceNth {A : Type} (n : nat) (x : A) (l : list A) : list A :=
  match l, n with
  | [], _ => []
  | _ :: rest, O => x :: rest
  | y :: rest, S n' => y :: replaceNth n' x rest
  end.

(** The store serves the pending request of the [n]-th callback. *)
Definition serve (n : nat) (tasks : list (Task unit)) (store : Store)
    : list (Task unit) * Store :=
  match nth_error tasks n with
  | Some (Await effect next) => (replaceNth n (next store) tasks, effect store)
  | _ => (tasks, store)
  end.

(** The requests still pending are served callback by callback. *)
Fixpoint settle (tasks : list (Task unit)) (store : Store) : Result Store :=
  match tasks with
  | [] => Ok store
  | t :: rest =>
      done <- runTask t store ;;
      settle rest (snd done)
  end.

(** [await Promise.all(tasks)]: [schedule] lists the callbacks in the
    order in which the store serves a request of theirs; the promise is
    rejected as soon as a callback has thrown. *)
Fixpoint promiseAll (schedule : list nat) (tasks : list (Task unit))
    (store : Store) : Result Store :=
  match rejection tasks with
  | Some e => Throw e
  | None =>
      match schedule with
      | [] => settle tasks store
      | n :: later =>
          promiseAll later (fst (serve n tasks store)) (snd (serve n tasks store))
      end
  end.

(** [const batchSize = 50] of [getSkiAreas] *)
Definition batchSize : nat := 50.

(** The batches that [cursor.nextBatch()] returns one after the other *)
Fixpoint batches (fuel : nat) (skiAreas : list MapObject)
    : list (list MapObject) :=
  match fuel, skiAreas with
  | S fuel', _ :: _ =>
      firstn batchSize skiAreas :: batches fuel' (skipn batchSize skiAreas)
  | _, _ => []
  end.

(** One schedule for every batch of a pass; a batch without one is served
    callback by callback. *)
Definition Schedule : Type := list (list nat).

Fixpoint forEachBatch (callback : MapObject -> Task unit)
    (schedule : Schedule) (cursor : list (list MapObject)) (store : Store)
    : Result Store :=
  match cursor with
  | [] => Ok store
  | skiAreas :: rest =>
      store1 <- promiseAll (hd [] schedule) (map callback skiAreas) store ;;
      forEachBatch callback (tl schedule) rest store1
  end.

(** The traversals of a pass get the fuel that suffices on the collection
    at the start of the pass; no pass adds a document. *)
Definition assignObjectsToSkiAreas (options : AssignOptions)
    (schedule : Schedule) (store : Store) : Result Store :=
  skiAreas <-
    getSkiAreas {| gs_onlySource := Some (onlySource options);
                   gs_onlyPolygons := onlyInPolygon options;
                   gs_onlyInPolygon := None |} store ;;
  forEachBatch
    (assignObjectsToSkiArea_task (S (List.length store)) options)
    schedule (batches (List.length skiAreas) skiAreas) store.

(** The three calls of [clusterArangoGraph] *)
Definition polygonPass : AssignOptions :=
  {| onlySource := OPENSTREETMAP;
     mergeWithOtherSourceIfNearby := false;
     removeIfNoObjectsFound := true;
     removeIfSubstantialNumberOfObjectsInSkiAreaSite := true;
     onlyIfNotAlreadyAssignedToPolygon := false;
     onlyInPolygon := true |}.

Definition nearbyPass : AssignOptions :=
  {| onlySource := OPENSTREETMAP;
     mergeWithOtherSourceIfNearby := false;
     removeIfNoObjectsFound := false;
     removeIfSubstantialNumberOfObjectsInSkiAreaSite := false;
     onlyIfNotAlreadyAssignedToPolygon := true;
     onlyInPolygon := false |}.

Definition skimapPass : AssignOptions :=
  {| onlySource := SKIMAP_ORG;
     mergeWithOtherSourceIfNearby := true;
     removeIfNoObjectsFound := false;
     removeIfSubstantialNumberOfObjectsInSkiAreaSite := false;
     onlyIfNotAlreadyAssignedToPolygon := true;
     onlyInPolygon := false |}.

(** ** Generation of ski areas for unassigned runs *)

(** [uuid()]: the n-th identifier drawn *)
Variable uuid : nat -> string.

(** The query is taken to be answered, with the first flagged document
    of the collection; the guard on the activities follows it. *)
Definition nextUnassignedRun (store : Store) : Result (option MapObject) :=
  match find isBasisForNewSkiArea store with
  | Some run =>
      if List.length (activities run) =? 0
      then Throw NoActivitiesForRun
      else Ok (Some run)
  | None => Ok None
  end.

Definition draftSkiArea (id' : string) (acts : list Activity) (geom : Geometry)
    : MapObject :=
  {| _key := id'; id := id'; type := SkiArea;
     geometry := geom; activities := acts;
     skiAreas := [id'];
     isInSkiAreaPolygon := false;
     isBasisForNewSkiArea := false;
     isInSkiAreaSite := false;
     isPolygon := true;
     source := Some OPENSTREETMAP;
     properties :=
       Some {| p_id := id'; p_name := None; p_generated := true;
               p_activities := acts; p_status := Operating; p_sources := [];
               p_runConvention := getRunConvention geom; p_website := None;
               p_location := None; p_statistics := None |} |}.

Definition createGeneratedSkiArea (id' : string) (acts : list Activity)
    (memberObjects : list MapObject) (store : Store) : Result Store :=
  match centroid (map geometry memberObjects) with
  | None => Throw NoCentroidPointCouldBeFound
  | Some geom =>
      store1 <- collection_save (draftSkiArea id' acts geom) store ;;
      Ok (markSkiArea id' false memberObjects store1)
  end.

Definition notBasis (object : MapObject) : MapObject :=
  {| _key := _key object; id := id object; type := type object;
     geometry := geometry object; activities := activities object;
     skiAreas := skiAreas object;
     isInSkiAreaPolygon := isInSkiAreaPolygon object;
     isBasisForNewSkiArea := false;
     isInSkiAreaSite := isInSkiAreaSite object;
     isPolygon := isPolygon object; source := source object;
     properties := properties object |}.

Definition hasAnotherActivity (object : MapObject) : bool :=
  existsb (fun activity => negb (Activity_eqb activity Downhill)
                           && includes allSkiAreaActivities activity)
          (activities object).

(** The activities and members a run's ski area is generated from: the
    two [let] variables of [generateSkiAreaForRun] after the lift check. *)
Definition downhillNeedsLift (acts : list Activity)
    (memberObjects : list MapObject) : list Activity * list MapObject :=
  if includes acts Downhill && negb (existsb (is_type Lift) memberObjects)
  then (filter (fun activity => negb (Activity_eqb activity Downhill)) acts,
        filter hasAnotherActivity memberObjects)
  else (acts, memberObjects).

Definition generateSkiAreaForRun (newSkiAreaID : string)
    (unassignedRun : MapObject) (store : Store) : Result Store :=
  let acts := filter (includes allSkiAreaActivities) (activities unassignedRun) in
  '(memberObjects, _) <-
    traverse store
      {| ctx_id := newSkiAreaID; ctx_activities := acts;
         excludeObjectsAlreadyInSkiAreaPolygon := false;
         searchPolygon := None |}
      [_key unassignedRun] unassignedRun ;;
  let '(acts, memberObjects) := downhillNeedsLift acts memberObjects in
  if (List.length acts =? 0) || (List.length memberObjects =? 0)
  then collection_update (_key unassignedRun) notBasis store
  else createGeneratedSkiArea newSkiAreaID acts memberObjects store.

(** The [while] loop; [drawn] counts the identifiers drawn so far.  The
    second component is what [console.log] received from the [catch]. *)
Fixpoint generateSkiAreasForUnassignedObjects (fuel drawn : nat) (store : Store)
    : Result Store * list Exception :=
  match fuel with
  | O => (Timeout, [])
  | S fuel' =>
      match nextUnassignedRun store with
      | Throw e => (Throw e, [])
      | Timeout => (Timeout, [])
      | Ok None => (Ok store, [])
      | Ok (Some unassignedRun) =>
          match generateSkiAreaForRun (uuid drawn) unassignedRun store with
          | Ok store1 =>
              generateSkiAreasForUnassignedObjects fuel' (S drawn) store1
          | Throw exception =>
              let '(r, logged) :=
                generateSkiAreasForUnassignedObjects fuel' (S drawn) store in
              (r, exception :: logged)
          | Timeout => (Timeout, [])
          end
      end
  end.

(** ** Augmentation *)

Variable skiAreaStatistics : list MapObject -> Statistics.

Definition augmented (skiArea : MapObject) (props : SkiAreaProperties)
    (stats : Statistics) (newGeometry : Geometry) (loc : option Location)
    : MapObject :=
  {| _key := _key skiArea; id := id skiArea; type := type skiArea;
     geometry := newGeometry; activities := activities skiArea;
     skiAreas := skiAreas skiArea;
     isInSkiAreaPolygon := isInSkiAreaPolygon skiArea;
     isBasisForNewSkiArea := isBasisForNewSkiArea skiArea;
     isInSkiAreaSite := isInSkiAreaSite skiArea;
     isPolygon := false; source := source skiArea;
     properties :=
       Some {| p_id := p_id props; p_name := p_name props;
               p_generated := p_generated props;
               p_activities := p_activities props;
               p_status := p_status props; p_sources := p_sources props;
               p_runConvention := getRunConvention newGeometry;
               p_website := p_website props;
               p_location := loc; p_statistics := Some stats |} |}.

Definition withKey (k : string) (object : MapObject) : MapObject :=
  {| _key := k; id := id object; type := type object;
     geometry := geometry object; activities := activities object;
     skiAreas := skiAreas object;
     isInSkiAreaPolygon := isInSkiAreaPolygon object;
     isBasisForNewSkiArea := isBasisForNewSkiArea object;
     isInSkiAreaSite := isInSkiAreaSite object;
     isPolygon := isPolygon object; source := source object;
     properties := properties object |}.

(** A [null] centroid is dereferenced by the code that follows it. *)
Definition centroidGeometry (geometries : list Geometry) : Result Geometry :=
  match centroid geometries with
  | Some g => Ok g
  | None => Throw TypeError
  end.

Definition augmentSkiAreaBasedOnAssignedLiftsAndRuns
    (skiArea : MapObject) (memberObjects : list MapObject)
    (geocoder : option (Geometry -> option Location)) (store : Store)
    : Result Store :=
  props <- propertiesOf skiArea ;;
  let noSkimapOrgSource :=
    negb (existsb (fun src => SourceType_eqb (fst src) SKIMAP_ORG)
                  (p_sources props)) in
  if (List.length memberObjects =? 0) && noSkimapOrgSource
  then collection_remove (_key skiArea) store
  else
    newGeometry <-
      (if 0 <? List.length memberObjects
       then centroidGeometry (map geometry memberObjects)
       else Ok (geometry skiArea)) ;;
    loc <-
      match geocoder with
      | Some geocode =>
          coordinates <- centroidGeometry [newGeometry] ;;
          Ok (match geocode coordinates with
              | Some l => Some l
              | None => p_location props
              end)
      | None => Ok (p_location props)
      end ;;
    collection_update (id skiArea)
      (fun stored =>
         withKey (_key stored)
           (augmented skiArea props (skiAreaStatistics memberObjects)
                      newGeometry loc))
      store.

Definition augmentSkiAreasBasedOnAssignedLiftsAndRuns
    (geocoder : option (Geometry -> option Location)) (store : Store)
    : Result Store :=
  skiAreas <-
    getSkiAreas {| gs_onlySource := None; gs_onlyPolygons := false;
                   gs_onlyInPolygon := None |} store ;;
  forEachSkiArea
    (fun skiArea store' =>
       augmentSkiAreaBasedOnAssignedLiftsAndRuns
         skiArea (getObjects (id skiArea) store') geocoder store')
    skiAreas store.

(** ** The pipeline *)

(** [polygons], [nearby] and [skimap] are the schedules of the three
    assignment passes. *)
Definition clusterArangoGraph (polygons nearby skimap : Schedule)
    (fuel drawn : nat)
    (geocoder : option (Geometry -> option Location)) (store : Store)
    : Result Store :=
  store0 <- removeAmbiguousDuplicateSkiAreas store ;;
  store1 <- assignObjectsToSkiAreas polygonPass polygons store0 ;;
  store2 <- assignObjectsToSkiAreas nearbyPass nearby store1 ;;
  store3 <- assignObjectsToSkiAreas skimapPass skimap store2 ;;
  store4 <- fst (generateSkiAreasForUnassignedObjects fuel drawn store3) ;;
  augmentSkiAreasBasedOnAssignedLiftsAndRuns geocoder store4.

End Clustering.

Arguments Return {geo A} a.
Arguments Raise {geo A} e.
Arguments OutOfFuel {geo A}.
Arguments Await {geo A} effect next.





(** ** A document and its later state

    [Kept o o']: [o'] is the document [o] after some store operations
    that left its identity and shape alone, did not clear
    [isInSkiAreaPolygon], did not take a ski area away and did not flag
    it as basis for a new ski area. *)
Definition Kept {geo : GeoLibrary} (o o' : @MapObject geo) : Prop :=
  _key o' = _key o /\ id o' = id o /\ type o' = type o /\
  geometry o' = geometry o /\
  (isInSkiAreaPolygon o = true -> isInSkiAreaPolygon o' = true) /\
  incl (skiAreas o) (skiAreas o') /\
  (NoDup (skiAreas o) -> NoDup (skiAreas o')) /\
  (isBasisForNewSkiArea o' = true -> isBasisForNewSkiArea o = true).

Definition Evolves {geo : GeoLibrary} (store store' : @Store geo) : Prop :=
  forall o', In o' store' -> exists o, In o store /\ Kept o o'.

(** What [findNearbyObjects] demands of a document whatever the area,
    the activities and the visited keys are *)
Definition Eligible {geo : GeoLibrary} (context : @VisitContext geo)
    (o : @MapObject geo) : Prop :=
  ~ In (ctx_id context) (skiAreas o) /\
  (excludeObjectsAlreadyInSkiAreaPolygon context = true ->
   isInSkiAreaPolygon o = false).

(** Every document of [store] is still there in [store'], possibly marked *)
Definition Survives {geo : GeoLibrary} (store store' : @Store geo) : Prop :=
  forall o, In o store -> exists o', In o' store' /\ Kept o o'.

(** No document is flagged as basis for a new ski area *)
Definition Unflagged {geo : GeoLibrary} (store : @Store geo) : Prop :=
  forall o, In o store -> isBasisForNewSkiArea o = false.

(** Every request of a callback takes the collection from a [store] to a
    collection related to it by [P]. *)
Fixpoint Steps {geo : GeoLibrary} {A : Type}
    (P : @Store geo -> @Store geo -> Prop) (t : @Task geo A) : Prop :=
  match t with
  | Await effect next =>
      (forall store, P store (effect store)) /\
      (forall store, Steps P (next store))
  | _ => True
  end.

(** An OpenStreetMap polygon ski area whose geometry intersects more than
    one Skimap.org ski area of the collection *)
Definition ambiguousDuplicate {geo : GeoLibrary} (store : @Store geo)
    (o : @MapObject geo) : bool :=
  skiAreasFilter {| gs_onlySource := Some OPENSTREETMAP;
                    gs_onlyPolygons := true;
                    gs_onlyInPolygon := None |} o
  && match getSkiAreas {| gs_onlySource := Some SKIMAP_ORG;
                          gs_onlyPolygons := false;
                          gs_onlyInPolygon := Some (geometry o) |} store with
     | Ok others => 1 <? List.length others
     | _ => false
     end.

(** ** Formatting of ski areas: [SkiAreaFormatter.ts]

    The input feature is a record of the fields the formatter reads: the
    geometry, the tags and the [osmID] of an OpenStreetMap feature, the
    properties of a Skimap.org feature.
    [getStatusAndValue("landuse", tags).status] and [buildFeature] are
    collaborators. *)

(** The tags of an OpenStreetMap feature, a JS object with string values *)
Definition Tags := list (string * string).

(** [tags[key]], [None] for [undefined] *)
Fixpoint tag (tags : Tags) (key : string) : option string :=
  match tags with
  | [] => None
  | (k, v) :: rest => if String.eqb k key then Some v else tag rest key
  end.

(** [value !== undefined] *)
Definition isDefined (value : option string) : bool :=
  match value with Some _ => true | None => false end.

(** [value === text] *)
Definition strictEq (value : option string) (text : string) : bool :=
  match value with Some v => String.eqb v text | None => false end.

Definition GeometryType_eqb (a b : GeometryType) : bool :=
  match a, b with
  | Point, Point | LineString, LineString | Polygon, Polygon
  | MultiPolygon, MultiPolygon | GeometryCollection, GeometryCollection => true
  | _, _ => false
  end.

Section Formatting.
Context {geo : GeoLibrary}.
Variable landuseStatus : Tags -> Status.
Variable Feature : Type.

Record InputSkiAreaFeature := {
  in_geometry : Geometry;
  (* InputOpenStreetMapSkiAreaFeature *)
  in_tags : Tags;
  in_osmID : string;
  (* InputSkiMapOrgSkiAreaFeature *)
  in_id : string;
  in_name : option string;
  in_activities : list Activity;
  in_status : Status;
  in_official_website : option string
}.

(** [Omit<SkiAreaProperties, "id">] *)
Record FormattedProperties := {
  f_name : option string;
  f_sources : list (SourceType * string);
  f_activities : list Activity;
  f_generated : bool;
  f_status : Status;
  f_website : option string;
  f_runConvention : RunConvention;
  f_location : option Location
}.

Variable buildFeature : Geometry -> FormattedProperties -> Feature.

(** [value || null] on an optional string *)
Definition orNull (value : option string) : option string :=
  match value with
  | Some EmptyString => None
  | other => other
  end.

Definition propertiesForOpenStreetMapSkiArea (feature : InputSkiAreaFeature)
    : FormattedProperties :=
  {| f_name := orNull (tag (in_tags feature) "name");
     f_sources := [(OPENSTREETMAP, in_osmID feature)];
     f_activities := [];
     f_generated := false;
     f_status := landuseStatus (in_tags feature);
     f_website := orNull (tag (in_tags feature) "website");
     f_runConvention := getRunConvention (in_geometry feature);
     f_location := None |}.

Definition propertiesForSkiMapOrgSkiArea (feature : InputSkiAreaFeature)
    : FormattedProperties :=
  let activities := in_activities feature in
  {| f_name := orNull (in_name feature);
     f_sources := [(SKIMAP_ORG, in_id feature)];
     f_activities := activities;
     f_generated := false;
     f_status := in_status feature;
     f_runConvention := getRunConvention (in_geometry feature);
     f_website := in_official_website feature;
     f_location := None |}.

(** [None] is the [null] of the source *)
Definition formatSkiArea (source' : SourceType) (feature : InputSkiAreaFeature)
    : option Feature :=
  match source' with
  | OPENSTREETMAP =>
      let osmFeature := feature in
      if isDefined (tag (in_tags osmFeature) "sport")
         && negb (strictEq (tag (in_tags osmFeature) "sport") "skiing")
         && negb (strictEq (tag (in_tags osmFeature) "sport") "ski")
      then None
      else if negb (GeometryType_eqb (geometry_type (in_geometry osmFeature)) Polygon)
              && negb (GeometryType_eqb (geometry_type (in_geometry osmFeature))
                         MultiPolygon)
      then None
      else Some (buildFeature (in_geometry osmFeature)
                   (propertiesForOpenStreetMapSkiArea osmFeature))
  | SKIMAP_ORG =>
      Some (buildFeature (in_geometry feature)
              (propertiesForSkiMapOrgSkiArea feature))
  end.

End Formatting.

(** ** A concrete geometry: features on one line

    Positions are metres along a line; a geometry is the stretch between
    two of them, a point when they coincide.  Buffering widens the stretch
    on both sides, the centroid is the mean of the midpoints. *)

Record Stretch := { st_type : GeometryType; st_from : Z; st_to : Z }.

Definition stretchBuffer (g : Stretch) (km : Q) : option Stretch :=
  let r := Qfloor (km * 1000) in
  Some {| st_type := Polygon;
          st_from := (st_from g - r)%Z; st_to := (st_to g + r)%Z |}.

Definition stretchIntersects (a b : Stretch) : bool :=
  (st_from a <=? st_to b)%Z && (st_from b <=? st_to a)%Z.

Definition stretchContains (a b : Stretch) : bool :=
  (st_from a <=? st_from b)%Z && (st_to b <=? st_to a)%Z.

Definition stretchCentroid (gs : list Stretch) : option Stretch :=
  match gs with
  | [] => None
  | _ =>
      let total := fold_right (fun g acc => (st_from g + st_to g + acc)%Z) 0%Z gs in
      let c := (total / (2 * Z.of_nat (List.length gs)))%Z in
      Some {| st_type := Point; st_from := c; st_to := c |}
  end.

Definition lineGeo : GeoLibrary :=
  {| Geometry := Stretch;
     geometry_type := st_type;
     bufferGeometry := stretchBuffer;
     polygonsOf := fun _ => [];
     GEO_INTERSECTS := stretchIntersects;
     GEO_CONTAINS := stretchContains;
     arangoError := fun _ => None;
     centroid := stretchCentroid;
     RunConvention := unit;
     getRunConvention := fun _ => tt;
     Statistics := nat;
     Location := string |}.

Definition pointAt (x : Z) : Stretch :=
  {| st_type := Point; st_from := x; st_to := x |}.

Definition polygonOver (a b : Z) : Stretch :=
  {| st_type := Polygon; st_from := a; st_to := b |}.

Definition feature (t : MapObjectType) (k : string) (g : Stretch)
    (acts : list Activity) (basis : bool) : @MapObject lineGeo :=
  @Build_MapObject lineGeo k k t g acts [] false basis false false None None.

Definition skiAreaFeature (src : SourceType) (k : string) (g : Stretch)
    (acts : list Activity) : @MapObject lineGeo :=
  @Build_MapObject lineGeo k k SkiArea g acts [k] false false false
    (match st_type g with
     | Polygon | MultiPolygon => true
     | _ => false
     end)
    (Some src)
    (Some (@Build_SkiAreaProperties lineGeo k None false acts Operating
             [(src, k)] tt None None None)).

Definition noMerge (l : list (@MapObject lineGeo)) : option (@MapObject lineGeo) :=
  None.

Definition countMembers (l : list (@MapObject lineGeo)) : nat := List.length l.

(** Identifiers [g], [gg], [ggg], ... *)
Fixpoint lineUuid (n : nat) : string :=
  match n with
  | O => "g"
  | S m => "g" ++ lineUuid m
  end.

(** The pipeline on the line, every batch served callback by callback *)
Definition runLine (fuel drawn : nat) (store : @Store lineGeo) : Result Store :=
  clusterArangoGraph noMerge lineUuid countMembers [] [] [] fuel drawn None store.

(** ** Example collections on the line *)

(** A polygon of OpenStreetMap holding a Skimap.org ski area and a run *)
Definition polygonStore : @Store lineGeo :=
  [skiAreaFeature OPENSTREETMAP "A" (polygonOver 0 1000) [];
   skiAreaFeature SKIMAP_ORG "B" (pointAt 500) [Downhill];
   feature Run "R" (pointAt 600) [Downhill] true].

(** An OpenStreetMap node with a downhill run, a nordic run 450 m away
    and a second downhill run 100 m further *)
Definition chainStore : @Store lineGeo :=
  [skiAreaFeature OPENSTREETMAP "A" (pointAt 400) [];
   feature Run "R1" (pointAt 400) [Downhill] true;
   feature Run "R2" (pointAt 850) [Nordic] true;
   feature Run "R3" (pointAt 950) [Downhill] true].

(** One nordic run and nothing else *)
Definition nordicStore : @Store lineGeo :=
  [feature Run "N" (pointAt 0) [Nordic] true].


(** A run whose key is the first identifier that [lineUuid] draws *)
Definition clashStore : @Store lineGeo :=
  [feature Run "g" (pointAt 0) [Nordic] true].

(** A polygon and a run that refers to it, as the polygon pass leaves them *)
Definition assignedStore : @Store lineGeo :=
  [skiAreaFeature OPENSTREETMAP "A" (polygonOver 0 1000) [Downhill];
   @Build_MapObject lineGeo "R" "R" Run (pointAt 600) [Downhill] ["A"]
     true false false false None None].

Definition polygonArea : @MapObject lineGeo :=
  skiAreaFeature OPENSTREETMAP "A" (polygonOver 0 1000) [].

Definition polygonAreaProps : @SkiAreaProperties lineGeo :=
  @Build_SkiAreaProperties lineGeo "A" None false [] Operating
    [(OPENSTREETMAP, "A")] tt None None None.

Definition polygonTraversal : @Visit lineGeo :=
  traverse polygonStore
    (visitContextFor polygonPass polygonAreaProps
       (activitiesForClusteringOf polygonArea) (Some (geometry polygonArea)))
    [_key polygonArea]
    (withActivitiesOf (activitiesForClusteringOf polygonArea) polygonArea).

(** The document stored under a key *)
Definition document {geo : GeoLibrary} (k : string) (store : @Store geo)
    : option MapObject :=
  find (fun o => String.eqb (_key o) k) store.

(** The value of a result that is known to be [Ok] *)
Definition valueOf {A : Type} (r : Result A) (default : A) : A :=
  match r with
  | Ok a => a
  | _ => default
  end.

Definition polygonMembers : list (@MapObject lineGeo) :=
  fst (valueOf polygonTraversal ([], [])).

Definition polygonVisited : list string :=
  snd (valueOf polygonTraversal ([], [])).

Definition polygonPassResult : @Store lineGeo :=
  valueOf (clusterSkiArea polygonPass polygonArea polygonAreaProps polygonStore) [].

Definition nordicRun : @MapObject lineGeo :=
  feature Run "N" (pointAt 0) [Nordic] true.

Definition nordicGenerated : @Store lineGeo :=
  valueOf (generateSkiAreaForRun "g" nordicRun nordicStore) [].

Definition assignedAugmented : @Store lineGeo :=
  valueOf (augmentSkiAreasBasedOnAssignedLiftsAndRuns countMembers None
             assignedStore) [].

Definition chainContext : @VisitContext lineGeo :=
  @Build_VisitContext lineGeo "A" [Downhill; Nordic] true None.

Definition chainSeed : @MapObject lineGeo :=
  skiAreaFeature OPENSTREETMAP "A" (pointAt 400) [Downhill; Nordic].

Definition chainVisit : @Visit lineGeo :=
  visitObject 5 chainStore chainContext ["A"] chainSeed.

Definition chainFound : list (@MapObject lineGeo) :=
  fst (valueOf chainVisit ([], [])).

Definition chainVisited : list string :=
  snd (valueOf chainVisit ([], [])).

(** A composer that keeps the first of the ski areas it is given *)
Definition keepFirst (l : list (@MapObject lineGeo)) : option (@MapObject lineGeo) :=
  hd_error l.

(** A Skimap.org ski area 200 m from a run of an OpenStreetMap ski area *)
Definition mergeT : @MapObject lineGeo :=
  skiAreaFeature SKIMAP_ORG "T" (pointAt 300) [Downhill].

Definition mergeS : @MapObject lineGeo :=
  skiAreaFeature OPENSTREETMAP "S" (pointAt 0) [Downhill].

Definition mergeStore : @Store lineGeo :=
  [mergeT; mergeS;
   @Build_MapObject lineGeo "R" "R" Run (pointAt 100) [Downhill] ["S"]
     false false false false None None].

Definition mergeResult : @Store lineGeo :=
  valueOf (mergeSkiAreas keepFirst [mergeT; mergeS] mergeStore) [].

Definition mergeCandidates : list (@MapObject lineGeo) :=
  valueOf (getSkiAreasToMerge mergeT mergeStore) [].

(** An OpenStreetMap polygon that encloses two Skimap.org ski areas *)
Definition superStore : @Store lineGeo :=
  [skiAreaFeature OPENSTREETMAP "A" (polygonOver 0 1000) [];
   skiAreaFeature SKIMAP_ORG "B" (pointAt 100) [Downhill];
   skiAreaFeature SKIMAP_ORG "C" (pointAt 300) [Downhill]].

Definition superResult : @Store lineGeo :=
  valueOf (removeAmbiguousDuplicateSkiAreas superStore) [].

Definition chainGenerated : @Store lineGeo :=
  valueOf (fst (generateSkiAreasForUnassignedObjects lineUuid 4 0 chainStore)) [].

(** A geocoder that fails on every coordinate *)
Definition failingGeocoder : option (Stretch -> option string) :=
  Some (fun _ => None).

Definition assignedA : @MapObject lineGeo :=
  skiAreaFeature OPENSTREETMAP "A" (polygonOver 0 1000) [Downhill].

Definition assignedR : @MapObject lineGeo :=
  @Build_MapObject lineGeo "R" "R" Run (pointAt 600) [Downhill] ["A"]
    true false false false None None.

Definition assignedUngeocoded : @Store lineGeo :=
  valueOf (augmentSkiAreaBasedOnAssignedLiftsAndRuns countMembers
             assignedA [assignedR] (Some (fun _ : Stretch => @None string))
             assignedStore) [].

(** ** Error messages of the store

    [isInvalidGeometryError] looks for three phrases in the message of
    the error. *)

(** [haystack.includes(needle)] *)
Fixpoint includesString (needle haystack : string) : bool :=
  String.prefix needle haystack
  || match haystack with
     | EmptyString => false
     | String _ rest => includesString needle rest
     end.

Definition invalidGeometryPhrases : list string :=
  ["Polygon is not valid"; "Invalid loop in polygon"; "Loop not closed"].

Definition isInvalidGeometryError (errorMessage : string) : bool :=
  includesString "Polygon is not valid" errorMessage
  || includesString "Invalid loop in polygon" errorMessage
  || includesString "Loop not closed" errorMessage.

(** ** The line with a store that rejects reversed stretches

    As [lineGeo], but a query over an area whose end lies before its
    start fails with an invalid polygon error. *)
Definition strictGeo : GeoLibrary :=
  {| Geometry := Stretch;
     geometry_type := st_type;
     bufferGeometry := stretchBuffer;
     polygonsOf := fun _ => [];
     GEO_INTERSECTS := stretchIntersects;
     GEO_CONTAINS := stretchContains;
     arangoError := fun g => if (st_to g <? st_from g)%Z
                             then Some InvalidGeometryError else None;
     centroid := stretchCentroid;
     RunConvention := unit;
     getRunConvention := fun _ => tt;
     Statistics := nat;
     Location := string |}.

Definition reversedProps : @SkiAreaProperties strictGeo :=
  @Build_SkiAreaProperties strictGeo "A" None false [] Operating
    [(OPENSTREETMAP, "A")] tt None None None.

Definition reversedArea : @MapObject strictGeo :=
  @Build_MapObject strictGeo "A" "A" SkiArea (polygonOver 1000 0) [] ["A"]
    false false false true (Some OPENSTREETMAP) (Some reversedProps).

Definition reversedStore : @Store strictGeo :=
  [reversedArea;
   @Build_MapObject strictGeo "R" "R" Run (pointAt 500) [Downhill] []
     false true false false None None].

(** A resort mapped in OpenStreetMap as a polygon tagged for skiing *)
Definition resortTags : Tags :=
  [("landuse", "winter_sports"); ("sport", "skiing"); ("name", "Resort")].

Definition resortInput : @InputSkiAreaFeature lineGeo :=
  @Build_InputSkiAreaFeature lineGeo (polygonOver 0 1000) resortTags
    "way/1" "1" None [] Operating None.

Definition pairFeature (g : Stretch) (p : @FormattedProperties lineGeo)
    : Stretch * @FormattedProperties lineGeo := (g, p).

(** A downhill run with a lift 300 m away *)
Definition liftRun : @MapObject lineGeo := feature Run "R" (pointAt 0) [Downhill] true.

Definition liftStore : @Store lineGeo :=
  [liftRun; feature Lift "L" (pointAt 300) [Downhill] false].

Definition liftGenerated : @Store lineGeo :=
  valueOf (generateSkiAreaForRun "g" liftRun liftStore) [].





(** A polygon inside another one, and a run inside both *)
Definition nestedStore : @Store lineGeo :=
  [skiAreaFeature OPENSTREETMAP "A1" (polygonOver 200 800) [];
   skiAreaFeature OPENSTREETMAP "A2" (polygonOver 0 1000) [];
   feature Run "R" (pointAt 500) [Downhill] true].

(** The first request of either callback is served before the rest *)
Definition nestedSchedule : Schedule := [[0; 1]].

Definition nestedResult : @Store lineGeo :=
  valueOf (assignObjectsToSkiAreas noMerge polygonPass nestedSchedule nestedStore) [].

(** A run for downhill and nordic skiing, a downhill lift 400 m from it
    and, 300 m further, a nordic run that is not flagged *)
Definition hopStore : @Store lineGeo :=
  [feature Run "R1" (pointAt 0) [Downhill; Nordic] true;
   feature Lift "L2" (pointAt 400) [Downhill] false;
   feature Run "X" (pointAt 700) [Nordic] false].

Definition hopFirst : @Store lineGeo := valueOf (runLine 5 0 hopStore) [].

Definition hopSecond : @Store lineGeo := valueOf (runLine 5 1 hopFirst) [].








(** * Properties *)

(** ** Equality tests and membership *)

Lemma Activity_eqb_eq a b : Activity_eqb a b = true <-> a = b.
Proof. destruct a, b; simpl; split; intro H; try reflexivity; discriminate H. Qed.

Lemma MapObjectType_eqb_eq a b : MapObjectType_eqb a b = true <-> a = b.
Proof. destruct a, b; simpl; split; intro H; try reflexivity; discriminate H. Qed.

Lemma includes_In l a : includes l a = true <-> In a l.
Proof.
  unfold includes. rewrite existsb_exists. split.
  - intros [x [Hx He]]. apply Activity_eqb_eq in He. now subst.
  - intro H. exists a. split; [assumption | now apply Activity_eqb_eq].
Qed.

Lemma str_in_In s l : str_in s l = true <-> In s l.
Proof.
  unfold str_in. rewrite existsb_exists. split.
  - intros [x [Hx He]]. apply String.eqb_eq in He. now subst.
  - intro H. exists s. split; [assumption | apply String.eqb_refl].
Qed.

Lemma str_in_false s l : str_in s l = false <-> ~ In s l.
Proof.
  rewrite <- str_in_In. destruct (str_in s l); split; intro H;
    try reflexivity; try discriminate; try (intro H'; discriminate H').
  exfalso. now apply H.
Qed.

Lemma ANY_IN_activities_spec a b :
  ANY_IN_activities a b = true <-> exists x, In x a /\ In x b.
Proof.
  unfold ANY_IN_activities. rewrite existsb_exists.
  split; intros [x [H1 H2]]; exists x; split; try assumption;
    now apply includes_In.
Qed.

Lemma ANY_IN_activities_mono a b b' :
  incl b b' -> ANY_IN_activities a b = true -> ANY_IN_activities a b' = true.
Proof.
  intros Hi H. apply ANY_IN_activities_spec in H. destruct H as [x [H1 H2]].
  apply ANY_IN_activities_spec. exists x. split; [assumption | now apply Hi].
Qed.

Lemma bind_Ok {A B} (r : Result A) (k : A -> Result B) b :
  bind r k = Ok b -> exists a, r = Ok a /\ k a = Ok b.
Proof. destruct r; simpl; intro H; try discriminate. now exists a. Qed.

Lemma bind_not_Timeout {A B} (r : Result A) (k : A -> Result B) :
  r <> Timeout -> (forall a, r = Ok a -> k a <> Timeout) -> bind r k <> Timeout.
Proof.
  destruct r; simpl; intros H1 H2.
  - now apply H2.
  - discriminate.
  - now elim H1.
Qed.

(** ** The traversal *)

Section TraversalFacts.
Context {geo : GeoLibrary}.
Variable store : Store.

Lemma keys_In (o : MapObject) l : In o l -> In (_key o) (keys l).
Proof. intro H. unfold keys. now apply in_map. Qed.

Lemma NoDup_keys_filter (f : MapObject -> bool) l :
  NoDup (keys l) -> NoDup (keys (filter f l)).
Proof.
  induction l as [|o l IH]; simpl; intro H; [constructor|].
  inversion H as [|? ? Hn Hd]; subst.
  destruct (f o); simpl; [|now apply IH].
  constructor; [|now apply IH].
  intro Hin. apply Hn. unfold keys in *. apply in_map_iff in Hin.
  destruct Hin as [x [Hk Hx]]. apply filter_In in Hx.
  apply in_map_iff. exists x. tauto.
Qed.

Lemma Discovered_weaken acts acts' v found v' :
  incl acts acts' ->
  Discovered store acts v found v' -> Discovered store acts' v found v'.
Proof.
  intros Hi (H1 & H2 & H3). repeat split; try assumption;
    destruct (H3 o H) as (? & ? & ? & ?); try assumption.
  eapply ANY_IN_activities_mono; eassumption.
Qed.

Lemma Discovered_nil acts v : Discovered store acts v [] v.
Proof.
  split; [apply incl_refl|]. split; [intros _; constructor|].
  intros o [].
Qed.

Lemma Discovered_app acts v f1 v1 f2 v2 :
  Discovered store acts v f1 v1 -> Discovered store acts v1 f2 v2 ->
  Discovered store acts v (f1 ++ f2) v2.
Proof.
  intros (I1 & N1 & E1) (I2 & N2 & E2). split; [|split].
  - eapply incl_tran; eassumption.
  - intro Hs. unfold keys. rewrite map_app. apply NoDup_app.
    + now apply N1.
    + now apply N2.
    + intros k Hk1 Hk2. apply in_map_iff in Hk1. destruct Hk1 as [o1 [<- Ho1]].
      apply in_map_iff in Hk2. destruct Hk2 as [o2 [Hk Ho2]].
      destruct (E1 o1 Ho1) as (_ & _ & Hin & _).
      destruct (E2 o2 Ho2) as (_ & Hnot & _). apply Hnot. now rewrite Hk.
  - intros o Ho. apply in_app_or in Ho. destruct Ho as [Ho|Ho].
    + destruct (E1 o Ho) as (? & ? & ? & ?). repeat split; auto.
    + destruct (E2 o Ho) as (? & ? & ? & ?). repeat split; auto.
Qed.

Lemma nearbyFilter_true area m context v o :
  nearbyFilter area m context v o = true ->
  ~ In (_key o) v /\
  ANY_IN_activities (activities o) (ctx_activities context) = true.
Proof.
  unfold nearbyFilter. intro Hf.
  apply andb_true_iff in Hf. destruct Hf as [Hf Hact].
  apply andb_true_iff in Hf. destruct Hf as [Hf _].
  apply andb_true_iff in Hf. destruct Hf as [_ Hv].
  apply negb_true_iff, str_in_false in Hv. now split.
Qed.

Lemma findNearbyObjects_Discovered area m context v found v' :
  findNearbyObjects store area m context v = Ok (found, v') ->
  Discovered store (ctx_activities context) v found v'.
Proof.
  unfold findNearbyObjects.
  destruct (arangoError area) as [[|]|]; intro H; inversion H; subst; clear H.
  - apply Discovered_nil.
  - split; [|split].
    + apply incl_appl, incl_refl.
    + apply NoDup_keys_filter.
    + intros o Ho. pose proof (keys_In _ _ Ho) as Hk.
      apply filter_In in Ho. destruct Ho as [Hs Hf].
      apply nearbyFilter_true in Hf. destruct Hf as [Hv Hact].
      repeat split; try assumption. apply in_or_app. now right.
Qed.

(** Concatenating visits that each add new documents adds new documents. *)
Lemma concatVisits_Discovered {A} (visit : list string -> A -> Visit) acts :
  (forall v x found v',
     visit v x = Ok (found, v') -> Discovered store acts v found v') ->
  forall items v found v',
    concatVisits visit v items = Ok (found, v') ->
    Discovered store acts v found v'.
Proof.
  intros Hvisit. induction items as [|x rest IH]; simpl; intros v found v' H.
  - inversion H; subst. apply Discovered_nil.
  - apply bind_Ok in H. destruct H as [[f1 v1] [H1 H]].
    apply bind_Ok in H. destruct H as [[f2 v2] [H2 H]].
    inversion H; subst. eapply Discovered_app; eauto.
Qed.

(** Visiting, one after the other, documents that are already marked
    visited: each visit returns its document followed by new ones. *)
Lemma concatVisits_objects (visit : list string -> MapObject -> Visit) acts :
  (forall v o found v',
     visit v o = Ok (found, v') ->
     exists rest, found = o :: rest /\ Discovered store acts v rest v') ->
  forall objects v found v',
    (forall o, In o objects -> In o store /\ In (_key o) v /\
               ANY_IN_activities (activities o) acts = true) ->
    concatVisits visit v objects = Ok (found, v') ->
    incl v v' /\
    (NoDup (keys store) -> NoDup (keys objects) -> NoDup (keys found)) /\
    (forall o, In o found ->
       In o store /\ In (_key o) v' /\
       ANY_IN_activities (activities o) acts = true /\
       (In (_key o) (keys objects) \/ ~ In (_key o) v)).
Proof.
  intros Hvisit. induction objects as [|x rest IH]; simpl; intros v found v' Hpre H.
  - inversion H; subst. split; [apply incl_refl|]. split; [intros; constructor|].
    intros o [].
  - apply bind_Ok in H. destruct H as [[f1 v1] [H1 H]].
    apply bind_Ok in H. destruct H as [[f2 v2] [H2 H]].
    inversion H; subst; clear H.
    destruct (Hvisit _ _ _ _ H1) as [news [-> (I1 & N1 & E1)]].
    assert (Hpre' : forall o, In o rest -> In o store /\ In (_key o) v1 /\
                       ANY_IN_activities (activities o) acts = true).
    { intros o Ho. destruct (Hpre o (or_intror Ho)) as (? & ? & ?).
      repeat split; auto. }
    destruct (IH _ _ _ Hpre' H2) as (I2 & N2 & E2).
    destruct (Hpre x (or_introl eq_refl)) as (Hxs & Hxv & Hxa).
    split; [eapply incl_tran; eassumption|]. split.
    + intros Hs Hd. inversion Hd as [|? ? Hxn Hdr]; subst.
      change (NoDup (keys ((x :: news) ++ f2))).
      unfold keys. rewrite map_app. apply NoDup_app.
      * simpl. constructor; [|now apply N1].
        intro Hin. apply in_map_iff in Hin. destruct Hin as [o [Hk Ho]].
        destruct (E1 o Ho) as (_ & Hn & _). apply Hn. now rewrite Hk.
      * now apply N2.
      * intros k Hk1 Hk2. apply in_map_iff in Hk2. destruct Hk2 as [o2 [Hk Ho2]].
        destruct (E2 o2 Ho2) as (_ & _ & _ & Hcase). rewrite Hk in Hcase.
        simpl in Hk1. destruct Hk1 as [Hk1|Hk1].
        -- subst k. destruct Hcase as [Hc|Hc]; [now apply Hxn|].
           apply Hc. now apply I1.
        -- apply in_map_iff in Hk1. destruct Hk1 as [o1 [Hk1 Ho1]].
           destruct (E1 o1 Ho1) as (_ & Hn1 & Hi1 & _). rewrite Hk1 in Hn1, Hi1.
           destruct Hcase as [Hc|Hc]; [|now apply Hc].
           apply Hn1. apply in_map_iff in Hc. destruct Hc as [o3 [Hk3 Ho3]].
           destruct (Hpre o3 (or_intror Ho3)) as (_ & Hv3 & _). now rewrite <- Hk3.
    + intros o Ho. simpl in Ho. destruct Ho as [<-|Ho].
      * split; [assumption|]. split; [now apply I2, I1|].
        split; [assumption|]. left. now left.
      * apply in_app_or in Ho. destruct Ho as [Ho|Ho].
        -- destruct (E1 o Ho) as (? & ? & ? & ?).
           split; [assumption|]. split; [now apply I2|].
           split; [assumption|]. now right.
        -- destruct (E2 o Ho) as (? & ? & ? & [Hc|Hc]);
             (split; [assumption|]; split; [assumption|]; split; [assumption|]).
           ++ left. now right.
           ++ right. intro Hv. apply Hc. now apply I1.
Qed.

Lemma objectContextOf_incl context o :
  incl (ctx_activities (objectContextOf context o)) (ctx_activities context).
Proof. intros a Ha. simpl in Ha. apply filter_In in Ha. tauto. Qed.

Lemma visitPolygon_Discovered
    (visit : VisitContext -> list string -> MapObject -> Visit) context :
  (forall v o found v',
     visit context v o = Ok (found, v') ->
     exists rest, found = o :: rest /\
                  Discovered store (ctx_activities context) v rest v') ->
  forall v geom found v',
    visitPolygon store visit context v geom = Ok (found, v') ->
    Discovered store (ctx_activities context) v found v'.
Proof.
  intros Hvisit v geom found v' H. unfold visitPolygon in H.
  apply bind_Ok in H. destruct H as [[objects v1] [Hq H]].
  apply findNearbyObjects_Discovered in Hq.
  destruct (searchPolygon context).
  - inversion H; subst. assumption.
  - destruct Hq as (I1 & N1 & E1).
    eapply concatVisits_objects in H; [|exact Hvisit|].
    + destruct H as (I2 & N2 & E2). split; [|split].
      * eapply incl_tran; eassumption.
      * intro Hs. apply N2; [assumption | now apply N1].
      * intros o Ho. destruct (E2 o Ho) as (Hs & Hv' & Ha & Hcase).
        repeat (split; [assumption|]). split; [|split; assumption].
        destruct Hcase as [Hc|Hc].
        -- apply in_map_iff in Hc. destruct Hc as [o' [Hk Ho']].
           destruct (E1 o' Ho') as (_ & Hn & _). now rewrite <- Hk.
        -- intro Hv. apply Hc. now apply I1.
    + intros o Ho. destruct (E1 o Ho) as (? & ? & ? & ?). repeat split; assumption.
Qed.

(** A visit returns the visited document followed by documents of the
    store that it discovered with the narrowed activities. *)
Lemma visitObject_narrowed fuel : forall context v o found v',
  visitObject fuel store context v o = Ok (found, v') ->
  exists rest, found = o :: rest /\
    Discovered store (ctx_activities (objectContextOf context o)) v rest v'.
Proof.
  induction fuel as [|fuel IH]; intros context v o found v' H; [discriminate|].
  assert (IH' : forall c w x f w', visitObject fuel store c w x = Ok (f, w') ->
            exists rest, f = x :: rest /\ Discovered store (ctx_activities c) w rest w').
  { intros c w x f w' Hv. destruct (IH _ _ _ _ _ Hv) as [rest [-> Hd]].
    exists rest. split; [reflexivity|].
    eapply Discovered_weaken; [apply objectContextOf_incl | exact Hd]. }
  simpl in H.
  destruct (match searchPolygon context with
            | Some p => Some p
            | None => bufferGeometry (geometry o) maxDistanceInKilometers
            end) as [area|].
  2:{ inversion H; subst. exists []. split; [reflexivity | apply Discovered_nil]. }
  destruct (geometry_type area); try discriminate.
  - apply bind_Ok in H. destruct H as [[news v1] [Hp H]]. inversion H; subst.
    exists news. split; [reflexivity|].
    eapply visitPolygon_Discovered; [|exact Hp].
    intros; now apply IH'.
  - apply bind_Ok in H. destruct H as [[news v1] [Hp H]]. inversion H; subst.
    exists news. split; [reflexivity|].
    eapply concatVisits_Discovered; [|exact Hp].
    intros w poly f w' Hv. eapply visitPolygon_Discovered; [|exact Hv].
    intros; now apply IH'.
Qed.

Lemma visitObject_spec fuel context v o found v' :
  visitObject fuel store context v o = Ok (found, v') ->
  exists rest, found = o :: rest /\
               Discovered store (ctx_activities context) v rest v'.
Proof.
  intro H. destruct (visitObject_narrowed _ _ _ _ _ _ H) as [rest [-> Hd]].
  exists rest. split; [reflexivity|].
  eapply Discovered_weaken; [apply objectContextOf_incl | exact Hd].
Qed.

(** *** The fuel of [traverse] suffices *)

Lemma filter_length_le {A} (p q : A -> bool) l :
  (forall x, q x = true -> p x = true) ->
  List.length (filter q l) <= List.length (filter p l).
Proof.
  intro Hpq. induction l as [|x l IH]; simpl; [lia|].
  destruct (q x) eqn:Hq.
  - rewrite (Hpq x Hq). simpl. lia.
  - destruct (p x); simpl; lia.
Qed.

Lemma filter_length_lt {A} (p q : A -> bool) l x :
  (forall y, q y = true -> p y = true) ->
  In x l -> p x = true -> q x = false ->
  List.length (filter q l) < List.length (filter p l).
Proof.
  intros Hpq. induction l as [|y l IH]; simpl; intros Hin Hp Hq; [contradiction|].
  destruct Hin as [->|Hin].
  - rewrite Hp, Hq. simpl. pose proof (filter_length_le p q l Hpq). lia.
  - specialize (IH Hin Hp Hq). destruct (q y) eqn:Hqy.
    + rewrite (Hpq y Hqy). simpl. lia.
    + destruct (p y); simpl; lia.
Qed.

Lemma unvisited_incl v v' : incl v v' -> unvisited store v' <= unvisited store v.
Proof.
  intro Hi. unfold unvisited. apply filter_length_le. intros o Ho.
  apply negb_true_iff in Ho. apply negb_true_iff.
  apply str_in_false in Ho. apply str_in_false. intro H. apply Ho. now apply Hi.
Qed.

Lemma unvisited_lt v v' o :
  incl v v' -> In o store -> ~ In (_key o) v -> In (_key o) v' ->
  unvisited store v' < unvisited store v.
Proof.
  intros Hi Hs Hn Hin. unfold unvisited. apply filter_length_lt with (x := o).
  - intros y Hy. apply negb_true_iff in Hy. apply negb_true_iff.
    apply str_in_false in Hy. apply str_in_false. intro H. apply Hy. now apply Hi.
  - assumption.
  - now apply negb_true_iff, str_in_false.
  - apply negb_false_iff. now apply str_in_In.
Qed.

Lemma findNearbyObjects_not_Timeout area m context v :
  findNearbyObjects store area m context v <> Timeout.
Proof.
  unfold findNearbyObjects. destruct (arangoError area) as [[|]|]; discriminate.
Qed.

Lemma concatVisits_not_Timeout {A} (visit : list string -> A -> Visit)
    (bound : nat) :
  (forall v x, unvisited store v <= bound -> visit v x <> Timeout) ->
  (forall v x found v', visit v x = Ok (found, v') -> incl v v') ->
  forall items v, unvisited store v <= bound ->
    concatVisits visit v items <> Timeout.
Proof.
  intros Hnt Hincl. induction items as [|x rest IH]; simpl; intros v Hb;
    [discriminate|].
  apply bind_not_Timeout; [now apply Hnt|]. intros [f1 v1] H1.
  apply bind_not_Timeout; [|intros [f2 v2] _; discriminate].
  apply IH. apply Hincl in H1. pose proof (unvisited_incl _ _ H1). lia.
Qed.

Lemma visitPolygon_not_Timeout fuel context v geom :
  (forall c w o, unvisited store w < fuel ->
                 visitObject fuel store c w o <> Timeout) ->
  unvisited store v <= fuel ->
  visitPolygon store (visitObject fuel store) context v geom <> Timeout.
Proof.
  intros IH Hb. unfold visitPolygon.
  apply bind_not_Timeout; [apply findNearbyObjects_not_Timeout|].
  intros [objects v1] Hq. destruct (searchPolygon context); [discriminate|].
  apply findNearbyObjects_Discovered in Hq. destruct Hq as (I1 & _ & E1).
  destruct objects as [|o objects]; [discriminate|].
  destruct (E1 o (or_introl eq_refl)) as (Hs & Hn & Hin & _).
  pose proof (unvisited_lt _ _ _ I1 Hs Hn Hin) as Hlt.
  destruct fuel as [|fuel]; [lia|].
  apply concatVisits_not_Timeout with (bound := fuel).
  - intros w x Hw. apply IH. lia.
  - intros w x f w' Hv. apply visitObject_spec in Hv.
    destruct Hv as [rest [_ (Hi & _)]]. exact Hi.
  - lia.
Qed.

Lemma visitObject_not_Timeout fuel : forall context v o,
  unvisited store v < fuel -> visitObject fuel store context v o <> Timeout.
Proof.
  induction fuel as [|fuel IH]; intros context v o Hb; [lia|].
  simpl.
  destruct (match searchPolygon context with
            | Some p => Some p
            | None => bufferGeometry (geometry o) maxDistanceInKilometers
            end) as [area|]; [|discriminate].
  destruct (geometry_type area); try discriminate.
  - apply bind_not_Timeout; [|intros [f w] _; discriminate].
    apply visitPolygon_not_Timeout; [exact IH | lia].
  - apply bind_not_Timeout; [|intros [f w] _; discriminate].
    apply concatVisits_not_Timeout with (bound := fuel).
    + intros w poly Hw. apply visitPolygon_not_Timeout; [exact IH | lia].
    + intros w poly f w' Hv. eapply visitPolygon_Discovered in Hv.
      * destruct Hv as (Hi & _). exact Hi.
      * intros w0 o0 f0 w1 H0. exact (visitObject_spec fuel _ _ _ _ _ H0).
    + lia.
Qed.

Lemma unvisited_le_length v : unvisited store v <= List.length store.
Proof.
  unfold unvisited. induction store as [|o l IH]; simpl; [lia|].
  destruct (negb (str_in (_key o) v)); simpl; lia.
Qed.

Lemma traverse_total context v o : traverse store context v o <> Timeout.
Proof.
  unfold traverse. apply visitObject_not_Timeout.
  pose proof (unvisited_le_length v). lia.
Qed.

End TraversalFacts.


(** ** Activities narrow along a traversal *)

Section Narrowing.
Context {geo : GeoLibrary}.

(** C6: the context of the recursive visits below an object carries the
    intersection of the parent context's activities with the object's
    activities, and every object a traversal returns after its seed has
    an activity in the seed activity set of the traversal (indeed one that
    the seed has as well).  The traversal itself always comes to an end. *)
Theorem traversal_narrows_activities
    (store : Store) (context : VisitContext) (visited : list string)
    (seed : MapObject) :
  traverse store context visited seed <> Timeout /\
  (forall a, In a (ctx_activities (objectContextOf context seed)) <->
             In a (ctx_activities context) /\ In a (activities seed)) /\
  forall fuel found visited',
    visitObject fuel store context visited seed = Ok (found, visited') ->
    exists rest, found = seed :: rest /\
      forall o, In o rest ->
        exists a, In a (activities o) /\ In a (ctx_activities context) /\
                  In a (activities seed).
Proof.
  split; [apply traverse_total|]. split.
  - intro a. simpl. rewrite filter_In. now rewrite includes_In.
  - intros fuel found visited' H.
    destruct (visitObject_narrowed _ _ _ _ _ _ _ H) as [rest [-> (_ & _ & E)]].
    exists rest. split; [reflexivity|]. intros o Ho.
    destruct (E o Ho) as (_ & _ & _ & Ha).
    apply ANY_IN_activities_spec in Ha. destruct Ha as [a [Ha1 Ha2]].
    simpl in Ha2. apply filter_In in Ha2. destruct Ha2 as [Ha2 Ha3].
    apply includes_In in Ha3. exists a. tauto.
Qed.

(** C10: a visit whose seed is already marked visited returns no key
    twice: what follows the seed was not in [alreadyVisited] before the
    visit and is in it afterwards.  The traversal always comes to an
    end. *)
Theorem traversal_members_distinct
    (store : Store) (context : VisitContext) (visited : list string)
    (seed : MapObject) :
  NoDup (keys store) ->
  In (_key seed) visited ->
  traverse store context visited seed <> Timeout /\
  forall fuel found visited',
    visitObject fuel store context visited seed = Ok (found, visited') ->
    NoDup (keys found) /\
    forall k, In k (keys (tl found)) -> ~ In k visited /\ In k visited'.
Proof.
  intros Hs Hseed. split; [apply traverse_total|].
  intros fuel found visited' H.
  destruct (visitObject_spec _ _ _ _ _ _ _ H) as [rest [-> (_ & N & E)]].
  assert (Hnew : forall k, In k (keys rest) -> ~ In k visited /\ In k visited').
  { intros k Hk. apply in_map_iff in Hk. destruct Hk as [o [<- Ho]].
    destruct (E o Ho) as (_ & ? & ? & _). now split. }
  split; [|exact Hnew].
  simpl. constructor; [|now apply N].
  intro Hin. destruct (Hnew _ Hin) as [Hn _]. now apply Hn.
Qed.

End Narrowing.

Lemma traversal_narrows_activities_witness :
  exists rest, chainFound = chainSeed :: rest /\
    forall o, In o rest ->
      exists a, In a (activities o) /\ In a (ctx_activities chainContext) /\
                In a (activities chainSeed).
Proof.
  refine (proj2 (proj2 (traversal_narrows_activities
                          chainStore chainContext ["A"] chainSeed))
            5 chainFound chainVisited _).
  reflexivity.
Defined.

Lemma NoDup_chainStore : NoDup (keys chainStore).
Proof.
  simpl. repeat constructor; simpl; intuition discriminate.
Qed.

Lemma traversal_members_distinct_witness : NoDup (keys chainFound).
Proof.
  refine (proj1 (proj2 (traversal_members_distinct
                          chainStore chainContext ["A"] chainSeed
                          NoDup_chainStore _)
                   5 chainFound chainVisited _)).
  - simpl. left. reflexivity.
  - reflexivity.
Defined.

(** ** The polygon pass *)


Section PolygonPass.
Context {geo : GeoLibrary}.





End PolygonPass.


(** C2 as stated fails: the polygon pass over [polygonStore] keeps the
    ski area [A], and the Skimap.org ski area [B] inside its polygon gains
    the id of [A]. *)
Lemma polygonPass_marks_a_ski_area :
  clusterSkiArea polygonPass polygonArea polygonAreaProps polygonStore
  = Ok polygonPassResult /\
  exists before after,
    document "B" polygonStore = Some before /\
    document "B" polygonPassResult = Some after /\
    type after = SkiArea /\ _key after <> "A" /\
    ~ In "A" (skiAreas before) /\ In "A" (skiAreas after).
Proof.
  split; [reflexivity|].
  exists (skiAreaFeature SKIMAP_ORG "B" (pointAt 500) [Downhill]).
  exists (marked "A" true (skiAreaFeature SKIMAP_ORG "B" (pointAt 500) [Downhill])).
  split; [reflexivity|]. split; [reflexivity|]. split; [reflexivity|].
  split; [discriminate|].
  split; [simpl; intuition discriminate | simpl; right; left; reflexivity].
Defined.

(** ** Generated ski areas *)

Section Generation.
Context {geo : GeoLibrary}.

Lemma allSkiAreaActivities_In a :
  In a allSkiAreaActivities <-> a = Downhill \/ a = Nordic.
Proof. unfold allSkiAreaActivities. simpl. intuition congruence. Qed.

Lemma not_Downhill_iff a : negb (Activity_eqb a Downhill) = true <-> a <> Downhill.
Proof.
  rewrite negb_true_iff. split.
  - intros H E. subst. discriminate.
  - intro H. destruct (Activity_eqb a Downhill) eqn:E; [|reflexivity].
    apply Activity_eqb_eq in E. contradiction.
Qed.

Lemma hasAnotherActivity_spec (o : MapObject) :
  hasAnotherActivity o = true <->
  exists a, In a (activities o) /\ a <> Downhill /\ In a allSkiAreaActivities.
Proof.
  unfold hasAnotherActivity. rewrite existsb_exists.
  split; intros [a [Ha H]]; exists a.
  - apply andb_true_iff in H. destruct H as [H1 H2].
    apply not_Downhill_iff in H1. apply includes_In in H2. tauto.
  - split; [assumption|]. apply andb_true_iff. destruct H as [H1 H2].
    split; [now apply not_Downhill_iff | now apply includes_In].
Qed.

Lemma no_lift_spec (found : list MapObject) :
  existsb (is_type Lift) found = false <-> forall m, In m found -> type m <> Lift.
Proof.
  split.
  - intros H m Hm E. assert (Hex : existsb (is_type Lift) found = true).
    { apply existsb_exists. exists m. split; [assumption|].
      now apply MapObjectType_eqb_eq. }
    rewrite Hex in H. discriminate.
  - intro H. destruct (existsb _ found) eqn:E; [|reflexivity].
    apply existsb_exists in E. destruct E as [m [Hm Ht]].
    apply MapObjectType_eqb_eq in Ht. exfalso. now apply (H m).
Qed.

(** The lift check of [generateSkiAreaForRun] *)
Lemma downhillNeedsLift_spec acts0 (found : list MapObject) acts members :
  downhillNeedsLift acts0 found = (acts, members) ->
  incl acts acts0 /\
  (In Downhill acts -> exists m, In m members /\ type m = Lift) /\
  (In Downhill acts0 -> (forall m, In m found -> type m <> Lift) ->
   acts = filter (fun a => negb (Activity_eqb a Downhill)) acts0 /\
   members = filter hasAnotherActivity found /\
   ~ In Downhill acts) /\
  ((~ In Downhill acts0 \/ exists m, In m found /\ type m = Lift) ->
   acts = acts0 /\ members = found).
Proof.
  unfold downhillNeedsLift.
  destruct (includes acts0 Downhill) eqn:Ei; simpl.
  - apply includes_In in Ei.
    destruct (existsb (is_type Lift) found) eqn:El; simpl;
      intro H; inversion H; subst; clear H.
    + apply existsb_exists in El. destruct El as [m [Hm Ht]].
      apply MapObjectType_eqb_eq in Ht.
      split; [apply incl_refl|]. split; [intros _; now exists m|].
      split; [|tauto].
      intros _ Hno. exfalso. now apply (Hno m).
    + pose proof (proj1 (no_lift_spec found) El) as Hno.
      split; [intros a Ha; apply filter_In in Ha; tauto|].
      split.
      { intro Hd. apply filter_In in Hd. destruct Hd as [_ Hd].
        apply not_Downhill_iff in Hd. contradiction. }
      split.
      { intros _ _. repeat split. intro Hd. apply filter_In in Hd.
        destruct Hd as [_ Hd]. apply not_Downhill_iff in Hd. contradiction. }
      intros [Hn | [m [Hm Ht]]]; [contradiction|]. exfalso. now apply (Hno m).
  - intro H; inversion H; subst; clear H.
    assert (Hn : ~ In Downhill acts).
    { intro Hd. apply includes_In in Hd. rewrite Hd in Ei. discriminate. }
    split; [apply incl_refl|]. split; [intro; contradiction|].
    split; [intro; contradiction | tauto].
Qed.

Lemma length_eqb_0 {A} (l : list A) : (List.length l =? 0) = true <-> l = [].
Proof. destruct l; simpl; split; intro H; try reflexivity; discriminate. Qed.

Lemma collection_update_Ok k f (store store' : Store) :
  collection_update k f store = Ok store' ->
  store' = map (fun o => if String.eqb (_key o) k then f o else o) store.
Proof.
  unfold collection_update. destruct (has_key k store); intro H;
    inversion H; reflexivity.
Qed.

Lemma collection_save_Ok doc (store store' : Store) :
  collection_save doc store = Ok store' -> store' = store ++ [doc].
Proof.
  unfold collection_save. destruct (has_key (_key doc) store); intro H;
    inversion H; reflexivity.
Qed.

Lemma createGeneratedSkiArea_Ok id' acts members (store store' : Store) :
  createGeneratedSkiArea id' acts members store = Ok store' ->
  exists geom, centroid (map geometry members) = Some geom /\
    store' = markSkiArea id' false members (store ++ [draftSkiArea id' acts geom]).
Proof.
  unfold createGeneratedSkiArea.
  destruct (centroid (map geometry members)) as [geom|]; [|discriminate].
  intro H. apply bind_Ok in H. destruct H as [store1 [Hs H]].
  apply collection_save_Ok in Hs. inversion H; subst.
  exists geom. split; reflexivity.
Qed.

(** The two ways in which [generateSkiAreaForRun] returns normally *)
Lemma generateSkiAreaForRun_cases
    (newSkiAreaID : string) (unassignedRun : MapObject) (store store' : Store) :
  generateSkiAreaForRun newSkiAreaID unassignedRun store = Ok store' ->
  exists found visited' acts members,
    traverse store
      {| ctx_id := newSkiAreaID;
         ctx_activities :=
           filter (includes allSkiAreaActivities) (activities unassignedRun);
         excludeObjectsAlreadyInSkiAreaPolygon := false;
         searchPolygon := None |}
      [_key unassignedRun] unassignedRun = Ok (found, visited') /\
    downhillNeedsLift
      (filter (includes allSkiAreaActivities) (activities unassignedRun)) found
    = (acts, members) /\
    (((acts = [] \/ members = []) /\
      store' = map (fun o => if String.eqb (_key o) (_key unassignedRun)
                             then notBasis o else o) store) \/
     (acts <> [] /\ members <> [] /\
      exists geom, centroid (map geometry members) = Some geom /\
        store' = markSkiArea newSkiAreaID false members
                   (store ++ [draftSkiArea newSkiAreaID acts geom]))).
Proof.
  unfold generateSkiAreaForRun. intro H.
  apply bind_Ok in H. destruct H as [[found visited'] [Ht H]].
  destruct (downhillNeedsLift _ found) as [acts members] eqn:Ed.
  exists found, visited', acts, members.
  split; [exact Ht|]. split; [exact Ed|].
  destruct ((List.length acts =? 0) || (List.length members =? 0)) eqn:Eempty.
  - left. apply collection_update_Ok in H. split; [|exact H].
    apply orb_true_iff in Eempty.
    destruct Eempty as [E|E]; apply length_eqb_0 in E; tauto.
  - right. apply orb_false_iff in Eempty. destruct Eempty as [Ea Em].
    split; [intro E; apply length_eqb_0 in E; congruence|].
    split; [intro E; apply length_eqb_0 in E; congruence|].
    now apply createGeneratedSkiArea_Ok.
Qed.

Lemma markOne_fields id' b members (o : MapObject) :
  let o' := markOne id' b members o in
  _key o' = _key o /\ id o' = id o /\ type o' = type o /\
  geometry o' = geometry o /\ isPolygon o' = isPolygon o /\
  source o' = source o /\ properties o' = properties o /\
  activities o' = activities o.
Proof.
  unfold markOne. destruct (str_in (_key o) (keys members)); simpl; tauto.
Qed.

(** C4, as the code has it: the record of a generated ski area is saved
    with [generated = true], the OpenStreetMap source, the centroid of the
    member geometries as geometry and [isPolygon = true]; augmentation
    then stores it with [isPolygon = false] and, when lifts or runs refer
    to it, with their centroid as geometry. *)
Theorem generated_record_fields
    (id' : string) (acts : list Activity) (members : list MapObject)
    (store store' : Store) :
  createGeneratedSkiArea id' acts members store = Ok store' ->
  exists geom record,
    centroid (map geometry members) = Some geom /\
    In record store' /\ _key record = id' /\ id record = id' /\
    (exists p, properties record = Some p /\ p_generated p = true) /\
    source record = Some OPENSTREETMAP /\
    isPolygon record = true /\
    geometry record = geom /\
    forall skiAreaStatistics liftsAndRuns geocoder st st',
      liftsAndRuns <> [] ->
      augmentSkiAreaBasedOnAssignedLiftsAndRuns skiAreaStatistics
        record liftsAndRuns geocoder st = Ok st' ->
      forall o, In o st' -> _key o = id' ->
        isPolygon o = false /\
        centroid (map geometry liftsAndRuns) = Some (geometry o) /\
        source o = Some OPENSTREETMAP /\
        exists p, properties o = Some p /\ p_generated p = true.
Proof.
  intro H. apply createGeneratedSkiArea_Ok in H. destruct H as [geom [Hc ->]].
  exists geom, (markOne id' false members (draftSkiArea id' acts geom)).
  pose proof (markOne_fields id' false members (draftSkiArea id' acts geom)) as F.
  simpl in F. destruct F as (Fk & Fi & Ft & Fg & Fp & Fs & Fprops & Fa).
  split; [exact Hc|]. split.
  { unfold markSkiArea. rewrite map_app. apply in_or_app. right. now left. }
  split; [exact Fk|]. split; [exact Fi|].
  split; [rewrite Fprops; eexists; split; reflexivity|].
  split; [exact Fs|]. split; [exact Fp|]. split; [exact Fg|].
  intros stats liftsAndRuns geocoder st st' Hne Haug o Ho Hk.
  set (record := markOne id' false members (draftSkiArea id' acts geom)) in *.
  unfold augmentSkiAreaBasedOnAssignedLiftsAndRuns in Haug.
  apply bind_Ok in Haug. destruct Haug as [props [Hprops Haug]].
  unfold propertiesOf in Hprops. rewrite Fprops in Hprops.
  inversion Hprops; subst props; clear Hprops.
  assert (Hlen : (List.length liftsAndRuns =? 0) = false).
  { destruct liftsAndRuns; [contradiction | reflexivity]. }
  assert (Hpos : (0 <? List.length liftsAndRuns) = true).
  { destruct liftsAndRuns; [contradiction | reflexivity]. }
  rewrite Hlen, Hpos in Haug. rewrite andb_false_l in Haug.
  apply bind_Ok in Haug. destruct Haug as [newGeometry [Hg Haug]].
  unfold centroidGeometry in Hg.
  destruct (centroid (map geometry liftsAndRuns)) as [g|] eqn:Ec;
    inversion Hg; subst newGeometry; clear Hg.
  apply bind_Ok in Haug. destruct Haug as [loc [_ Hupd]].
  apply collection_update_Ok in Hupd. subst st'.
  apply in_map_iff in Ho. destruct Ho as [o0 [Ho0 _]]. rewrite Fi in Ho0.
  destruct (String.eqb (_key o0) id') eqn:E.
  - subst o. simpl. rewrite Fs. split; [reflexivity|]. split; [reflexivity|].
    split; [reflexivity|]. eexists. split; reflexivity.
  - subst o. rewrite Hk in E. rewrite String.eqb_refl in E. discriminate.
Qed.

(** *** The loop over the unassigned runs *)




Lemma markOne_basis id' b members (o : MapObject) :
  isBasisForNewSkiArea (markOne id' b members o) = true ->
  isBasisForNewSkiArea o = true.
Proof.
  unfold markOne. destruct (str_in (_key o) (keys members)); simpl;
    [discriminate | tauto].
Qed.


(** An iteration that returns normally has cleared the flag of the run
    itself or has marked a member list in which the run occurs. *)
Lemma generateSkiAreaForRun_seed newSkiAreaID run (store store' : Store) :
  generateSkiAreaForRun newSkiAreaID run store = Ok store' ->
  store' = map (fun o => if String.eqb (_key o) (_key run)
                         then notBasis o else o) store \/
  exists acts members geom,
    In run members /\
    store' = markSkiArea newSkiAreaID false members
               (store ++ [draftSkiArea newSkiAreaID acts geom]).
Proof.
  intro H.
  destruct (generateSkiAreaForRun_cases _ _ _ _ H)
    as (found & visited' & acts & members & Ht & Ed & Hcases).
  destruct Hcases as [[_ ->] | (Hne & _ & geom & _ & ->)]; [now left|].
  right. exists acts, members, geom. split; [|reflexivity].
  unfold traverse in Ht. apply visitObject_spec in Ht.
  destruct Ht as [rest [-> _]]. unfold downhillNeedsLift in Ed.
  destruct (includes _ Downhill && negb (existsb (is_type Lift) (run :: rest)));
    injection Ed as Ea Em; subst members; [|now left].
  assert (Hrun : hasAnotherActivity run = true).
  { apply hasAnotherActivity_spec.
    destruct acts as [|a0 acts']; [contradiction|].
    assert (Ha0 : In a0 (a0 :: acts')) by now left.
    rewrite <- Ea in Ha0. apply filter_In in Ha0. destruct Ha0 as [Ha0 Hnd].
    apply not_Downhill_iff in Hnd. apply filter_In in Ha0.
    destruct Ha0 as [Hr Hall]. apply includes_In in Hall.
    exists a0. tauto. }
  simpl. rewrite Hrun. now left.
Qed.



End Generation.


(** ** The loop over the unassigned runs *)

Section UnassignedRuns.
Context {geo : GeoLibrary}.
Variable uuid : nat -> string.

Lemma generate_step_Ok fuel drawn (store store1 : Store) run :
  nextUnassignedRun store = Ok (Some run) ->
  generateSkiAreaForRun (uuid drawn) run store = Ok store1 ->
  generateSkiAreasForUnassignedObjects uuid (S fuel) drawn store =
  generateSkiAreasForUnassignedObjects uuid fuel (S drawn) store1.
Proof. intros Hn Hg. simpl. rewrite Hn, Hg. reflexivity. Qed.

Lemma generate_step_Throw fuel drawn (store : Store) run e :
  nextUnassignedRun store = Ok (Some run) ->
  generateSkiAreaForRun (uuid drawn) run store = Throw e ->
  generateSkiAreasForUnassignedObjects uuid (S fuel) drawn store =
  (fst (generateSkiAreasForUnassignedObjects uuid fuel (S drawn) store),
   e :: snd (generateSkiAreasForUnassignedObjects uuid fuel (S drawn) store)).
Proof.
  intros Hn Hg. simpl. rewrite Hn, Hg.
  destruct (generateSkiAreasForUnassignedObjects uuid fuel (S drawn) store).
  reflexivity.
Qed.

End UnassignedRuns.

Lemma generated_record_fields_witness :
  exists geom record,
    stretchCentroid (map geometry [nordicRun]) = Some geom /\
    In record nordicGenerated /\ isPolygon record = true /\
    geometry record = geom.
Proof.
  destruct (generated_record_fields "g" [Nordic] [nordicRun] nordicStore
              nordicGenerated)
    as (geom & record & Hc & Hin & _ & _ & _ & _ & Hp & Hg & _).
  - reflexivity.
  - exists geom, record.
    split; [exact Hc|]. split; [exact Hin|]. split; [exact Hp | exact Hg].
Defined.

(** C4 as stated fails: the ski area generated for the one nordic run of
    [nordicStore] is a record with [generated = true] that has
    [isPolygon = true] while its geometry is a point. *)
Lemma generated_ski_area_is_saved_as_polygon :
  generateSkiAreasForUnassignedObjects lineUuid 2 0 nordicStore
  = (Ok nordicGenerated, []) /\
  exists record p,
    document "g" nordicGenerated = Some record /\
    properties record = Some p /\ p_generated p = true /\
    isPolygon record = true /\ st_type (geometry record) = Point.
Proof.
  split; [reflexivity|].
  exists (@draftSkiArea lineGeo "g" [Nordic] (pointAt 0)). eexists.
  split; [reflexivity|].
  split; [reflexivity|]. split; [reflexivity|]. split; reflexivity.
Defined.

(** ** The pipeline *)

Section Pipeline.
Context {geo : GeoLibrary}.
Variable mergeSkiAreaObjects : list MapObject -> option MapObject.
Variable uuid : nat -> string.
Variable skiAreaStatistics : list MapObject -> Statistics.

Lemma filter_none {A} (f : A -> bool) l :
  (forall x, In x l -> f x = false) -> filter f l = [].
Proof.
  induction l as [|x l IH]; simpl; intro H; [reflexivity|].
  rewrite (H x (or_introl eq_refl)). apply IH. intros y Hy. apply H. now right.
Qed.

Lemma getSkiAreas_no_polygons (src : option SourceType) (store : Store) :
  (forall o, In o store -> type o = SkiArea -> isPolygon o = false) ->
  getSkiAreas {| gs_onlySource := src; gs_onlyPolygons := true;
                 gs_onlyInPolygon := None |} store = Ok [].
Proof.
  intro H. unfold getSkiAreas. simpl. f_equal. apply filter_none.
  intros o Ho. unfold skiAreasFilter. simpl.
  destruct (is_type SkiArea o) eqn:Et; [|reflexivity].
  apply MapObjectType_eqb_eq in Et. rewrite (H o Ho Et).
  apply andb_false_r.
Qed.

Lemma collection_remove_Ok k (store store' : Store) :
  collection_remove k store = Ok store' ->
  store' = filter (fun o => negb (String.eqb (_key o) k)) store.
Proof.
  unfold collection_remove. destruct (has_key k store); intro H;
    inversion H; reflexivity.
Qed.

(** What augmentation does to the collection for one ski area *)
Lemma augment_one_Ok skiArea members geocoder (store store' : Store) :
  augmentSkiAreaBasedOnAssignedLiftsAndRuns skiAreaStatistics
    skiArea members geocoder store = Ok store' ->
  store' = filter (fun o => negb (String.eqb (_key o) (_key skiArea))) store \/
  exists doc, isPolygon doc = false /\ type doc = type skiArea /\
    store' = map (fun o => if String.eqb (_key o) (id skiArea)
                           then withKey (_key o) doc else o) store.
Proof.
  unfold augmentSkiAreaBasedOnAssignedLiftsAndRuns. intro H.
  apply bind_Ok in H. destruct H as [props [_ H]].
  destruct ((List.length members =? 0) && _).
  - left. now apply collection_remove_Ok.
  - right. apply bind_Ok in H. destruct H as [newGeometry [_ H]].
    apply bind_Ok in H. destruct H as [loc [_ H]].
    apply collection_update_Ok in H.
    exists (augmented skiArea props (skiAreaStatistics members) newGeometry loc).
    split; [reflexivity|]. split; [reflexivity | exact H].
Qed.

Lemma augment_all_no_polygons geocoder : forall snapshot (store store' : Store),
  (forall sa, In sa snapshot -> type sa = SkiArea /\ id sa = _key sa) ->
  (forall o, In o store -> type o = SkiArea ->
             isPolygon o = false \/ In (_key o) (keys snapshot)) ->
  forEachSkiArea
    (fun skiArea st =>
       augmentSkiAreaBasedOnAssignedLiftsAndRuns skiAreaStatistics
         skiArea (getObjects (id skiArea) st) geocoder st)
    snapshot store = Ok store' ->
  forall o, In o store' -> type o = SkiArea -> isPolygon o = false.
Proof.
  induction snapshot as [|sa rest IH]; simpl; intros store store' Hsnap Hinv H.
  - inversion H; subst. intros o Ho Ht.
    destruct (Hinv o Ho Ht) as [Hp|[]]. exact Hp.
  - apply bind_Ok in H. destruct H as [store1 [H1 H]].
    destruct (Hsnap sa (or_introl eq_refl)) as [Hts Hid].
    apply (IH store1 store'); [intros x Hx; apply Hsnap; now right | | exact H].
    intros o Ho Ht. apply augment_one_Ok in H1.
    destruct H1 as [-> | [doc (Hdp & Hdt & ->)]].
    + apply filter_In in Ho. destruct Ho as [Ho Hk].
      apply negb_true_iff in Hk.
      destruct (Hinv o Ho Ht) as [Hp|[Hk'|Hk']]; [now left | | now right].
      rewrite Hk', String.eqb_refl in Hk. discriminate.
    + apply in_map_iff in Ho. destruct Ho as [o0 [Ho0 Hin0]].
      destruct (String.eqb (_key o0) (id sa)) eqn:E.
      * subst o. left. exact Hdp.
      * subst o0. destruct (Hinv o Hin0 Ht) as [Hp|[Hk'|Hk']];
          [now left | | now right].
        rewrite Hid, Hk', String.eqb_refl in E. discriminate.
Qed.

Lemma augmentation_leaves_no_polygon geocoder (store store' : Store) :
  (forall o, In o store -> type o = SkiArea -> id o = _key o) ->
  augmentSkiAreasBasedOnAssignedLiftsAndRuns skiAreaStatistics geocoder store
  = Ok store' ->
  forall o, In o store' -> type o = SkiArea -> isPolygon o = false.
Proof.
  intros Hid H. unfold augmentSkiAreasBasedOnAssignedLiftsAndRuns in H.
  apply bind_Ok in H. destruct H as [snapshot [Hs H]].
  unfold getSkiAreas in Hs. simpl in Hs. inversion Hs; subst snapshot; clear Hs.
  eapply augment_all_no_polygons; [| |exact H].
  - intros sa Hsa. apply filter_In in Hsa. destruct Hsa as [Hin Hf].
    unfold skiAreasFilter in Hf. simpl in Hf.
    rewrite andb_true_r in Hf. rewrite andb_true_r in Hf.
    apply MapObjectType_eqb_eq in Hf. split; [exact Hf | now apply Hid].
  - intros o Ho Ht. right. apply keys_In. apply filter_In. split; [exact Ho|].
    unfold skiAreasFilter. simpl. unfold is_type. rewrite Ht. reflexivity.
Qed.

End Pipeline.

(** * Further properties of the clustering *)

(** ** Marking *)

Section Marking.
Context {geo : GeoLibrary}.

Lemma APPEND_unique_In l v : In v (APPEND_unique l v).
Proof.
  unfold APPEND_unique. destruct (str_in v l) eqn:E.
  - now apply str_in_In.
  - apply in_or_app. right. now left.
Qed.

Lemma APPEND_unique_incl l v : incl l (APPEND_unique l v).
Proof.
  unfold APPEND_unique. destruct (str_in v l); [apply incl_refl|].
  apply incl_appl, incl_refl.
Qed.

Lemma APPEND_unique_NoDup l v : NoDup l -> NoDup (APPEND_unique l v).
Proof.
  intro H. unfold APPEND_unique. destruct (str_in v l) eqn:E; [exact H|].
  apply str_in_false in E. apply NoDup_app; [exact H | repeat constructor; intros [] |].
  intros a Ha [<-|[]]. contradiction.
Qed.

Lemma APPEND_unique_idem l v :
  APPEND_unique (APPEND_unique l v) v = APPEND_unique l v.
Proof.
  unfold APPEND_unique at 1.
  assert (H : str_in v (APPEND_unique l v) = true)
    by (apply str_in_In, APPEND_unique_In).
  now rewrite H.
Qed.

Lemma Kept_refl (o : MapObject) : Kept o o.
Proof. unfold Kept. repeat split; auto. apply incl_refl. Qed.

Lemma Kept_trans (a b c : MapObject) : Kept a b -> Kept b c -> Kept a c.
Proof.
  unfold Kept. intros (K1 & I1 & T1 & G1 & P1 & S1 & N1 & B1)
                      (K2 & I2 & T2 & G2 & P2 & S2 & N2 & B2).
  repeat split; try congruence; auto.
  eapply incl_tran; eassumption.
Qed.

Lemma Kept_marked id' b (o : MapObject) : Kept o (marked id' b o).
Proof.
  unfold Kept. simpl. repeat split; auto.
  - intro H. rewrite H. reflexivity.
  - apply APPEND_unique_incl.
  - apply APPEND_unique_NoDup.
  - discriminate.
Qed.

Lemma Kept_markOne id' b objects (o : MapObject) :
  Kept o (markOne id' b objects o).
Proof.
  unfold markOne. destruct (str_in (_key o) (keys objects));
    [apply Kept_marked | apply Kept_refl].
Qed.

Lemma Evolves_refl (store : Store) : Evolves store store.
Proof. intros o Ho. exists o. split; [assumption | apply Kept_refl]. Qed.

Lemma Evolves_trans (a b c : Store) : Evolves a b -> Evolves b c -> Evolves a c.
Proof.
  intros H1 H2 o'' Ho''. destruct (H2 _ Ho'') as [o' [Ho' K2]].
  destruct (H1 _ Ho') as [o [Ho K1]]. exists o. split; [assumption|].
  eapply Kept_trans; eassumption.
Qed.

Lemma Evolves_map (f : MapObject -> MapObject) (store : Store) :
  (forall o, Kept o (f o)) -> Evolves store (map f store).
Proof.
  intros Hf o' Ho'. apply in_map_iff in Ho'. destruct Ho' as [o [<- Ho]].
  exists o. split; [assumption | apply Hf].
Qed.

Lemma Evolves_filter (f : MapObject -> bool) (store : Store) :
  Evolves store (filter f store).
Proof.
  intros o Ho. apply filter_In in Ho. exists o. split; [tauto | apply Kept_refl].
Qed.

Lemma keys_map_Kept (f : MapObject -> MapObject) (store : Store) :
  (forall o, _key (f o) = _key o) -> keys (map f store) = keys store.
Proof.
  intro Hf. unfold keys. rewrite map_map. apply map_ext. exact Hf.
Qed.

Lemma keys_markSkiArea id' b objects (store : Store) :
  keys (markSkiArea id' b objects store) = keys store.
Proof.
  apply keys_map_Kept. intro o. apply (Kept_markOne id' b objects o).
Qed.

(** X1: marking is idempotent: a second [markSkiArea] with the same id,
    flag and objects changes nothing. *)
Theorem markSkiArea_idempotent id' b (objects : list MapObject) (store : Store) :
  markSkiArea id' b objects (markSkiArea id' b objects store)
  = markSkiArea id' b objects store.
Proof.
  unfold markSkiArea. rewrite map_map. apply map_ext. intro o.
  unfold markOne at 2.
  destruct (str_in (_key o) (keys objects)) eqn:E.
  - unfold markOne. simpl. rewrite E. unfold marked. simpl.
    rewrite APPEND_unique_idem. rewrite <- orb_assoc, orb_diag. reflexivity.
  - unfold markOne. rewrite E. reflexivity.
Qed.

(** X2: [markSkiArea] removes and adds no document and keeps every
    document's key, id, type and geometry; it never clears
    [isInSkiAreaPolygon], never takes a ski area id away, keeps a
    duplicate-free [skiAreas] duplicate-free and flags nothing as basis
    for a new ski area.  The documents among [objects] carry the id and
    are not a basis afterwards. *)
Theorem markSkiArea_keeps id' b (objects : list MapObject) (store : Store) :
  keys (markSkiArea id' b objects store) = keys store /\
  Evolves store (markSkiArea id' b objects store) /\
  forall o', In o' (markSkiArea id' b objects store) ->
    In (_key o') (keys objects) ->
    In id' (skiAreas o') /\ isBasisForNewSkiArea o' = false /\
    (b = true -> isInSkiAreaPolygon o' = true).
Proof.
  split; [apply keys_markSkiArea|]. split.
  - apply Evolves_map. intro o. apply Kept_markOne.
  - intros o' Ho' Hk. unfold markSkiArea in Ho'. apply in_map_iff in Ho'.
    destruct Ho' as [o [<- Ho]]. unfold markOne in *.
    destruct (str_in (_key o) (keys objects)) eqn:E.
    + simpl. split; [apply APPEND_unique_In|]. split; [reflexivity|].
      intros ->. apply orb_true_r.
    + apply str_in_false in E. contradiction.
Qed.

End Marking.

(** ** What the assignment of one ski area does to the collection *)

Section Assignment.
Context {geo : GeoLibrary}.

Lemma keys_remove k (store : Store) :
  keys (filter (fun o => negb (String.eqb (_key o) k)) store)
  = filter (fun k' => negb (String.eqb k' k)) (keys store).
Proof.
  induction store as [|o l IH]; simpl; [reflexivity|].
  destruct (negb (String.eqb (_key o) k)); simpl; now rewrite IH.
Qed.

Lemma Kept_activitiesPatch acts (o : MapObject) : Kept o (activitiesPatch acts o).
Proof. unfold Kept. simpl. repeat split; auto. apply incl_refl. Qed.

Lemma Kept_patch_at k (f : MapObject -> MapObject) (o : MapObject) :
  (forall x, Kept x (f x)) ->
  Kept o (if String.eqb (_key o) k then f o else o).
Proof. intro Hf. destruct (String.eqb _ _); [apply Hf | apply Kept_refl]. Qed.

Lemma Set_add_In (acc : list Activity) x a :
  In a (Set_add (fun y l => includes l y) acc x) <-> In a acc \/ a = x.
Proof.
  unfold Set_add. destruct (includes acc x) eqn:E.
  - apply includes_In in E. split; [tauto|]. intros [H| ->]; assumption.
  - rewrite in_app_iff. simpl. intuition.
Qed.

Lemma Set_add_NoDup (acc : list Activity) x :
  NoDup acc -> NoDup (Set_add (fun y l => includes l y) acc x).
Proof.
  intro H. unfold Set_add. destruct (includes acc x) eqn:E; [exact H|].
  assert (Hn : ~ In x acc).
  { intro Hin. apply includes_In in Hin. rewrite Hin in E. discriminate. }
  apply NoDup_app; [exact H | repeat constructor; intros [] |].
  intros a Ha [<-|[]]. contradiction.
Qed.

Lemma Set_of_activities_from (l acc : list Activity) :
  NoDup acc ->
  NoDup (fold_left (Set_add (fun a l' => includes l' a)) l acc) /\
  forall a, In a (fold_left (Set_add (fun a l' => includes l' a)) l acc)
            <-> In a acc \/ In a l.
Proof.
  revert acc. induction l as [|x l IH]; cbn [fold_left In]; intros acc Hn.
  - split; [exact Hn | intro a; tauto].
  - destruct (IH _ (Set_add_NoDup acc x Hn)) as [N E]. split; [exact N|].
    intro a. rewrite E, Set_add_In. intuition.
Qed.

Lemma addSkiAreaActivities_from (acts acc : list Activity) :
  NoDup acc ->
  NoDup (fold_left
           (fun acc' activity =>
              if includes allSkiAreaActivities activity
              then Set_add (fun a l => includes l a) acc' activity
              else acc') acts acc) /\
  forall a,
    In a (fold_left
            (fun acc' activity =>
               if includes allSkiAreaActivities activity
               then Set_add (fun a l => includes l a) acc' activity
               else acc') acts acc)
    <-> In a acc \/ (In a acts /\ In a allSkiAreaActivities).
Proof.
  revert acc. induction acts as [|x acts IH]; cbn [fold_left In]; intros acc Hn.
  - split; [exact Hn | intro a; tauto].
  - destruct (includes allSkiAreaActivities x) eqn:Ex.
    + destruct (IH _ (Set_add_NoDup acc x Hn)) as [N E]. split; [exact N|].
      intro a. rewrite E, Set_add_In. apply includes_In in Ex.
      split; intro H; intuition (subst; auto).
    + destruct (IH _ Hn) as [N E]. split; [exact N|].
      intro a. rewrite E. split; [tauto|].
      intros [H|[[H|H] Ha]]; [tauto | | tauto].
      subst. apply includes_In in Ha. rewrite Ha in Ex. discriminate.
Qed.

Lemma addMemberActivities_from (members : list MapObject) (acc : list Activity) :
  NoDup acc ->
  NoDup (fold_left
           (fun accumulated object =>
              fold_left
                (fun acc' activity =>
                   if includes allSkiAreaActivities activity
                   then Set_add (fun a l => includes l a) acc' activity
                   else acc')
                (activities object) accumulated) members acc) /\
  forall a,
    In a (fold_left
            (fun accumulated object =>
               fold_left
                 (fun acc' activity =>
                    if includes allSkiAreaActivities activity
                    then Set_add (fun a l => includes l a) acc' activity
                    else acc')
                 (activities object) accumulated) members acc)
    <-> In a acc \/
        (In a allSkiAreaActivities /\
         exists m, In m members /\ In a (activities m)).
Proof.
  revert acc. induction members as [|m members IH]; cbn [fold_left In]; intros acc Hn.
  - split; [exact Hn|]. intro a. split; [tauto|].
    intros [H|[_ [m [[] _]]]]. exact H.
  - destruct (addSkiAreaActivities_from (activities m) acc Hn) as [N1 E1].
    destruct (IH _ N1) as [N E]. split; [exact N|].
    intro a. rewrite E, E1. split.
    + intros [[H|[H1 H2]]|[H1 [m' [H2 H3]]]]; auto.
      * right. split; [assumption|]. exists m. auto.
      * right. split; [assumption|]. exists m'. auto.
    + intros [H|[H1 [m' [[<-|H2] H3]]]]; auto.
      right. split; [assumption|]. exists m'. auto.
Qed.

(** X3: the activities written back for a ski area without known
    activities are a duplicate-free list that holds exactly the stored
    activities and the activities among Downhill and Nordic of the member
    lifts and runs; activities of member ski areas do not count. *)
Theorem clusteredActivities_spec (stored : list Activity)
    (memberObjects : list MapObject) :
  NoDup (clusteredActivities stored memberObjects) /\
  forall a,
    In a (clusteredActivities stored memberObjects) <->
    In a stored \/
    (In a allSkiAreaActivities /\
     exists m, In m memberObjects /\ type m <> SkiArea /\ In a (activities m)).
Proof.
  unfold clusteredActivities, Set_of_activities.
  destruct (Set_of_activities_from stored [] (NoDup_nil _)) as [N0 E0].
  destruct (addMemberActivities_from
              (filter (fun object => negb (is_type SkiArea object)) memberObjects)
              _ N0) as [N E].
  split; [exact N|]. intro a. rewrite E, E0. simpl. split.
  - intros [[[]|H]|[H1 [m [H2 H3]]]]; [now left|].
    right. split; [assumption|]. exists m. apply filter_In in H2.
    destruct H2 as [H2 Ht]. split; [assumption|]. split; [|assumption].
    intro Et. apply negb_true_iff in Ht. unfold is_type in Ht.
    rewrite Et in Ht. discriminate.
  - intros [H|[H1 [m [H2 [Ht H3]]]]]; [left; now right|].
    right. split; [assumption|]. exists m. split; [|assumption].
    apply filter_In. split; [assumption|]. apply negb_true_iff.
    unfold is_type. destruct (MapObjectType_eqb (type m) SkiArea) eqn:Em;
      [|reflexivity].
    apply MapObjectType_eqb_eq in Em. contradiction.
Qed.

Lemma assignMembers_keeps options skiArea props known members
    (store store' : Store) :
  assignMembers options skiArea props known members store = Ok store' ->
  Evolves store store' /\
  (keys store' = keys store \/
   keys store' = filter (fun k => negb (String.eqb k (_key skiArea))) (keys store)) /\
  (removeIfNoObjectsFound options = false ->
   removeIfSubstantialNumberOfObjectsInSkiAreaSite options = false ->
   keys store' = keys store).
Proof.
  unfold assignMembers. intro H.
  assert (Hrem : forall st, collection_remove (_key skiArea) store = Ok st ->
            Evolves store st /\
            keys st = filter (fun k => negb (String.eqb k (_key skiArea))) (keys store)).
  { intros st Hst. unfold collection_remove in Hst.
    destruct (has_key _ store); inversion Hst; subst.
    split; [apply Evolves_filter | apply keys_remove]. }
  assert (Hmark : forall st,
            (if known
             then Ok (markSkiArea (p_id props) (onlyInPolygon options) members store)
             else collection_update (_key skiArea)
                    (activitiesPatch (clusteredActivities (p_activities props) members))
                    (markSkiArea (p_id props) (onlyInPolygon options) members store))
            = Ok st ->
            Evolves store st /\ keys st = keys store).
  { intros st Hst. destruct known.
    - inversion Hst; subst. split; [|apply keys_markSkiArea].
      apply Evolves_map. intro o. apply Kept_markOne.
    - unfold collection_update in Hst.
      destruct (has_key _ _); inversion Hst; subst. split.
      + eapply Evolves_trans.
        * apply Evolves_map. intro o. apply (Kept_markOne (p_id props)
            (onlyInPolygon options) members o).
        * apply Evolves_map. intro o. apply Kept_patch_at.
          apply Kept_activitiesPatch.
      + rewrite keys_map_Kept; [apply keys_markSkiArea|].
        intro o. destruct (String.eqb _ _); reflexivity. }
  destruct (removeIfNoObjectsFound options && noObjectsFound members) eqn:E1.
  - destruct (Hrem _ H) as [He Hk]. split; [exact He|]. split; [now right|].
    intros Hf _. rewrite Hf in E1. discriminate.
  - destruct (removeIfSubstantialNumberOfObjectsInSkiAreaSite options
              && substantialNumberInSiteRelation members) eqn:E2.
    + destruct (Hrem _ H) as [He Hk]. split; [exact He|]. split; [now right|].
      intros _ Hf. rewrite Hf in E2. discriminate.
    + destruct (Hmark _ H) as [He Hk]. split; [exact He|]. split; [now left|].
      intros _ _. exact Hk.
Qed.

End Assignment.

(** ** More on the traversal *)

Section TraversalMore.
Context {geo : GeoLibrary}.
Variable store : Store.

Lemma nearbyFilter_Eligible area m context v (o : MapObject) :
  nearbyFilter area m context v o = true -> Eligible context o.
Proof.
  unfold nearbyFilter. intro Hf.
  apply andb_true_iff in Hf. destruct Hf as [Hf _].
  apply andb_true_iff in Hf. destruct Hf as [Hf Hex].
  apply andb_true_iff in Hf. destruct Hf as [Hf _].
  apply andb_true_iff in Hf. destruct Hf as [_ Hid].
  apply negb_true_iff, str_in_false in Hid. split; [exact Hid|].
  intro He. rewrite He in Hex. now apply negb_true_iff in Hex.
Qed.

Lemma findNearbyObjects_Eligible area m context v found v' :
  findNearbyObjects store area m context v = Ok (found, v') ->
  Forall (Eligible context) found.
Proof.
  unfold findNearbyObjects.
  destruct (arangoError area) as [[|]|]; intro H; inversion H; subst.
  - constructor.
  - apply Forall_forall. intros o Ho. apply filter_In in Ho.
    eapply nearbyFilter_Eligible. apply Ho.
Qed.

Lemma concatVisits_Forall {A} (visit : list string -> A -> Visit)
    (P : MapObject -> Prop) :
  (forall v x found v', visit v x = Ok (found, v') -> Forall P found) ->
  forall items v found v',
    concatVisits visit v items = Ok (found, v') -> Forall P found.
Proof.
  intro Hv. induction items as [|x rest IH]; simpl; intros v found v' H.
  - inversion H. constructor.
  - apply bind_Ok in H. destruct H as [[f1 v1] [H1 H]].
    apply bind_Ok in H. destruct H as [[f2 v2] [H2 H]].
    inversion H; subst. apply Forall_app. split; eauto.
Qed.

Lemma concatVisits_objects_Forall (visit : list string -> MapObject -> Visit)
    (P : MapObject -> Prop) :
  (forall v o found v', visit v o = Ok (found, v') ->
     exists rest, found = o :: rest /\ Forall P rest) ->
  forall objects v found v',
    Forall P objects ->
    concatVisits visit v objects = Ok (found, v') ->
    Forall P found /\ incl objects found.
Proof.
  intro Hv. induction objects as [|x rest IH]; simpl; intros v found v' HP H.
  - inversion H. split; [constructor | apply incl_refl].
  - apply bind_Ok in H. destruct H as [[f1 v1] [H1 H]].
    apply bind_Ok in H. destruct H as [[f2 v2] [H2 H]].
    inversion H; subst. inversion HP as [|? ? Hx Hrest]; subst.
    destruct (Hv _ _ _ _ H1) as [news [-> Hn]].
    destruct (IH _ _ _ Hrest H2) as [Hf Hi]. split.
    + apply Forall_app. split; [constructor; assumption | assumption].
    + intros y [<-|Hy]; [now left|]. apply in_or_app. right. now apply Hi.
Qed.

Lemma visitPolygon_Eligible
    (visit : VisitContext -> list string -> MapObject -> Visit) context :
  (forall v o found v', visit context v o = Ok (found, v') ->
     exists rest, found = o :: rest /\ Forall (Eligible context) rest) ->
  forall v geom found v',
    visitPolygon store visit context v geom = Ok (found, v') ->
    Forall (Eligible context) found.
Proof.
  intros Hv v geom found v' H. unfold visitPolygon in H.
  apply bind_Ok in H. destruct H as [[objects v1] [Hq H]].
  apply findNearbyObjects_Eligible in Hq.
  destruct (searchPolygon context).
  - inversion H; subst. exact Hq.
  - eapply concatVisits_objects_Forall in H; [apply H | exact Hv | exact Hq].
Qed.

Lemma visitObject_Eligible fuel : forall context v o found v',
  visitObject fuel store context v o = Ok (found, v') ->
  exists rest, found = o :: rest /\ Forall (Eligible context) rest.
Proof.
  induction fuel as [|fuel IH]; intros context v o found v' H; [discriminate|].
  simpl in H.
  destruct (match searchPolygon context with
            | Some p => Some p
            | None => bufferGeometry (geometry o) maxDistanceInKilometers
            end) as [area|].
  2:{ inversion H; subst. exists []. split; [reflexivity | constructor]. }
  destruct (geometry_type area); try discriminate.
  - apply bind_Ok in H. destruct H as [[news v1] [Hp H]]. inversion H; subst.
    exists news. split; [reflexivity|].
    change (Forall (Eligible (objectContextOf context o)) news).
    eapply visitPolygon_Eligible; [|exact Hp]. intros w0 x0 f0 w1 Hw; exact (IH _ _ _ _ _ Hw).
  - apply bind_Ok in H. destruct H as [[news v1] [Hp H]]. inversion H; subst.
    exists news. split; [reflexivity|].
    change (Forall (Eligible (objectContextOf context o)) news).
    eapply concatVisits_Forall; [|exact Hp].
    intros w poly f w' Hv. eapply visitPolygon_Eligible; [|exact Hv].
    intros w0 x0 f0 w1 Hw; exact (IH _ _ _ _ _ Hw).
Qed.

(** X5: what a traversal returns after its seed are documents of the
    store that did not yet refer to the ski area of the traversal and, in
    a pass that leaves polygon members alone, are not marked
    [isInSkiAreaPolygon]. *)
Theorem traversal_returns_eligible_documents
    (context : VisitContext) (visited : list string) (seed : MapObject)
    (fuel : nat) (found : list MapObject) (visited' : list string) :
  visitObject fuel store context visited seed = Ok (found, visited') ->
  exists rest, found = seed :: rest /\
    forall o, In o rest ->
      In o store /\ ~ In (ctx_id context) (skiAreas o) /\
      (excludeObjectsAlreadyInSkiAreaPolygon context = true ->
       isInSkiAreaPolygon o = false).
Proof.
  intro H. destruct (visitObject_Eligible _ _ _ _ _ _ H) as [rest [-> He]].
  exists rest. split; [reflexivity|]. intros o Ho.
  destruct (visitObject_spec _ _ _ _ _ _ _ H) as [rest' [Er (_ & _ & E)]].
  inversion Er; subst rest'.
  destruct (E o Ho) as (Hs & _). split; [exact Hs|].
  rewrite Forall_forall in He. exact (He o Ho).
Qed.

(** *** What [alreadyVisited] holds after a traversal *)

Lemma findNearbyObjects_visited area m context v found v' :
  findNearbyObjects store area m context v = Ok (found, v') ->
  forall k, In k v' <-> In k v \/ In k (keys found).
Proof.
  unfold findNearbyObjects.
  destruct (arangoError area) as [[|]|]; intro H; inversion H; subst; intro k.
  - simpl. tauto.
  - apply in_app_iff.
Qed.

Lemma concatVisits_visited {A} (visit : list string -> A -> Visit) :
  (forall v x found v', visit v x = Ok (found, v') ->
     forall k, In k v' <-> In k v \/ In k (keys found)) ->
  forall items v found v',
    concatVisits visit v items = Ok (found, v') ->
    forall k, In k v' <-> In k v \/ In k (keys found).
Proof.
  intro Hv. induction items as [|x rest IH]; simpl; intros v found v' H k.
  - inversion H; subst. simpl. tauto.
  - apply bind_Ok in H. destruct H as [[f1 v1] [H1 H]].
    apply bind_Ok in H. destruct H as [[f2 v2] [H2 H]].
    inversion H; subst. rewrite (IH _ _ _ H2 k), (Hv _ _ _ _ H1 k).
    unfold keys. rewrite map_app, in_app_iff. tauto.
Qed.

Lemma concatVisits_objects_visited (visit : list string -> MapObject -> Visit) :
  (forall v o found v', visit v o = Ok (found, v') ->
     exists rest, found = o :: rest /\
       forall k, In k v' <-> In k v \/ In k (keys rest)) ->
  forall objects v found v',
    incl (keys objects) v ->
    concatVisits visit v objects = Ok (found, v') ->
    (forall k, In k v' <-> In k v \/ In k (keys found)) /\
    incl (keys objects) (keys found).
Proof.
  intro Hv. induction objects as [|x rest IH]; simpl; intros v found v' Hi H.
  - inversion H; subst. split; [intro k; simpl; tauto | apply incl_refl].
  - apply bind_Ok in H. destruct H as [[f1 v1] [H1 H]].
    apply bind_Ok in H. destruct H as [[f2 v2] [H2 H]].
    inversion H; subst. destruct (Hv _ _ _ _ H1) as [news [-> E1]].
    assert (Hi' : incl (keys rest) v1).
    { intros k Hk. apply E1. left. apply Hi. now right. }
    destruct (IH _ _ _ Hi' H2) as [E2 I2]. split.
    + intro k. rewrite (E2 k), (E1 k). unfold keys. simpl.
      rewrite map_app, in_app_iff. split; [tauto|].
      intros [Hk|[<-|[Hk|Hk]]]; try tauto.
      left. left. apply Hi. now left.
    + intros k [<-|Hk]; [now left|]. unfold keys. simpl. right.
      rewrite map_app. apply in_or_app. right. now apply I2.
Qed.

Lemma visitPolygon_visited
    (visit : VisitContext -> list string -> MapObject -> Visit) context :
  (forall v o found v', visit context v o = Ok (found, v') ->
     exists rest, found = o :: rest /\
       forall k, In k v' <-> In k v \/ In k (keys rest)) ->
  forall v geom found v',
    visitPolygon store visit context v geom = Ok (found, v') ->
    forall k, In k v' <-> In k v \/ In k (keys found).
Proof.
  intros Hv v geom found v' H. unfold visitPolygon in H.
  apply bind_Ok in H. destruct H as [[objects v1] [Hq H]].
  pose proof (findNearbyObjects_visited _ _ _ _ _ _ Hq) as E1.
  destruct (searchPolygon context).
  - inversion H; subst. exact E1.
  - eapply concatVisits_objects_visited in H; [|exact Hv|].
    + destruct H as [E2 I2]. intro k. rewrite (E2 k), (E1 k).
      split; [|tauto]. intros [[Hk|Hk]|Hk]; auto.
    + intros k Hk. apply E1. now right.
Qed.

Lemma visitObject_visited fuel : forall context v o found v',
  visitObject fuel store context v o = Ok (found, v') ->
  exists rest, found = o :: rest /\
    forall k, In k v' <-> In k v \/ In k (keys rest).
Proof.
  induction fuel as [|fuel IH]; intros context v o found v' H; [discriminate|].
  simpl in H.
  destruct (match searchPolygon context with
            | Some p => Some p
            | None => bufferGeometry (geometry o) maxDistanceInKilometers
            end) as [area|].
  2:{ inversion H; subst. exists []. split; [reflexivity|]. simpl. tauto. }
  destruct (geometry_type area); try discriminate.
  - apply bind_Ok in H. destruct H as [[news v1] [Hp H]]. inversion H; subst.
    exists news. split; [reflexivity|].
    eapply visitPolygon_visited; [|exact Hp]. intros w0 x0 f0 w1 Hw; exact (IH _ _ _ _ _ Hw).
  - apply bind_Ok in H. destruct H as [[news v1] [Hp H]]. inversion H; subst.
    exists news. split; [reflexivity|].
    eapply concatVisits_visited; [|exact Hp].
    intros w poly f w' Hv. eapply visitPolygon_visited; [|exact Hv].
    intros w0 x0 f0 w1 Hw; exact (IH _ _ _ _ _ Hw).
Qed.

(** X6: after a traversal the shared [alreadyVisited] array holds the
    keys it held before and the keys of the documents returned after the
    seed, and no others. *)
Theorem traversal_visited_keys
    (context : VisitContext) (visited : list string) (seed : MapObject)
    (fuel : nat) (found : list MapObject) (visited' : list string) :
  visitObject fuel store context visited seed = Ok (found, visited') ->
  forall k, In k visited' <-> In k visited \/ In k (keys (tl found)).
Proof.
  intro H. destruct (visitObject_visited _ _ _ _ _ _ H) as [rest [-> E]].
  exact E.
Qed.

End TraversalMore.

Lemma traversal_returns_eligible_documents_witness :
  exists rest, chainFound = chainSeed :: rest /\
    forall o, In o rest ->
      In o chainStore /\ ~ In "A" (skiAreas o) /\
      (excludeObjectsAlreadyInSkiAreaPolygon chainContext = true ->
       isInSkiAreaPolygon o = false).
Proof.
  refine (traversal_returns_eligible_documents chainStore chainContext ["A"]
            chainSeed 5 chainFound chainVisited _).
  reflexivity.
Defined.

Lemma traversal_visited_keys_witness :
  visitObject 5 chainStore chainContext ["A"] chainSeed
  = Ok (chainFound, chainVisited) /\
  forall k, In k chainVisited <-> In k ["A"] \/ In k (keys (tl chainFound)).
Proof.
  split; [reflexivity|].
  refine (traversal_visited_keys chainStore chainContext ["A"]
            chainSeed 5 chainFound chainVisited _).
  reflexivity.
Defined.

(** ** The two modes of the traversal *)

Section TraversalModes.
Context {geo : GeoLibrary}.
Variable store : Store.

Lemma concatVisits_ext {A} (f g : list string -> A -> Visit) items :
  (forall v x, In x items -> f v x = g v x) ->
  forall v, concatVisits f v items = concatVisits g v items.
Proof.
  induction items as [|x rest IH]; simpl; intros Hfg v; [reflexivity|].
  rewrite (Hfg v x (or_introl eq_refl)).
  destruct (g v x) as [[f1 v1]| |]; simpl; try reflexivity.
  rewrite IH; [reflexivity|]. intros w y Hy. apply Hfg. now right.
Qed.

Lemma concatVisits_Forall_in {A} (visit : list string -> A -> Visit)
    (P : MapObject -> Prop) items :
  (forall v x found v', In x items -> visit v x = Ok (found, v') ->
                        Forall P found) ->
  forall v found v',
    concatVisits visit v items = Ok (found, v') -> Forall P found.
Proof.
  induction items as [|x rest IH]; simpl; intros Hv v found v' H.
  - inversion H. constructor.
  - apply bind_Ok in H. destruct H as [[f1 v1] [H1 H]].
    apply bind_Ok in H. destruct H as [[f2 v2] [H2 H]].
    inversion H; subst. apply Forall_app. split.
    + eapply Hv; [now left | exact H1].
    + eapply IH; [|exact H2]. intros w y f w' Hy. apply Hv. now right.
Qed.

Lemma visitPolygon_fixed_polygon
    (f g : VisitContext -> list string -> MapObject -> Visit)
    context p v geom :
  searchPolygon context = Some p ->
  visitPolygon store f context v geom = visitPolygon store g context v geom.
Proof. intro H. unfold visitPolygon. rewrite H. reflexivity. Qed.

Lemma visitPolygon_fixed_polygon_contains
    (f : VisitContext -> list string -> MapObject -> Visit)
    context p v geom found v' :
  searchPolygon context = Some p ->
  visitPolygon store f context v geom = Ok (found, v') ->
  Forall (fun x => In x store /\ GEO_CONTAINS geom (geometry x) = true) found.
Proof.
  intros Hp H. unfold visitPolygon in H. rewrite Hp in H.
  apply bind_Ok in H. destruct H as [[objects v1] [Hq H]].
  inversion H; subst. unfold findNearbyObjects in Hq.
  destruct (arangoError geom) as [[|]|]; inversion Hq; subst.
  - constructor.
  - apply Forall_forall. intros x Hx. apply filter_In in Hx.
    destruct Hx as [Hs Hf]. split; [exact Hs|]. unfold nearbyFilter in Hf.
    apply andb_true_iff in Hf. destruct Hf as [Hf _].
    apply andb_true_iff in Hf. destruct Hf as [Hf _].
    apply andb_true_iff in Hf. destruct Hf as [Hf _].
    apply andb_true_iff in Hf. destruct Hf as [Hf _]. exact Hf.
Qed.

(** X7: with a search polygon in the context the traversal does not
    recurse: one level of [visitObject] gives the same result as any
    number of levels, and every document returned after the seed lies in
    the store and is contained in the search polygon or, for a
    multipolygon, in one of its polygons. *)
Theorem polygon_search_does_not_recurse
    (context : VisitContext) (area : Geometry) (visited : list string)
    (seed : MapObject) :
  searchPolygon context = Some area ->
  (forall fuel,
     visitObject (S fuel) store context visited seed
     = visitObject 1 store context visited seed) /\
  forall fuel found visited',
    visitObject fuel store context visited seed = Ok (found, visited') ->
    forall x, In x (tl found) ->
      In x store /\
      exists poly, (poly = area \/ In poly (polygonsOf area)) /\
                   GEO_CONTAINS poly (geometry x) = true.
Proof.
  intro Hsp.
  assert (Hsp' : searchPolygon (objectContextOf context seed) = Some area)
    by exact Hsp.
  split.
  - intro fuel. simpl. rewrite Hsp.
    destruct (geometry_type area); try reflexivity.
    + rewrite (visitPolygon_fixed_polygon (visitObject fuel store)
                 (visitObject 0 store) _ _ visited area Hsp').
      reflexivity.
    + rewrite (concatVisits_ext
                 (fun v poly => visitPolygon store (visitObject fuel store)
                                  (objectContextOf context seed) v poly)
                 (fun v poly => visitPolygon store (visitObject 0 store)
                                  (objectContextOf context seed) v poly)).
      * reflexivity.
      * intros v poly _. now apply visitPolygon_fixed_polygon with (p := area).
  - intros fuel found visited' H x Hx.
    destruct fuel as [|fuel]; [discriminate|]. simpl in H. rewrite Hsp in H.
    destruct (geometry_type area); try discriminate.
    + apply bind_Ok in H. destruct H as [[news v1] [Hp H]]. inversion H; subst.
      simpl in Hx.
      pose proof (visitPolygon_fixed_polygon_contains _ _ _ _ _ _ _ Hsp' Hp) as Hc.
      rewrite Forall_forall in Hc. destruct (Hc x Hx) as [Hs Hg].
      split; [exact Hs|]. exists area. split; [now left | exact Hg].
    + apply bind_Ok in H. destruct H as [[news v1] [Hp H]]. inversion H; subst.
      simpl in Hx.
      assert (Hc : Forall (fun x => In x store /\
                    exists poly, (poly = area \/ In poly (polygonsOf area)) /\
                                 GEO_CONTAINS poly (geometry x) = true) news).
      { eapply concatVisits_Forall_in; [|exact Hp].
        intros w poly f w' Hin Hv.
        pose proof (visitPolygon_fixed_polygon_contains _ _ _ _ _ _ _ Hsp' Hv) as Hf.
        rewrite Forall_forall in Hf. apply Forall_forall. intros y Hy.
        destruct (Hf y Hy) as [Hs Hg]. split; [exact Hs|].
        exists poly. split; [now right | exact Hg]. }
      rewrite Forall_forall in Hc. exact (Hc x Hx).
Qed.

(** X8: without a search polygon, when the buffer around the seed is a
    polygon that the store accepts, every document of the store that
    passes the filter of [findNearbyObjects] for that buffer is among the
    documents returned after the seed. *)
Theorem traversal_returns_the_neighbours_of_the_seed
    (context : VisitContext) (area : Geometry) (visited : list string)
    (seed : MapObject) (fuel : nat) (found : list MapObject)
    (visited' : list string) :
  searchPolygon context = None ->
  bufferGeometry (geometry seed) maxDistanceInKilometers = Some area ->
  geometry_type area = Polygon ->
  arangoError area = None ->
  visitObject fuel store context visited seed = Ok (found, visited') ->
  forall x, In x store ->
    nearbyFilter area intersects (objectContextOf context seed) visited x = true ->
    In x (tl found).
Proof.
  intros Hsp Hbuf Hty Herr H x Hx Hf.
  destruct fuel as [|fuel]; [discriminate|]. simpl in H.
  rewrite Hsp, Hbuf, Hty in H.
  apply bind_Ok in H. destruct H as [[news v1] [Hp H]]. inversion H; subst.
  simpl. unfold visitPolygon in Hp.
  assert (Hsp' : searchPolygon (objectContextOf context seed) = None)
    by exact Hsp.
  rewrite Hsp' in Hp.
  apply bind_Ok in Hp. destruct Hp as [[objects v2] [Hq Hp]].
  unfold findNearbyObjects in Hq. rewrite Herr in Hq. inversion Hq; subst.
  eapply concatVisits_objects_Forall with (P := fun _ => True) in Hp.
  - destruct Hp as [_ Hi]. apply Hi. apply filter_In. now split.
  - intros w o f w' Hv. apply visitObject_spec in Hv.
    destruct Hv as [rest [-> _]]. exists rest. split; [reflexivity|].
    apply Forall_forall. intros; exact I.
  - apply Forall_forall. intros; exact I.
Qed.

End TraversalModes.

Lemma polygon_search_does_not_recurse_witness :
  searchPolygon
    (visitContextFor polygonPass polygonAreaProps
       (activitiesForClusteringOf polygonArea)
       (Some (geometry polygonArea)))
  = Some (polygonOver 0 1000) /\
  forall x, In x (tl polygonMembers) ->
    In x polygonStore /\
    exists poly, (poly = polygonOver 0 1000 \/ In poly []) /\
                 stretchContains poly (geometry x) = true.
Proof.
  split; [reflexivity|].
  refine (proj2 (polygon_search_does_not_recurse polygonStore
            (visitContextFor polygonPass polygonAreaProps
               (activitiesForClusteringOf polygonArea)
               (Some (geometry polygonArea)))
            (polygonOver 0 1000) [_key polygonArea]
            (withActivitiesOf (activitiesForClusteringOf polygonArea) polygonArea)
            _)
          (S (List.length polygonStore)) polygonMembers polygonVisited _).
  - reflexivity.
  - reflexivity.
Defined.

Lemma traversal_returns_the_neighbours_of_the_seed_witness :
  visitObject 5 chainStore chainContext ["A"] chainSeed
  = Ok (chainFound, chainVisited) /\
  forall x, In x chainStore ->
    @nearbyFilter lineGeo (polygonOver (-100) 900) intersects
      (objectContextOf chainContext chainSeed) ["A"] x = true ->
    In x (tl chainFound).
Proof.
  split; [reflexivity|].
  refine (traversal_returns_the_neighbours_of_the_seed chainStore chainContext
            (polygonOver (-100) 900) ["A"] chainSeed 5 chainFound chainVisited
            _ _ _ _ _); reflexivity.
Defined.

(** ** Merging *)

Section Merging.
Context {geo : GeoLibrary}.
Variable mergeSkiAreaObjects : list MapObject -> option MapObject.

Lemma Set_of_strings_from (l acc : list string) k :
  In k (fold_left (Set_add str_in) l acc) <-> In k acc \/ In k l.
Proof.
  revert acc. induction l as [|x l IH]; cbn [fold_left In]; intro acc; [tauto|].
  rewrite IH. unfold Set_add. destruct (str_in x acc) eqn:E.
  - apply str_in_In in E. split; [tauto|]. intros [H|[<-|H]]; auto.
  - rewrite in_app_iff. simpl. tauto.
Qed.

Lemma Set_of_strings_In (l : list string) k : In k (Set_of_strings l) <-> In k l.
Proof. unfold Set_of_strings. rewrite Set_of_strings_from. simpl. tauto. Qed.

Lemma ANY_IN_false (a b : list string) :
  ANY_IN a b = false -> forall k, In k a -> ~ In k b.
Proof.
  unfold ANY_IN. intros H k Hk Hb.
  assert (Hex : existsb (fun x => str_in x b) a = true).
  { apply existsb_exists. exists k. split; [assumption | now apply str_in_In]. }
  rewrite Hex in H. discriminate.
Qed.

Lemma REMOVE_VALUES_In l vs k :
  In k (REMOVE_VALUES l vs) <-> In k l /\ ~ In k vs.
Proof.
  unfold REMOVE_VALUES. rewrite filter_In, negb_true_iff, str_in_false. tauto.
Qed.

Lemma APPEND_unique_cases l v k : In k (APPEND_unique l v) -> In k l \/ k = v.
Proof.
  unfold APPEND_unique. destruct (str_in v l); [tauto|].
  rewrite in_app_iff. simpl. intuition.
Qed.

(** X9: when the composer declines, merging changes nothing.  When it
    returns a merged ski area and the store accepts the update, no
    document is left under a key of the other ski areas, no document
    refers to such a key any more, the merged ski area is in the
    collection, and documents that neither are nor refer to one of the
    ski areas are untouched. *)
Theorem mergeSkiAreas_rewrites_references
    (skiAreas' : list MapObject) (store : Store) :
  (mergeSkiAreaObjects skiAreas' = None ->
   mergeSkiAreas mergeSkiAreaObjects skiAreas' store = Ok store) /\
  forall merged store',
    mergeSkiAreaObjects skiAreas' = Some merged ->
    mergeSkiAreas mergeSkiAreaObjects skiAreas' store = Ok store' ->
    (forall o k, In o store' -> In k (keys skiAreas') -> k <> _key merged ->
                 _key o <> k /\ ~ In k (skiAreas o)) /\
    (exists o, In o store' /\ _key o = _key merged) /\
    (forall o, In o store -> _key o <> _key merged ->
               ~ In (_key o) (keys skiAreas') ->
               (forall k, In k (keys skiAreas') -> ~ In k (skiAreas o)) ->
               In o store').
Proof.
  split.
  { intro Hn. unfold mergeSkiAreas. rewrite Hn. reflexivity. }
  intros merged store' Hm H. unfold mergeSkiAreas in H. rewrite Hm in H.
  apply bind_Ok in H. destruct H as [store1 [Hu H]].
  inversion H; subst store'; clear H.
  set (ids := filter (fun k => negb (String.eqb k (_key merged)))
                     (Set_of_strings (keys skiAreas'))) in *.
  assert (Hids : forall k, In k ids <-> In k (keys skiAreas') /\ k <> _key merged).
  { intro k. unfold ids. rewrite filter_In, Set_of_strings_In, negb_true_iff.
    split; intros [H1 H2]; (split; [exact H1|]).
    - intros ->. rewrite String.eqb_refl in H2. discriminate.
    - destruct (String.eqb k (_key merged)) eqn:E; [|reflexivity].
      apply String.eqb_eq in E. contradiction. }
  pose proof Hu as Hu'. unfold collection_update in Hu'.
  destruct (has_key (_key merged) store) eqn:Hk; inversion Hu' as [Hs1];
    clear Hu'.
  split; [|split].
  - intros o k Ho Hin Hne. unfold collection_removeByKeys in Ho.
    apply filter_In in Ho. destruct Ho as [Ho Hr].
    apply negb_true_iff, str_in_false in Hr.
    assert (Hki : In k ids) by (apply Hids; now split).
    split; [intros E; apply Hr; now rewrite E|].
    apply in_map_iff in Ho. destruct Ho as [o1 [<- _]].
    destruct (ANY_IN ids (skiAreas o1)) eqn:Ea.
    + simpl. intro Hs. apply APPEND_unique_cases in Hs.
      destruct Hs as [Hs|Hs]; [|contradiction].
      apply REMOVE_VALUES_In in Hs. tauto.
    + exact (ANY_IN_false _ _ Ea k Hki).
  - unfold has_key in Hk. apply str_in_In in Hk. unfold keys in Hk.
    apply in_map_iff in Hk. destruct Hk as [o0 [Hk0 Ho0]].
    exists (if ANY_IN ids (skiAreas merged)
            then withSkiAreas
                   (APPEND_unique (REMOVE_VALUES (skiAreas merged) ids)
                                  (_key merged)) merged
            else merged).
    assert (Hkey : _key (if ANY_IN ids (skiAreas merged)
                         then withSkiAreas
                                (APPEND_unique (REMOVE_VALUES (skiAreas merged) ids)
                                               (_key merged)) merged
                         else merged) = _key merged).
    { destruct (ANY_IN ids (skiAreas merged)); reflexivity. }
    split; [|exact Hkey].
    unfold collection_removeByKeys. apply filter_In. split.
    + apply in_map_iff. exists merged. split; [reflexivity|].
      try rewrite <- Hs1. apply in_map_iff. exists o0. split; [|exact Ho0].
      rewrite Hk0, String.eqb_refl. reflexivity.
    + rewrite Hkey. apply negb_true_iff, str_in_false. intro Hin.
      apply Hids in Hin. tauto.
  - intros o Ho Hnm Hnk Hnr. unfold collection_removeByKeys.
    apply filter_In. split.
    + apply in_map_iff. exists o. split.
      * destruct (ANY_IN ids (skiAreas o)) eqn:Ea; [|reflexivity].
        unfold ANY_IN in Ea. apply existsb_exists in Ea.
        destruct Ea as [k [Hk1 Hk2]]. apply str_in_In in Hk2.
        apply Hids in Hk1. exfalso. apply (Hnr k); tauto.
      * try rewrite <- Hs1. apply in_map_iff. exists o. split; [|exact Ho].
        destruct (String.eqb (_key o) (_key merged)) eqn:E; [|reflexivity].
        apply String.eqb_eq in E. contradiction.
    + apply negb_true_iff, str_in_false. intro Hin. apply Hids in Hin. tauto.
Qed.

End Merging.

Section MergeCandidates.
Context {geo : GeoLibrary}.

Lemma getSkiAreasByID_In ids (store : Store) o :
  In o (getSkiAreasByID ids store) <-> In o store /\ In (id o) ids.
Proof. unfold getSkiAreasByID. rewrite filter_In, str_in_In. tauto. Qed.

(** X10: every object that [getSkiAreasToMerge] returns is a document of
    the store with another source than the ski area, and its id is listed
    by a document that intersects the 250 m buffer of the ski area, shares
    an activity with it and does not list the ski area itself. *)
Theorem getSkiAreasToMerge_candidates
    (skiArea : MapObject) (store : Store) (others : list MapObject) :
  getSkiAreasToMerge skiArea store = Ok others ->
  forall other, In other others ->
    In other store /\ same_source other skiArea = false /\
    exists buffer nearby,
      bufferGeometry (geometry skiArea) maxMergeDistanceInKilometers = Some buffer /\
      In nearby store /\
      GEO_INTERSECTS buffer (geometry nearby) = true /\
      In (id other) (skiAreas nearby) /\
      ~ In (id skiArea) (skiAreas nearby) /\
      ANY_IN_activities (activities nearby) (activities skiArea) = true.
Proof.
  unfold getSkiAreasToMerge.
  destruct (bufferGeometry (geometry skiArea) maxMergeDistanceInKilometers)
    as [buffer|]; intro H.
  2:{ inversion H; subst. intros other []. }
  apply bind_Ok in H. destruct H as [[nearbyObjects v] [Hq H]].
  inversion H; subst others; clear H. intros other Ho.
  apply filter_In in Ho. destruct Ho as [Ho Hsrc].
  apply negb_true_iff in Hsrc.
  apply getSkiAreasByID_In in Ho. destruct Ho as [Hs Hid].
  apply (proj1 (Set_of_strings_In _ _)) in Hid.
  apply (proj1 (in_flat_map _ _ _)) in Hid.
  destruct Hid as [nearby [Hn Hin]].
  split; [exact Hs|]. split; [exact Hsrc|].
  exists buffer, nearby. split; [reflexivity|].
  unfold findNearbyObjects in Hq.
  destruct (arangoError buffer) as [[|]|]; inversion Hq; subst; [contradiction|].
  apply filter_In in Hn. destruct Hn as [Hns Hf]. split; [exact Hns|].
  unfold nearbyFilter in Hf. simpl in Hf.
  apply andb_true_iff in Hf. destruct Hf as [Hf Hact].
  apply andb_true_iff in Hf. destruct Hf as [Hf _].
  apply andb_true_iff in Hf. destruct Hf as [Hf _].
  apply andb_true_iff in Hf. destruct Hf as [Hgeo Hnid].
  apply negb_true_iff, str_in_false in Hnid.
  repeat split; assumption.
Qed.

End MergeCandidates.

Lemma mergeSkiAreas_rewrites_references_witness :
  (forall o k, In o mergeResult -> In k (keys [mergeT; mergeS]) ->
               k <> _key mergeT -> _key o <> k /\ ~ In k (skiAreas o)) /\
  (exists o, In o mergeResult /\ _key o = _key mergeT).
Proof.
  destruct (proj2 (mergeSkiAreas_rewrites_references keepFirst
                     [mergeT; mergeS] mergeStore)
              mergeT mergeResult) as (H1 & H2 & _).
  - reflexivity.
  - reflexivity.
  - split; [exact H1 | exact H2].
Defined.

Lemma getSkiAreasToMerge_candidates_witness :
  map _key mergeCandidates = ["S"] /\
  forall other, In other mergeCandidates ->
    In other mergeStore /\ same_source other mergeT = false.
Proof.
  split; [reflexivity|].
  intros other Ho.
  destruct (getSkiAreasToMerge_candidates mergeT mergeStore mergeCandidates
              eq_refl other Ho) as (H1 & H2 & _).
  split; [exact H1 | exact H2].
Defined.

(** The candidates on [mergeStore] are the one OpenStreetMap ski area. *)
Lemma mergeCandidates_value : map _key mergeCandidates = ["S"].
Proof. reflexivity. Qed.

(** ** Removal of ambiguous duplicates *)

Section AmbiguousDuplicates.
Context {geo : GeoLibrary}.

Lemma filter_twice {A} (f g : A -> bool) l :
  filter f (filter g l) = filter (fun x => g x && f x) l.
Proof.
  induction l as [|x l IH]; simpl; [reflexivity|].
  destruct (g x); simpl; [destruct (f x)|]; now rewrite IH.
Qed.

Lemma same_key_same_document (store : Store) (a b : MapObject) :
  NoDup (keys store) -> In a store -> In b store -> _key a = _key b -> a = b.
Proof.
  induction store as [|o l IH]; simpl; intros Hn Ha Hb Hk; [contradiction|].
  inversion Hn as [|? ? Hno Hnl]; subst.
  destruct Ha as [->|Ha], Hb as [->|Hb].
  - reflexivity.
  - exfalso. apply Hno. rewrite Hk. now apply keys_In.
  - exfalso. apply Hno. rewrite <- Hk. now apply keys_In.
  - now apply IH.
Qed.

Lemma skimap_is_not_ambiguous (store : Store) area (o : MapObject) :
  skiAreasFilter {| gs_onlySource := Some SKIMAP_ORG; gs_onlyPolygons := false;
                    gs_onlyInPolygon := Some area |} o = true ->
  ambiguousDuplicate store o = false.
Proof.
  unfold ambiguousDuplicate, skiAreasFilter, source_is. simpl. intro H.
  apply andb_true_iff in H. destruct H as [H _].
  apply andb_true_iff in H. destruct H as [_ H].
  destruct (source o) as [[|]|]; try discriminate.
  rewrite andb_false_r. reflexivity.
Qed.

(** The collection after the ski areas in [done] have been dealt with *)
Lemma removeAmbiguous_loop (store : Store) :
  NoDup (keys store) ->
  forall snapshot done store',
    (forall sa, In sa snapshot ->
       In sa store /\
       skiAreasFilter {| gs_onlySource := Some OPENSTREETMAP;
                         gs_onlyPolygons := true;
                         gs_onlyInPolygon := None |} sa = true /\
       ~ In (_key sa) (keys done)) ->
    NoDup (keys snapshot) ->
    forEachSkiArea removeAmbiguousDuplicateSkiArea snapshot
      (filter (fun o => negb (ambiguousDuplicate store o
                              && str_in (_key o) (keys done))) store)
    = Ok store' ->
    store' = filter (fun o => negb (ambiguousDuplicate store o
                                    && str_in (_key o) (keys (done ++ snapshot))))
                    store.
Proof.
  intros Hnd. induction snapshot as [|sa rest IH]; simpl; intros done store' Hsnap Hn H.
  - inversion H; subst. rewrite app_nil_r. reflexivity.
  - apply bind_Ok in H. destruct H as [store1 [H1 H]].
    destruct (Hsnap sa (or_introl eq_refl)) as (Hin & Hosm & Hfresh).
    inversion Hn as [|? ? Hnk Hnr]; subst.
    assert (Hstep : store1 =
              filter (fun o => negb (ambiguousDuplicate store o
                                     && str_in (_key o) (keys (done ++ [sa]))))
                     store).
    { unfold removeAmbiguousDuplicateSkiArea in H1.
      assert (Hothers :
                getSkiAreas {| gs_onlySource := Some SKIMAP_ORG;
                               gs_onlyPolygons := false;
                               gs_onlyInPolygon := Some (geometry sa) |}
                  (filter (fun o => negb (ambiguousDuplicate store o
                                          && str_in (_key o) (keys done))) store)
                = getSkiAreas {| gs_onlySource := Some SKIMAP_ORG;
                                 gs_onlyPolygons := false;
                                 gs_onlyInPolygon := Some (geometry sa) |} store).
      { unfold getSkiAreas. simpl. destruct (arangoError (geometry sa)) as [[|]|];
          try reflexivity.
        f_equal. rewrite filter_twice. apply filter_ext_in. intros o Ho.
        destruct (skiAreasFilter _ o) eqn:Ef; [|apply andb_false_r].
        rewrite (skimap_is_not_ambiguous store _ o Ef). reflexivity. }
      assert (Hamb : ambiguousDuplicate store sa =
                match getSkiAreas {| gs_onlySource := Some SKIMAP_ORG;
                                     gs_onlyPolygons := false;
                                     gs_onlyInPolygon := Some (geometry sa) |} store
                with Ok others => 1 <? List.length others | _ => false end).
      { unfold ambiguousDuplicate. rewrite Hosm. reflexivity. }
      assert (Hsame : forall o, In o store -> _key o = _key sa -> o = sa).
      { intros o Ho Hk. now apply (same_key_same_document store). }
      assert (Hkeep : forall b : bool,
                ambiguousDuplicate store sa = b ->
                filter (fun o => negb (ambiguousDuplicate store o
                                       && str_in (_key o) (keys (done ++ [sa]))))
                       store
                = filter (fun o => negb (ambiguousDuplicate store o
                                         && str_in (_key o) (keys done))
                                   && (negb b || negb (String.eqb (_key o) (_key sa))))
                         store).
      { intros b Hb. apply filter_ext_in. intros o Ho.
        unfold keys. rewrite map_app. unfold str_in. rewrite existsb_app. simpl.
        rewrite orb_false_r.
        destruct (String.eqb (_key o) (_key sa)) eqn:Ek.
        - apply String.eqb_eq in Ek. rewrite (Hsame o Ho Ek), Hb.
          assert (Hd : existsb (String.eqb (_key sa)) (map _key done) = false).
          { apply str_in_false. exact Hfresh. }
          rewrite Hd. simpl. destruct b; reflexivity.
        - rewrite orb_false_r, orb_true_r, andb_true_r. reflexivity. }
      destruct (geometry_type (geometry sa)); try discriminate;
        rewrite Hothers in H1;
        (destruct (getSkiAreas _ store) as [others| |] eqn:Eg;
         simpl in H1; try discriminate;
         destruct (1 <? List.length others) eqn:El;
         [ apply collection_remove_Ok in H1; rewrite (Hkeep true Hamb), H1,
             filter_twice; apply filter_ext_in; intros o Ho; simpl;
             reflexivity
         | inversion H1; subst store1; rewrite (Hkeep false Hamb);
           apply filter_ext_in; intros o Ho; simpl;
           now rewrite andb_true_r ]). }
    rewrite Hstep in H. apply IH in H.
    + rewrite H. unfold keys. rewrite <- app_assoc. reflexivity.
    + intros x Hx. destruct (Hsnap x (or_intror Hx)) as (Hxs & Hxo & Hxf).
      split; [exact Hxs|]. split; [exact Hxo|].
      unfold keys. rewrite map_app, in_app_iff. intros [Hd|[Hk|[]]];
        [now apply Hxf|].
      apply Hnk. rewrite Hk. now apply keys_In.
    + exact Hnr.
Qed.

(** X11: when it succeeds on a collection with distinct keys, the first
    pass removes exactly the ambiguous duplicates: the OpenStreetMap
    polygon ski areas whose geometry intersects more than one Skimap.org
    ski area.  Every other document stays as it is. *)
Theorem removeAmbiguousDuplicateSkiAreas_is_a_filter (store store' : Store) :
  NoDup (keys store) ->
  removeAmbiguousDuplicateSkiAreas store = Ok store' ->
  store' = filter (fun o => negb (ambiguousDuplicate store o)) store.
Proof.
  intros Hnd H. unfold removeAmbiguousDuplicateSkiAreas in H.
  apply bind_Ok in H. destruct H as [snapshot [Hs H]].
  unfold getSkiAreas in Hs. simpl in Hs. inversion Hs; subst snapshot; clear Hs.
  assert (H0 : filter (fun o => negb (ambiguousDuplicate store o
                                      && str_in (_key o) (keys []))) store = store).
  { rewrite <- (filter_ext_in (fun _ => true)).
    - clear. induction store as [|o l IHl]; simpl; [reflexivity|]. now f_equal.
    - intros o _. simpl. now rewrite andb_false_r. }
  assert (H' : forEachSkiArea removeAmbiguousDuplicateSkiArea
                 (filter (skiAreasFilter
                            {| gs_onlySource := Some OPENSTREETMAP;
                               gs_onlyPolygons := true;
                               gs_onlyInPolygon := None |}) store)
                 (filter (fun o => negb (ambiguousDuplicate store o
                                         && str_in (_key o) (keys []))) store)
               = Ok store') by (rewrite H0; exact H).
  clear H. rename H' into H.
  apply (removeAmbiguous_loop store Hnd) in H.
  - rewrite H. apply filter_ext_in. intros o Ho. simpl.
    destruct (ambiguousDuplicate store o) eqn:Ea; [|reflexivity].
    simpl. apply negb_false_iff. apply str_in_In. apply keys_In. apply filter_In.
    split; [exact Ho|]. unfold ambiguousDuplicate in Ea.
    apply andb_true_iff in Ea. tauto.
  - intros sa Hsa. apply filter_In in Hsa. destruct Hsa as [Hin Hf].
    split; [exact Hin|]. split; [exact Hf|]. intros [].
  - now apply NoDup_keys_filter.
Qed.

End AmbiguousDuplicates.

Lemma NoDup_superStore : NoDup (keys superStore).
Proof. simpl. repeat constructor; simpl; intuition discriminate. Qed.

Lemma removeAmbiguousDuplicateSkiAreas_is_a_filter_witness :
  superResult = filter (fun o => negb (ambiguousDuplicate superStore o)) superStore.
Proof.
  refine (removeAmbiguousDuplicateSkiAreas_is_a_filter superStore superResult
            NoDup_superStore _).
  reflexivity.
Defined.

(** On [superStore] the enclosing polygon goes and the two ski areas stay. *)
Lemma superResult_keys : keys superResult = ["B"; "C"].
Proof. reflexivity. Qed.

(** ** Callbacks run request by request *)

Section Tasks.
Context {geo : GeoLibrary}.

Lemma runTask_andThen {A B} (t : Task A) (k : A -> Task B) (store : Store) :
  runTask (andThen t k) store =
  (done <- runTask t store ;; runTask (k (fst done)) (snd done)).
Proof.
  revert store. induction t as [a|e| |effect next IH]; intro store; simpl;
    try reflexivity.
  apply IH.
Qed.

Lemma runTask_settled {A} (r : Result A) (store : Store) :
  runTask (settled r) store = (a <- r ;; Ok (a, store)).
Proof. destruct r; reflexivity. Qed.

Lemma runTask_query {A} (q : Store -> Result A) (store : Store) :
  runTask (query q) store = (a <- q store ;; Ok (a, store)).
Proof. simpl. apply runTask_settled. Qed.

Lemma runTask_request (w : Store -> Result Store) (store : Store) :
  runTask (request w) store = (store1 <- w store ;; Ok (tt, store1)).
Proof. simpl. destruct (w store); reflexivity. Qed.

(** *** A traversal run on its own is the traversal of one collection *)

Lemma runTask_concatVisits {A}
    (visit_task : list string -> A -> Task (list MapObject * list string))
    (visit : list string -> A -> Visit) (store : Store) :
  (forall v x, runTask (visit_task v x) store = (r <- visit v x ;; Ok (r, store))) ->
  forall items v,
    runTask (concatVisits_task visit_task v items) store
    = (r <- concatVisits visit v items ;; Ok (r, store)).
Proof.
  intro Hv. induction items as [|x rest IH]; intro v; simpl; [reflexivity|].
  rewrite runTask_andThen, Hv.
  destruct (visit v x) as [[found visited1]| |]; simpl; try reflexivity.
  rewrite runTask_andThen, IH.
  destruct (concatVisits visit visited1 rest) as [[more visited2]| |];
    reflexivity.
Qed.

Lemma runTask_visitPolygon
    (visit_task : VisitContext -> list string -> MapObject
                  -> Task (list MapObject * list string))
    (visit : VisitContext -> list string -> MapObject -> Visit)
    (store : Store) :
  (forall c v x, runTask (visit_task c v x) store = (r <- visit c v x ;; Ok (r, store))) ->
  forall context v geom,
    runTask (visitPolygon_task visit_task context v geom) store
    = (r <- visitPolygon store visit context v geom ;; Ok (r, store)).
Proof.
  intros Hv context v geom. unfold visitPolygon_task, visitPolygon.
  rewrite runTask_andThen. unfold findNearbyObjects_task. rewrite runTask_query.
  destruct (findNearbyObjects store geom _ context v) as [[objects visited1]| |];
    simpl; try reflexivity.
  destruct (searchPolygon context); [reflexivity|].
  apply runTask_concatVisits. apply Hv.
Qed.

Lemma runTask_visitObject fuel (store : Store) : forall context v object,
  runTask (visitObject_task fuel context v object) store
  = (r <- visitObject fuel store context v object ;; Ok (r, store)).
Proof.
  induction fuel as [|fuel IH]; intros context v object; [reflexivity|].
  cbn [visitObject_task visitObject].
  destruct (match searchPolygon context with
            | Some p => Some p
            | None => bufferGeometry (geometry object) maxDistanceInKilometers
            end) as [area|]; [|reflexivity].
  destruct (geometry_type area); try reflexivity.
  - rewrite runTask_andThen.
    rewrite (runTask_visitPolygon _ (visitObject fuel store) store IH).
    destruct (visitPolygon store _ _ v area) as [[found visited1]| |];
      reflexivity.
  - rewrite runTask_andThen.
    rewrite (runTask_concatVisits _
               (fun visited poly =>
                  visitPolygon store (visitObject fuel store)
                    (objectContextOf context object) visited poly) store).
    + destruct (concatVisits _ v (polygonsOf area)) as [[found visited1]| |];
        reflexivity.
    + intros v0 poly. apply runTask_visitPolygon. apply IH.
Qed.


(** *** A callback run on its own *)

Variable mergeSkiAreaObjects : list MapObject -> option MapObject.

Lemma runTask_getSkiAreasToMerge (skiArea : MapObject) (store : Store) :
  runTask (getSkiAreasToMerge_task skiArea) store
  = (r <- getSkiAreasToMerge skiArea store ;; Ok (r, store)).
Proof.
  unfold getSkiAreasToMerge_task, getSkiAreasToMerge.
  destruct (bufferGeometry (geometry skiArea) maxMergeDistanceInKilometers)
    as [buffer|]; [|reflexivity].
  rewrite runTask_andThen. unfold findNearbyObjects_task. rewrite runTask_query.
  destruct (findNearbyObjects store buffer intersects _ [])
    as [[nearby visited]| |]; reflexivity.
Qed.

Lemma runTask_mergeSkiAreas (skiAreas' : list MapObject) (store : Store) :
  runTask (mergeSkiAreas_task mergeSkiAreaObjects skiAreas') store
  = (store1 <- mergeSkiAreas mergeSkiAreaObjects skiAreas' store ;; Ok (tt, store1)).
Proof.
  unfold mergeSkiAreas_task, mergeSkiAreas.
  destruct (mergeSkiAreaObjects skiAreas') as [skiArea|]; [|reflexivity].
  rewrite runTask_andThen, runTask_request.
  destruct (collection_update (_key skiArea) (fun _ => skiArea) store)
    as [store1| |]; reflexivity.
Qed.

Lemma runTask_assignMembers options skiArea props known members (store : Store) :
  runTask (assignMembers_task options skiArea props known members) store
  = (store1 <- assignMembers options skiArea props known members store ;;
     Ok (tt, store1)).
Proof.
  unfold assignMembers_task, assignMembers.
  destruct (removeIfNoObjectsFound options && noObjectsFound members);
    [apply runTask_request|].
  destruct (removeIfSubstantialNumberOfObjectsInSkiAreaSite options
            && substantialNumberInSiteRelation members);
    [apply runTask_request|].
  rewrite runTask_andThen, runTask_request. simpl.
  destruct known; [reflexivity|]. apply runTask_request.
Qed.

Lemma runTask_clusterSkiArea options skiArea props (store : Store) :
  runTask (clusterSkiArea_task (S (List.length store)) options skiArea props) store
  = (store1 <- clusterSkiArea options skiArea props store ;; Ok (tt, store1)).
Proof.
  unfold clusterSkiArea_task, clusterSkiArea.
  rewrite runTask_andThen, runTask_settled.
  destruct (if onlyInPolygon options
            then match geometry_type (geometry skiArea) with
                 | Polygon | MultiPolygon => Ok (Some (geometry skiArea))
                 | _ => Throw SkiAreaGeometryMustBePolygon
                 end
            else Ok None) as [searchPolygon'| |]; try reflexivity.
  cbn [bind fst snd]. rewrite runTask_andThen, runTask_visitObject.
  unfold traverse.
  destruct (visitObject (S (List.length store)) store _ [_key skiArea] _)
    as [[members visited]| |]; try reflexivity.
  cbn [bind fst snd]. apply runTask_assignMembers.
Qed.

Lemma runTask_assignObjectsToSkiArea options skiArea (store : Store) :
  runTask (assignObjectsToSkiArea_task mergeSkiAreaObjects
             (S (List.length store)) options skiArea) store
  = (store1 <- assignObjectsToSkiArea mergeSkiAreaObjects options skiArea store ;;
     Ok (tt, store1)).
Proof.
  unfold assignObjectsToSkiArea_task, assignObjectsToSkiArea.
  rewrite runTask_andThen, runTask_settled.
  destruct (propertiesOf skiArea) as [props| |]; try reflexivity.
  cbn [bind fst snd].
  destruct (String.eqb (p_id props) ""); [reflexivity|].
  destruct (mergeWithOtherSourceIfNearby options);
    [|apply runTask_clusterSkiArea].
  rewrite runTask_andThen, runTask_getSkiAreasToMerge.
  destruct (getSkiAreasToMerge skiArea store) as [others| |]; try reflexivity.
  cbn [bind fst snd].
  destruct (0 <? List.length others);
    [apply runTask_mergeSkiAreas | apply runTask_clusterSkiArea].
Qed.

(** *** A batch of one callback *)

Lemma promiseAll_single (schedule : list nat) : forall (t : Task unit) (store : Store),
  promiseAll schedule [t] store = (done <- runTask t store ;; Ok (snd done)).
Proof.
  induction schedule as [|n later IH]; intros t store.
  - destruct t as [[]|e| |effect next]; reflexivity.
  - destruct t as [[]|e| |effect next].
    + cbn [promiseAll rejection]. unfold serve.
      destruct n as [|[|n]]; simpl; apply IH.
    + reflexivity.
    + cbn [promiseAll rejection]. unfold serve.
      destruct n as [|[|n]]; simpl; apply IH.
    + cbn [promiseAll rejection]. unfold serve.
      destruct n as [|[|n]]; simpl; rewrite IH; reflexivity.
Qed.

Lemma batches_single (skiArea : MapObject) : batches 1 [skiArea] = [[skiArea]].
Proof. reflexivity. Qed.

(** A pass over one ski area is its callback run on its own, whatever
    the schedule. *)
Lemma assignObjectsToSkiAreas_single options schedule skiArea (store : Store) :
  getSkiAreas {| gs_onlySource := Some (onlySource options);
                 gs_onlyPolygons := onlyInPolygon options;
                 gs_onlyInPolygon := None |} store = Ok [skiArea] ->
  assignObjectsToSkiAreas mergeSkiAreaObjects options schedule store
  = assignObjectsToSkiArea mergeSkiAreaObjects options skiArea store.
Proof.
  intro Hc. unfold assignObjectsToSkiAreas. rewrite Hc.
  cbn [bind List.length batches firstn skipn batchSize forEachBatch map].
  rewrite promiseAll_single, runTask_assignObjectsToSkiArea.
  destruct (assignObjectsToSkiArea mergeSkiAreaObjects options skiArea store);
    reflexivity.
Qed.

Lemma assignObjectsToSkiAreas_none options schedule (store : Store) :
  getSkiAreas {| gs_onlySource := Some (onlySource options);
                 gs_onlyPolygons := onlyInPolygon options;
                 gs_onlyInPolygon := None |} store = Ok [] ->
  assignObjectsToSkiAreas mergeSkiAreaObjects options schedule store = Ok store.
Proof. intro Hc. unfold assignObjectsToSkiAreas. rewrite Hc. reflexivity. Qed.

End Tasks.

(** *** What every interleaving of a batch preserves *)

Section Interleavings.
Context {geo : GeoLibrary}.
Variable mergeSkiAreaObjects : list MapObject -> option MapObject.
Variable P : Store -> Store -> Prop.
Hypothesis P_refl : forall s, P s s.
Hypothesis P_trans : forall a b c, P a b -> P b c -> P a c.

Lemma Steps_andThen {A B} (t : Task A) (k : A -> Task B) :
  Steps P t -> (forall a, Steps P (k a)) -> Steps P (andThen t k).
Proof.
  intros Ht Hk. induction t as [a|e| |effect next IH]; simpl; auto.
  destruct Ht as [He Hn]. split; [exact He|]. intro store. apply IH. apply Hn.
Qed.

Lemma Steps_settled {A} (r : Result A) : Steps P (settled r).
Proof. destruct r; exact I. Qed.

Lemma Steps_query {A} (q : Store -> Result A) : Steps P (query q).
Proof. split; [apply P_refl | intro; apply Steps_settled]. Qed.

Lemma Steps_request (w : Store -> Result Store) :
  (forall s s1, w s = Ok s1 -> P s s1) -> Steps P (request w).
Proof.
  intro Hw. split.
  - intro store. destruct (w store) as [s1| |] eqn:E; [now apply Hw | | ];
      apply P_refl.
  - intro store. apply Steps_settled.
Qed.

Lemma Steps_concatVisits {A}
    (visit : list string -> A -> Task (list MapObject * list string)) :
  (forall v x, Steps P (visit v x)) ->
  forall items v, Steps P (concatVisits_task visit v items).
Proof.
  intro Hv. induction items as [|x rest IH]; intro v; simpl; [exact I|].
  apply Steps_andThen; [apply Hv|]. intro first.
  apply Steps_andThen; [apply IH|]. intro more. exact I.
Qed.

Lemma Steps_visitPolygon
    (visit : VisitContext -> list string -> MapObject
             -> Task (list MapObject * list string)) :
  (forall c v x, Steps P (visit c v x)) ->
  forall context v geom, Steps P (visitPolygon_task visit context v geom).
Proof.
  intros Hv context v geom. unfold visitPolygon_task.
  apply Steps_andThen; [apply Steps_query|]. intro nearby.
  destruct (searchPolygon context); [exact I|].
  apply Steps_concatVisits. apply Hv.
Qed.

Lemma Steps_visitObject fuel : forall context v object,
  Steps P (visitObject_task fuel context v object).
Proof.
  induction fuel as [|fuel IH]; intros context v object; [exact I|].
  cbn [visitObject_task].
  destruct (match searchPolygon context with
            | Some p => Some p
            | None => bufferGeometry (geometry object) maxDistanceInKilometers
            end) as [area|]; [|exact I].
  destruct (geometry_type area); try exact I.
  - apply Steps_andThen; [|intro; exact I]. apply Steps_visitPolygon. apply IH.
  - apply Steps_andThen; [|intro; exact I]. apply Steps_concatVisits.
    intros v0 poly. apply Steps_visitPolygon. apply IH.
Qed.

Lemma Steps_getSkiAreasToMerge skiArea : Steps P (getSkiAreasToMerge_task skiArea).
Proof.
  unfold getSkiAreasToMerge_task.
  destruct (bufferGeometry _ _); [|exact I].
  apply Steps_andThen; [apply Steps_query|]. intro nearby.
  apply Steps_andThen; [apply Steps_query|]. intro others. exact I.
Qed.

Section Callback.
Variable options : AssignOptions.
Hypothesis removal :
  removeIfNoObjectsFound options = true \/
  removeIfSubstantialNumberOfObjectsInSkiAreaSite options = true ->
  forall k s s1, collection_remove k s = Ok s1 -> P s s1.
Hypothesis marking : forall id' b members s, P s (markSkiArea id' b members s).
Hypothesis patching :
  forall k acts s s1, collection_update k (activitiesPatch acts) s = Ok s1 -> P s s1.
Hypothesis merging :
  mergeWithOtherSourceIfNearby options = true ->
  (forall l merged s s1,
     mergeSkiAreaObjects l = Some merged ->
     collection_update (_key merged) (fun _ => merged) s = Ok s1 -> P s s1) /\
  (forall ids k s, P s (updateReferences ids k s)) /\
  (forall ids s, P s (collection_removeByKeys ids s)).

Lemma Steps_assignMembers skiArea props known members :
  Steps P (assignMembers_task options skiArea props known members).
Proof.
  unfold assignMembers_task.
  destruct (removeIfNoObjectsFound options && noObjectsFound members) eqn:E1.
  { apply Steps_request. apply removal. left.
    apply andb_true_iff in E1. tauto. }
  destruct (removeIfSubstantialNumberOfObjectsInSkiAreaSite options
            && substantialNumberInSiteRelation members) eqn:E2.
  { apply Steps_request. apply removal. right.
    apply andb_true_iff in E2. tauto. }
  apply Steps_andThen.
  - apply Steps_request. intros s s1 H. inversion H; subst. apply marking.
  - intros _. destruct known; [exact I|]. apply Steps_request. apply patching.
Qed.

Lemma Steps_clusterSkiArea fuel skiArea props :
  Steps P (clusterSkiArea_task fuel options skiArea props).
Proof.
  unfold clusterSkiArea_task. apply Steps_andThen; [apply Steps_settled|].
  intro searchPolygon'. apply Steps_andThen; [apply Steps_visitObject|].
  intro found. apply Steps_assignMembers.
Qed.

Lemma Steps_mergeSkiAreas skiAreas' :
  mergeWithOtherSourceIfNearby options = true ->
  Steps P (mergeSkiAreas_task mergeSkiAreaObjects skiAreas').
Proof.
  intro Hm. pose proof (merging Hm) as (Hu & Hr & Hk).
  unfold mergeSkiAreas_task.
  destruct (mergeSkiAreaObjects skiAreas') as [merged|] eqn:E; [|exact I].
  apply Steps_andThen.
  - apply Steps_request. intros s s1. now apply (Hu skiAreas').
  - intros _. apply Steps_andThen.
    + apply Steps_request. intros s s1 H. inversion H; subst. apply Hr.
    + intros _. apply Steps_request. intros s s1 H. inversion H; subst. apply Hk.
Qed.

Lemma Steps_assignObjectsToSkiArea fuel skiArea :
  Steps P (assignObjectsToSkiArea_task mergeSkiAreaObjects fuel options skiArea).
Proof.
  unfold assignObjectsToSkiArea_task.
  apply Steps_andThen; [apply Steps_settled|]. intro props.
  destruct (String.eqb (p_id props) ""); [exact I|].
  case_eq (mergeWithOtherSourceIfNearby options); intro Em;
    [|apply Steps_clusterSkiArea].
  apply Steps_andThen; [apply Steps_getSkiAreasToMerge|]. intro others.
  destruct (0 <? List.length others);
    [now apply Steps_mergeSkiAreas | apply Steps_clusterSkiArea].
Qed.

End Callback.

Lemma runTask_Steps {A} (t : Task A) : forall store a store',
  Steps P t -> runTask t store = Ok (a, store') -> P store store'.
Proof.
  induction t as [a0|e| |effect next IH]; intros store a store' Ht H; simpl in H.
  - inversion H; subst. apply P_refl.
  - discriminate.
  - discriminate.
  - destruct Ht as [He Hn]. eapply P_trans; [apply He|].
    eapply IH; [apply Hn | exact H].
Qed.

Lemma settle_Steps (tasks : list (Task unit)) : forall store store',
  Forall (Steps P) tasks -> settle tasks store = Ok store' -> P store store'.
Proof.
  induction tasks as [|t rest IH]; intros store store' Hall H; simpl in H.
  - inversion H; subst. apply P_refl.
  - apply bind_Ok in H. destruct H as [[a store1] [Hr H]].
    inversion Hall as [|? ? Ht Hrest]; subst.
    eapply P_trans; [eapply runTask_Steps; [exact Ht | exact Hr]|].
    now apply IH.
Qed.

Lemma replaceNth_Forall {A} (Q : A -> Prop) n x (l : list A) :
  Q x -> Forall Q l -> Forall Q (replaceNth n x l).
Proof.
  intros Hx. revert n. induction l as [|y l IH]; intros n Hl;
    [destruct n; constructor|].
  inversion Hl; subst. destruct n; simpl; constructor; auto.
Qed.

Lemma serve_Steps n (tasks : list (Task unit)) (store : Store) :
  Forall (Steps P) tasks ->
  Forall (Steps P) (fst (serve n tasks store)) /\
  P store (snd (serve n tasks store)).
Proof.
  intro Hall. unfold serve.
  destruct (nth_error tasks n) as [[[]|e| |effect next]|] eqn:E; simpl;
    try (split; [exact Hall | apply P_refl]).
  apply nth_error_In in E.
  pose proof (proj1 (Forall_forall _ _) Hall _ E) as [He Hn].
  split; [|apply He]. apply replaceNth_Forall; [apply Hn | exact Hall].
Qed.

Lemma promiseAll_Steps schedule : forall (tasks : list (Task unit)) store store',
  Forall (Steps P) tasks ->
  promiseAll schedule tasks store = Ok store' -> P store store'.
Proof.
  induction schedule as [|n later IH]; intros tasks store store' Hall H;
    simpl in H; destruct (rejection tasks); try discriminate.
  - now apply (settle_Steps tasks).
  - destruct (serve_Steps n tasks store Hall) as [Hall1 Hp].
    eapply P_trans; [exact Hp|]. now apply (IH _ _ _ Hall1).
Qed.

Lemma forEachBatch_Steps (callback : MapObject -> Task unit) :
  (forall skiArea, Steps P (callback skiArea)) ->
  forall cursor schedule store store',
    forEachBatch callback schedule cursor store = Ok store' -> P store store'.
Proof.
  intro Hc. induction cursor as [|batch rest IH];
    intros schedule store store' H; simpl in H.
  - inversion H; subst. apply P_refl.
  - apply bind_Ok in H. destruct H as [store1 [H1 H]].
    eapply P_trans; [|eapply IH; exact H].
    eapply promiseAll_Steps; [|exact H1].
    apply Forall_forall. intros t Ht. apply in_map_iff in Ht.
    destruct Ht as [sa [<- _]]. apply Hc.
Qed.

End Interleavings.

(** ** A whole pass of the assignment *)

Section AssignmentPass.
Context {geo : GeoLibrary}.
Variable mergeSkiAreaObjects : list MapObject -> option MapObject.

Lemma incl_filter_keys (f : string -> bool) (l : list string) : incl (filter f l) l.
Proof. intros k Hk. apply filter_In in Hk. tauto. Qed.

Lemma forEachSkiArea_invariant (f : MapObject -> Store -> Result Store)
    (R : Store -> Store -> Prop) :
  (forall st, R st st) ->
  (forall a b c, R a b -> R b c -> R a c) ->
  (forall sa st st', f sa st = Ok st' -> R st st') ->
  forall snapshot st st', forEachSkiArea f snapshot st = Ok st' -> R st st'.
Proof.
  intros Hrefl Htrans Hstep. induction snapshot as [|sa rest IH]; simpl;
    intros st st' H.
  - inversion H; subst. apply Hrefl.
  - apply bind_Ok in H. destruct H as [st1 [H1 H]].
    eapply Htrans; [eapply Hstep; exact H1 | eapply IH; exact H].
Qed.

Lemma collection_update_keys k (f : MapObject -> MapObject) (s s1 : Store) :
  (forall o, _key (f o) = _key o) ->
  collection_update k f s = Ok s1 -> keys s1 = keys s.
Proof.
  intros Hf H. unfold collection_update in H.
  destruct (has_key k s); inversion H; subst.
  apply keys_map_Kept. intro o. destruct (String.eqb _ _); [apply Hf | reflexivity].
Qed.

(** X4: a pass of [assignObjectsToSkiAreas] that does not merge, however
    the requests of the callbacks of a batch are interleaved, adds no
    document; every document it leaves is a document of before with the
    same key, id, type and geometry, with [isInSkiAreaPolygon] still set
    if it was, with the ski areas it had, and not newly flagged as basis
    for a new ski area.  Without a removal rule the keys are the same. *)
Theorem assignment_pass_keeps options (schedule : Schedule) (store store' : Store) :
  mergeWithOtherSourceIfNearby options = false ->
  assignObjectsToSkiAreas mergeSkiAreaObjects options schedule store = Ok store' ->
  Evolves store store' /\
  incl (keys store') (keys store) /\
  (removeIfNoObjectsFound options = false ->
   removeIfSubstantialNumberOfObjectsInSkiAreaSite options = false ->
   keys store' = keys store).
Proof.
  intros Hm H. unfold assignObjectsToSkiAreas in H.
  apply bind_Ok in H. destruct H as [snapshot [_ H]].
  assert (H1 : Evolves store store' /\ incl (keys store') (keys store)).
  { refine (forEachBatch_Steps
              (fun s s1 => Evolves s s1 /\ incl (keys s1) (keys s))
              _ _ _ _ _ _ _ _ H).
    - intro s. split; [apply Evolves_refl | apply incl_refl].
    - intros a b c [E1 I1] [E2 I2]. split.
      + eapply Evolves_trans; eassumption.
      + eapply incl_tran; eassumption.
    - intro skiArea. apply Steps_assignObjectsToSkiArea.
      + intro s. split; [apply Evolves_refl | apply incl_refl].
      + intros _ k s s1 Hr. unfold collection_remove in Hr.
        destruct (has_key k s); inversion Hr; subst.
        split; [apply Evolves_filter|]. rewrite keys_remove.
        apply incl_filter_keys.
      + intros id' b members s. split.
        * apply Evolves_map. intro o. apply Kept_markOne.
        * rewrite keys_markSkiArea. apply incl_refl.
      + intros k acts s s1 Hu. split.
        * unfold collection_update in Hu.
          destruct (has_key k s); inversion Hu; subst.
          apply Evolves_map. intro o. apply Kept_patch_at.
          apply Kept_activitiesPatch.
        * rewrite (collection_update_keys k (activitiesPatch acts) s s1 (fun o => eq_refl) Hu).
          apply incl_refl.
      + intro Ht. rewrite Ht in Hm. discriminate. }
  split; [apply H1|]. split; [apply H1|].
  intros Hn Hs.
  refine (forEachBatch_Steps (fun s s1 => keys s1 = keys s)
            _ _ _ _ _ _ _ _ H).
  - reflexivity.
  - intros a b c E1 E2. congruence.
  - intro skiArea. apply Steps_assignObjectsToSkiArea.
    + reflexivity.
    + intros [Ht|Ht]; [rewrite Ht in Hn | rewrite Ht in Hs]; discriminate.
    + intros id' b members s. apply keys_markSkiArea.
    + intros k acts s s1 Hu.
      apply (collection_update_keys k (activitiesPatch acts) s s1 (fun o => eq_refl) Hu).
    + intro Ht. rewrite Ht in Hm. discriminate.
Qed.

End AssignmentPass.

Lemma assignment_pass_keeps_witness :
  assignObjectsToSkiAreas noMerge polygonPass nestedSchedule nestedStore
  = Ok nestedResult /\
  Evolves nestedStore nestedResult /\
  incl (keys nestedResult) (keys nestedStore).
Proof.
  split; [reflexivity|].
  destruct (assignment_pass_keeps noMerge polygonPass nestedSchedule nestedStore
              nestedResult) as (He & Hk & _).
  - reflexivity.
  - reflexivity.
  - split; [exact He | exact Hk].
Defined.

(** ** The end of the generation *)

Section GenerationEnd.
Context {geo : GeoLibrary}.
Variable uuid : nat -> string.

Lemma Survives_refl (store : Store) : Survives store store.
Proof. intros o Ho. exists o. split; [assumption | apply Kept_refl]. Qed.

Lemma Survives_trans (a b c : Store) :
  Survives a b -> Survives b c -> Survives a c.
Proof.
  intros H1 H2 o Ho. destruct (H1 _ Ho) as [o' [Ho' K1]].
  destruct (H2 _ Ho') as [o'' [Ho'' K2]]. exists o''. split; [assumption|].
  eapply Kept_trans; eassumption.
Qed.

Lemma Survives_map (f : MapObject -> MapObject) (store : Store) :
  (forall o, Kept o (f o)) -> Survives store (map f store).
Proof.
  intros Hf o Ho. exists (f o). split; [now apply in_map | apply Hf].
Qed.

Lemma Kept_notBasis (o : MapObject) : Kept o (notBasis o).
Proof. unfold Kept. simpl. repeat split; auto; [apply incl_refl | discriminate]. Qed.

Lemma generateSkiAreaForRun_Survives newSkiAreaID run (store store' : Store) :
  generateSkiAreaForRun newSkiAreaID run store = Ok store' ->
  Survives store store'.
Proof.
  intro H. destruct (generateSkiAreaForRun_seed _ _ _ _ H)
    as [-> | (acts & members & geom & _ & ->)].
  - apply Survives_map. intro o. destruct (String.eqb _ _);
      [apply Kept_notBasis | apply Kept_refl].
  - intros o Ho. exists (markOne newSkiAreaID false members o). split.
    + unfold markSkiArea. apply in_map. apply in_or_app. now left.
    + apply Kept_markOne.
Qed.

(** X12: when the loop over the unassigned runs ends normally, no
    document is flagged as basis for a new ski area any more, and every
    document that was there before is still there under its key, with
    its type and geometry, its [isInSkiAreaPolygon] not cleared and its
    ski area ids kept. *)
Theorem generation_ends_with_no_basis_left
    (fuel drawn : nat) (store store' : Store) :
  fst (generateSkiAreasForUnassignedObjects uuid fuel drawn store) = Ok store' ->
  (forall o, In o store' -> isBasisForNewSkiArea o = false) /\
  Survives store store'.
Proof.
  revert drawn store. induction fuel as [|fuel IH]; intros drawn store H;
    [discriminate|].
  destruct (nextUnassignedRun store) as [[run|]|e|] eqn:En.
  - destruct (generateSkiAreaForRun (uuid drawn) run store) as [store1|e|] eqn:Eg.
    + rewrite (generate_step_Ok _ _ _ _ _ _ En Eg) in H.
      destruct (IH _ _ H) as [Hb Hs]. split; [exact Hb|].
      eapply Survives_trans; [|exact Hs].
      eapply generateSkiAreaForRun_Survives; exact Eg.
    + rewrite (generate_step_Throw _ _ _ _ _ _ En Eg) in H. simpl in H.
      now apply IH in H.
    + simpl in H. rewrite En, Eg in H. discriminate.
  - simpl in H. rewrite En in H. inversion H; subst. split; [|apply Survives_refl].
    intros o Ho. unfold nextUnassignedRun in En.
    destruct (find isBasisForNewSkiArea store') as [r|] eqn:Ef.
    + destruct (List.length (activities r) =? 0); discriminate.
    + destruct (isBasisForNewSkiArea o) eqn:Eb; [|reflexivity].
      pose proof (find_none _ _ Ef o Ho) as Hf. congruence.
  - simpl in H. rewrite En in H. discriminate.
  - simpl in H. rewrite En in H. discriminate.
Qed.

End GenerationEnd.

Lemma generation_ends_with_no_basis_left_witness :
  (forall o, In o chainGenerated -> isBasisForNewSkiArea o = false) /\
  Survives chainStore chainGenerated.
Proof.
  refine (generation_ends_with_no_basis_left lineUuid 4 0 chainStore
            chainGenerated _).
  reflexivity.
Defined.

(** ** Augmentation *)

Section AugmentationMore.
Context {geo : GeoLibrary}.
Variable skiAreaStatistics : list MapObject -> Statistics.

Lemma forEachSkiArea_invariant_in (f : MapObject -> Store -> Result Store)
    (R : Store -> Store -> Prop) snapshot :
  (forall st, R st st) ->
  (forall a b c, R a b -> R b c -> R a c) ->
  (forall sa st st', In sa snapshot -> f sa st = Ok st' -> R st st') ->
  forall st st', forEachSkiArea f snapshot st = Ok st' -> R st st'.
Proof.
  intros Hrefl Htrans. induction snapshot as [|sa rest IH]; simpl;
    intros Hstep st st' H.
  - inversion H; subst. apply Hrefl.
  - apply bind_Ok in H. destruct H as [st1 [H1 H]].
    eapply Htrans; [eapply Hstep; [now left | exact H1]|].
    eapply IH; [|exact H]. intros x a b Hx. apply Hstep. now right.
Qed.

(** What augmenting one ski area leaves alone *)
Lemma augment_one_spares skiArea members geocoder (store store' : Store) :
  augmentSkiAreaBasedOnAssignedLiftsAndRuns skiAreaStatistics
    skiArea members geocoder store = Ok store' ->
  (forall o, In o store -> _key o <> _key skiArea -> _key o <> id skiArea ->
             In o store') /\
  (forall k, In k (keys store) -> k <> _key skiArea -> In k (keys store')) /\
  (members <> [] \/
   (exists p, properties skiArea = Some p /\
      existsb (fun src => SourceType_eqb (fst src) SKIMAP_ORG) (p_sources p) = true) ->
   keys store' = keys store).
Proof.
  intro H. split; [|split].
  - intros o Ho Hk Hi. apply augment_one_Ok in H.
    destruct H as [-> | [doc (_ & _ & ->)]].
    + apply filter_In. split; [exact Ho|]. apply negb_true_iff.
      destruct (String.eqb (_key o) (_key skiArea)) eqn:E; [|reflexivity].
      apply String.eqb_eq in E. contradiction.
    + apply in_map_iff. exists o. split; [|exact Ho].
      destruct (String.eqb (_key o) (id skiArea)) eqn:E; [|reflexivity].
      apply String.eqb_eq in E. contradiction.
  - intros k Hk Hne. apply augment_one_Ok in H.
    destruct H as [-> | [doc (_ & _ & ->)]].
    + rewrite keys_remove. apply filter_In. split; [exact Hk|].
      apply negb_true_iff. destruct (String.eqb k (_key skiArea)) eqn:E;
        [|reflexivity].
      apply String.eqb_eq in E. contradiction.
    + rewrite keys_map_Kept; [exact Hk|].
      intro o. destruct (String.eqb _ _); reflexivity.
  - intro Hcase. unfold augmentSkiAreaBasedOnAssignedLiftsAndRuns in H.
    apply bind_Ok in H. destruct H as [props [Hp H]].
    assert (Hkeep : (List.length members =? 0)
                    && negb (existsb (fun src => SourceType_eqb (fst src) SKIMAP_ORG)
                                     (p_sources props)) = false).
    { destruct Hcase as [Hm | [p [Hpp Hsrc]]].
      - destruct members; [contradiction | reflexivity].
      - unfold propertiesOf in Hp. rewrite Hpp in Hp. inversion Hp; subst.
        rewrite Hsrc. apply andb_false_r. }
    rewrite Hkeep in H.
    apply bind_Ok in H. destruct H as [newGeometry [_ H]].
    apply bind_Ok in H. destruct H as [loc [_ H]].
    apply collection_update_Ok in H. subst store'.
    apply keys_map_Kept. intro o. destruct (String.eqb _ _); reflexivity.
Qed.

(** X13: on a collection with distinct keys whose ski areas are stored
    under their id, augmentation leaves every lift and run as it is, never
    removes a ski area that has a Skimap.org source, and leaves no ski
    area with [isPolygon = true]. *)
Theorem augmentation_spares_lifts_and_runs
    (geocoder : option (Geometry -> option Location)) (store store' : Store) :
  NoDup (keys store) ->
  (forall sa, In sa store -> type sa = SkiArea -> id sa = _key sa) ->
  augmentSkiAreasBasedOnAssignedLiftsAndRuns skiAreaStatistics geocoder store
  = Ok store' ->
  (forall o, In o store -> type o <> SkiArea -> In o store') /\
  (forall sa p, In sa store -> type sa = SkiArea -> properties sa = Some p ->
     existsb (fun src => SourceType_eqb (fst src) SKIMAP_ORG) (p_sources p) = true ->
     In (_key sa) (keys store')) /\
  (forall o, In o store' -> type o = SkiArea -> isPolygon o = false).
Proof.
  intros Hnd Hid H.
  pose proof (augmentation_leaves_no_polygon _ _ _ _ Hid H) as Hnp.
  unfold augmentSkiAreasBasedOnAssignedLiftsAndRuns in H.
  apply bind_Ok in H. destruct H as [snapshot [Hs H]].
  unfold getSkiAreas in Hs. simpl in Hs. inversion Hs; subst snapshot; clear Hs.
  assert (Hsnap : forall x,
            In x (filter (skiAreasFilter {| gs_onlySource := None;
                                            gs_onlyPolygons := false;
                                            gs_onlyInPolygon := None |}) store) ->
            In x store /\ type x = SkiArea /\ id x = _key x).
  { intros x Hx. apply filter_In in Hx. destruct Hx as [Hin Hf].
    unfold skiAreasFilter in Hf. simpl in Hf.
    rewrite andb_true_r in Hf. rewrite andb_true_r in Hf.
    apply MapObjectType_eqb_eq in Hf. split; [exact Hin|].
    split; [exact Hf | now apply Hid]. }
  split; [|split; [|exact Hnp]].
  - intros o Ho Ht.
    cut (In o store -> In o store'); [intro Hc; now apply Hc|].
    eapply (forEachSkiArea_invariant_in _ (fun st st' => In o st -> In o st'));
      [intros st H0; exact H0
      |intros a b c H1 H2 H0; exact (H2 (H1 H0))
      |
      |exact H].
    intros x st st' Hx Hstep Hin. destruct (Hsnap x Hx) as (Hxs & Hxt & Hxi).
    assert (Hk : _key o <> _key x).
    { intro E. apply Ht.
      rewrite (same_key_same_document store o x Hnd Ho Hxs E). exact Hxt. }
    apply (proj1 (augment_one_spares _ _ _ _ _ Hstep)); [exact Hin | exact Hk|].
    now rewrite Hxi.
  - intros sa p Hsa Hta Hpa Hsrc.
    cut (In (_key sa) (keys store) -> In (_key sa) (keys store'));
      [intro Hc; apply Hc; now apply keys_In|].
    eapply (forEachSkiArea_invariant_in _
              (fun st st' => In (_key sa) (keys st) -> In (_key sa) (keys st')));
      [intros st H0; exact H0
      |intros a b c H1 H2 H0; exact (H2 (H1 H0))
      |
      |exact H].
    intros x st st' Hx Hstep Hin. destruct (Hsnap x Hx) as (Hxs & Hxt & Hxi).
    destruct (augment_one_spares _ _ _ _ _ Hstep) as (_ & Hother & Hown).
    destruct (String.eqb (_key sa) (_key x)) eqn:E.
    + apply String.eqb_eq in E.
      rewrite <- (same_key_same_document store sa x Hnd Hsa Hxs E) in Hown.
      rewrite Hown; [exact Hin|]. right. exists p. now split.
    + apply Hother; [exact Hin|]. intro Ek. rewrite Ek, String.eqb_refl in E.
      discriminate.
Qed.

(** X14: a geocoder that fails on the coordinates it is given leaves the
    location of the ski area as it was: the augmentation comes out as it
    does without a geocoder. *)
Theorem geocoder_failure_keeps_location
    (skiArea : MapObject) (members : list MapObject)
    (geocode : Geometry -> option Location) (store store' : Store) :
  (forall coordinates, geocode coordinates = None) ->
  augmentSkiAreaBasedOnAssignedLiftsAndRuns skiAreaStatistics
    skiArea members (Some geocode) store = Ok store' ->
  augmentSkiAreaBasedOnAssignedLiftsAndRuns skiAreaStatistics
    skiArea members None store = Ok store'.
Proof.
  intros Hfail H. unfold augmentSkiAreaBasedOnAssignedLiftsAndRuns in *.
  destruct (propertiesOf skiArea) as [props| |]; simpl in *; try discriminate.
  destruct ((List.length members =? 0) && _); [exact H|].
  destruct (if 0 <? List.length members
            then centroidGeometry (map geometry members)
            else Ok (geometry skiArea)) as [newGeometry| |];
    simpl in *; try discriminate.
  destruct (centroidGeometry [newGeometry]) as [coordinates| |];
    simpl in *; try discriminate.
  rewrite Hfail in H. exact H.
Qed.

End AugmentationMore.

Lemma NoDup_assignedStore : NoDup (keys assignedStore).
Proof. simpl. repeat constructor; simpl; intuition discriminate. Qed.

Lemma augmentation_spares_lifts_and_runs_witness :
  (forall o, In o assignedStore -> type o <> SkiArea -> In o assignedAugmented) /\
  (forall o, In o assignedAugmented -> type o = SkiArea -> isPolygon o = false).
Proof.
  destruct (augmentation_spares_lifts_and_runs countMembers None
              assignedStore assignedAugmented NoDup_assignedStore)
    as (H1 & _ & H3).
  - intros sa [<-|[<-|[]]] _; reflexivity.
  - reflexivity.
  - split; [exact H1 | exact H3].
Defined.

Lemma geocoder_failure_keeps_location_witness :
  augmentSkiAreaBasedOnAssignedLiftsAndRuns countMembers
    assignedA [assignedR] None assignedStore = Ok assignedUngeocoded.
Proof.
  refine (geocoder_failure_keeps_location countMembers assignedA [assignedR]
            (fun _ : Stretch => @None string) assignedStore assignedUngeocoded
            _ _).
  - intro c. reflexivity.
  - reflexivity.
Defined.

(** ** Keys stay distinct *)

Section KeyUniqueness.
Context {geo : GeoLibrary}.


End KeyUniqueness.

(** ** The members of a polygon *)

Section PolygonMembers.
Context {geo : GeoLibrary}.

Lemma filter_idem {A} (f : A -> bool) l : filter f (filter f l) = filter f l.
Proof.
  induction l as [|x l IH]; simpl; [reflexivity|].
  destruct (f x) eqn:E; simpl; [rewrite E; f_equal|]; exact IH.
Qed.

Lemma filter_filter_implied {A} (f g : A -> bool) l :
  (forall x, f x = true -> g x = true) ->
  filter f (filter g l) = filter f l.
Proof.
  intro Hfg. induction l as [|x l IH]; simpl; [reflexivity|].
  destruct (g x) eqn:Eg; simpl.
  - destruct (f x); [f_equal|]; exact IH.
  - destruct (f x) eqn:Ef; [|exact IH].
    rewrite (Hfg x Ef) in Eg. discriminate.
Qed.

(** Where the callback leaves ski areas out of the members *)
Lemma skiAreas_left_out (stored : list Activity) (members : list MapObject) :
  let others := filter (fun o => negb (is_type SkiArea o)) members in
  noObjectsFound members = (List.length others =? 0) /\
  liftsAndRunsOf members = liftsAndRunsOf others /\
  liftsAndRunsInSiteRelationOf members = liftsAndRunsInSiteRelationOf others /\
  clusteredActivities stored members = clusteredActivities stored others.
Proof.
  cbv zeta. split; [|split; [|split]].
  - unfold noObjectsFound. induction members as [|o l IH]; [reflexivity|].
    simpl. destruct (negb (is_type SkiArea o)); [reflexivity | exact IH].
  - unfold liftsAndRunsOf. symmetry. apply filter_filter_implied.
    intros o Ho. unfold isLiftOrRun, is_type in *.
    destruct (type o); simpl in *; try reflexivity; discriminate.
  - unfold liftsAndRunsInSiteRelationOf, liftsAndRunsOf. f_equal.
    symmetry. apply filter_filter_implied.
    intros o Ho. unfold isLiftOrRun, is_type in *.
    destruct (type o); simpl in *; try reflexivity; discriminate.
  - unfold clusteredActivities. now rewrite filter_idem.
Qed.

Lemma markOne_gains id' b (members : list MapObject) (o : MapObject) :
  _key (markOne id' b members o) = _key o /\
  type (markOne id' b members o) = type o /\
  (In id' (skiAreas (markOne id' b members o)) <->
   In id' (skiAreas o) \/ In (_key o) (keys members)) /\
  (In (_key o) (keys members) ->
   isInSkiAreaPolygon (markOne id' b members o) = isInSkiAreaPolygon o || b).
Proof.
  unfold markOne. destruct (str_in (_key o) (keys members)) eqn:E.
  - apply str_in_In in E. simpl.
    split; [reflexivity|]. split; [reflexivity|]. split; [|reflexivity].
    split; [tauto|]. intros _. unfold APPEND_unique.
    destruct (str_in id' (skiAreas o)) eqn:E2.
    + now apply str_in_In.
    + apply in_or_app. right. now left.
  - apply str_in_false in E.
    split; [reflexivity|]. split; [reflexivity|]. split; [tauto|].
    intro H. contradiction.
Qed.

(** C2, as the code has it: the callback of the polygon pass that keeps
    its ski area, run with no request of another callback in between,
    hands the whole result of the traversal to [markSkiArea]:
    the ski area itself first, then what the containment query returned,
    ski areas included, for the query does not look at the type.
    Afterwards a document lists the id exactly when it did before or its
    key is among these members, and the members are marked as lying in
    the polygon.  Ski areas among the members are left out only of the
    test for no objects, of the site ratio and of the activities. *)
Theorem polygonPass_marks_all_members
    (skiArea : MapObject) (props : SkiAreaProperties) (store store' : Store) :
  geometry_type (geometry skiArea) = Polygon \/
  geometry_type (geometry skiArea) = MultiPolygon ->
  clusterSkiArea polygonPass skiArea props store = Ok store' ->
  In (_key skiArea) (keys store') ->
  let seed := withActivitiesOf (activitiesForClusteringOf skiArea) skiArea in
  let context :=
    visitContextFor polygonPass props (activitiesForClusteringOf skiArea)
                    (Some (geometry skiArea)) in
  exists rest visited',
    traverse store context [_key skiArea] seed = Ok (seed :: rest, visited') /\
    (geometry_type (geometry skiArea) = Polygon ->
     arangoError (geometry skiArea) = None ->
     rest = filter (nearbyFilter (geometry skiArea) contains
                      (objectContextOf context seed) [_key skiArea]) store) /\
    (exists patch,
       (forall o, _key (patch o) = _key o /\ type (patch o) = type o /\
                  skiAreas (patch o) = skiAreas o /\
                  isInSkiAreaPolygon (patch o) = isInSkiAreaPolygon o) /\
       store' = map patch (markSkiArea (p_id props) true (seed :: rest) store)) /\
    (forall o', In o' store' ->
       exists o, In o store /\ _key o' = _key o /\ type o' = type o /\
         (In (p_id props) (skiAreas o') <->
          In (p_id props) (skiAreas o) \/ In (_key o) (keys (seed :: rest))) /\
         (In (_key o) (keys (seed :: rest)) -> isInSkiAreaPolygon o' = true)) /\
    (let others := filter (fun o => negb (is_type SkiArea o)) (seed :: rest) in
     noObjectsFound (seed :: rest) = (List.length others =? 0) /\
     liftsAndRunsOf (seed :: rest) = liftsAndRunsOf others /\
     liftsAndRunsInSiteRelationOf (seed :: rest)
     = liftsAndRunsInSiteRelationOf others /\
     clusteredActivities (p_activities props) (seed :: rest)
     = clusteredActivities (p_activities props) others).
Proof.
  intros Hgeom H Hkept seed context.
  unfold clusterSkiArea in H.
  assert (Hpoly : (if onlyInPolygon polygonPass
                   then match geometry_type (geometry skiArea) with
                        | Polygon | MultiPolygon => Ok (Some (geometry skiArea))
                        | _ => Throw SkiAreaGeometryMustBePolygon
                        end
                   else Ok None) = Ok (Some (geometry skiArea))).
  { simpl. destruct Hgeom as [-> | ->]; reflexivity. }
  rewrite Hpoly in H. cbn [bind] in H.
  apply bind_Ok in H. destruct H as [[members visited'] [Ht H]].
  fold seed in Ht. fold context in Ht.
  pose proof Ht as Hspec. unfold traverse in Hspec.
  apply visitObject_spec in Hspec. destruct Hspec as [rest [-> _]].
  exists rest, visited'. split; [exact Ht|].
  set (members := seed :: rest) in *.
  assert (Hpatch : exists patch,
            (forall o, _key (patch o) = _key o /\ type (patch o) = type o /\
                       skiAreas (patch o) = skiAreas o /\
                       isInSkiAreaPolygon (patch o) = isInSkiAreaPolygon o) /\
            store' = map patch (markSkiArea (p_id props) true members store)).
  { unfold assignMembers in H.
    assert (Hrem : forall st, collection_remove (_key skiArea) store = Ok st ->
                     ~ In (_key skiArea) (keys st)).
    { intros st Hst. unfold collection_remove in Hst.
      destruct (has_key _ store); inversion Hst; subst.
      rewrite keys_remove. intro Hin. apply filter_In in Hin.
      destruct Hin as [_ Hin]. rewrite String.eqb_refl in Hin. discriminate. }
    destruct (removeIfNoObjectsFound polygonPass && noObjectsFound members).
    { exfalso. now apply (Hrem store'). }
    destruct (removeIfSubstantialNumberOfObjectsInSkiAreaSite polygonPass
              && substantialNumberInSiteRelation members).
    { exfalso. now apply (Hrem store'). }
    cbv zeta in H. change (onlyInPolygon polygonPass) with true in H.
    destruct (0 <? List.length (activities skiArea)).
    - inversion H; subst. exists (fun o => o). split; [tauto|].
      now rewrite map_id.
    - unfold collection_update in H. destruct (has_key _ _); inversion H; subst.
      exists (fun o => if String.eqb (_key o) (_key skiArea)
                       then activitiesPatch
                              (clusteredActivities (p_activities props) members) o
                       else o).
      split; [|reflexivity].
      intro o. destruct (String.eqb _ _); simpl; tauto. }
  split.
  { intros Hp Herr. unfold traverse in Ht. cbn [visitObject] in Ht.
    change (searchPolygon context) with (Some (geometry skiArea)) in Ht.
    cbv beta iota in Ht. rewrite Hp in Ht.
    unfold visitPolygon in Ht.
    change (searchPolygon (objectContextOf context seed))
      with (Some (geometry skiArea)) in Ht.
    cbv beta iota zeta in Ht. unfold findNearbyObjects in Ht.
    rewrite Herr in Ht. cbn [bind] in Ht. inversion Ht. reflexivity. }
  split; [exact Hpatch|].
  split.
  { destruct Hpatch as [patch [Hp ->]]. intros o' Ho'.
    apply in_map_iff in Ho'. destruct Ho' as [o1 [<- Ho1]].
    unfold markSkiArea in Ho1. apply in_map_iff in Ho1.
    destruct Ho1 as [o [<- Ho]]. exists o. split; [exact Ho|].
    destruct (Hp (markOne (p_id props) true members o)) as (Pk & Pt & Ps & Pi).
    destruct (markOne_gains (p_id props) true members o) as (Mk & Mt & Ms & Mi).
    rewrite Pk, Pt, Ps, Pi. split; [exact Mk|]. split; [exact Mt|].
    split; [exact Ms|]. intro Hin. rewrite (Mi Hin). apply orb_true_r. }
  apply skiAreas_left_out.
Qed.

End PolygonMembers.

Lemma polygonPass_marks_all_members_witness :
  exists rest visited',
    traverse polygonStore
      (visitContextFor polygonPass polygonAreaProps
         (activitiesForClusteringOf polygonArea) (Some (geometry polygonArea)))
      [_key polygonArea]
      (withActivitiesOf (activitiesForClusteringOf polygonArea) polygonArea)
    = Ok (withActivitiesOf (activitiesForClusteringOf polygonArea) polygonArea
          :: rest, visited').
Proof.
  destruct (polygonPass_marks_all_members polygonArea polygonAreaProps
              polygonStore polygonPassResult) as (rest & visited' & Ht & _).
  - left. reflexivity.
  - reflexivity.
  - apply str_in_In. reflexivity.
  - exists rest, visited'. exact Ht.
Defined.

(** ** The record of a generated ski area *)

Section GeneratedSkiArea.
Context {geo : GeoLibrary}.

Lemma markOne_marked id' b (members : list MapObject) (m : MapObject) :
  In m members -> markOne id' b members m = marked id' b m.
Proof.
  intro Hm. unfold markOne.
  assert (Hk : str_in (_key m) (keys members) = true)
    by (apply str_in_In; now apply keys_In).
  now rewrite Hk.
Qed.

(** The run itself passes the lift check whenever an activity is left. *)
Lemma downhillNeedsLift_keeps_seed (run : MapObject) rest acts members :
  downhillNeedsLift (filter (includes allSkiAreaActivities) (activities run))
                    (run :: rest) = (acts, members) ->
  acts <> [] -> In run members.
Proof.
  intros Ed Hne. unfold downhillNeedsLift in Ed.
  destruct (includes _ Downhill && negb (existsb (is_type Lift) (run :: rest)));
    injection Ed as Ea Em; subst members; [|now left].
  assert (Hrun : hasAnotherActivity run = true).
  { apply hasAnotherActivity_spec.
    destruct acts as [|a0 acts']; [contradiction|].
    assert (Ha0 : In a0 (a0 :: acts')) by now left.
    rewrite <- Ea in Ha0. apply filter_In in Ha0. destruct Ha0 as [Ha0 Hnd].
    apply not_Downhill_iff in Hnd. apply filter_In in Ha0.
    destruct Ha0 as [Hr Hall]. apply includes_In in Hall.
    exists a0. tauto. }
  simpl. rewrite Hrun. now left.
Qed.

(** A ski area is only saved under a key that is not in use. *)
Lemma generateSkiAreaForRun_keys newSkiAreaID run (store store' : Store) :
  generateSkiAreaForRun newSkiAreaID run store = Ok store' ->
  keys store' = keys store \/
  (~ In newSkiAreaID (keys store) /\ keys store' = keys store ++ [newSkiAreaID]).
Proof.
  unfold generateSkiAreaForRun. intro H.
  apply bind_Ok in H. destruct H as [[found visited'] [_ H]].
  destruct (downhillNeedsLift _ found) as [acts members].
  destruct ((List.length acts =? 0) || (List.length members =? 0)).
  - left. apply collection_update_Ok in H. subst store'.
    apply keys_map_Kept. intro o. destruct (String.eqb _ _); reflexivity.
  - right. unfold createGeneratedSkiArea in H.
    destruct (centroid (map geometry members)) as [geom|]; [|discriminate].
    unfold collection_save in H. simpl in H.
    destruct (has_key newSkiAreaID store) eqn:Ek; [discriminate|].
    simpl in H. inversion H; subst. split.
    + now apply str_in_false.
    + rewrite keys_markSkiArea. unfold keys. rewrite map_app. reflexivity.
Qed.

(** C3: when [generateSkiAreaForRun] returns normally it has either
    created nothing, cleared the flag of the run and left every other
    document alone, or saved a ski area under the new id whose activities
    are a non-empty part of the run's among Downhill and Nordic.  Then the
    run lists the new id; with Downhill among the activities a lift lists
    it; when Downhill was dropped for want of a lift, every document that
    lists it, the record apart, has another ski area activity; and no
    document that lists it is still flagged. *)
Theorem generated_ski_area_invariants
    (newSkiAreaID : string) (unassignedRun : MapObject) (store store' : Store) :
  NoDup (keys store) ->
  In unassignedRun store ->
  (forall o, In o store -> ~ In newSkiAreaID (skiAreas o)) ->
  generateSkiAreaForRun newSkiAreaID unassignedRun store = Ok store' ->
  exists found visited',
    traverse store
      {| ctx_id := newSkiAreaID;
         ctx_activities :=
           filter (includes allSkiAreaActivities) (activities unassignedRun);
         excludeObjectsAlreadyInSkiAreaPolygon := false;
         searchPolygon := None |}
      [_key unassignedRun] unassignedRun = Ok (found, visited') /\
  ((~ In Nordic (activities unassignedRun) /\
    (In Downhill (activities unassignedRun) ->
     forall m, In m found -> type m <> Lift) /\
    store' = map (fun o => if String.eqb (_key o) (_key unassignedRun)
                           then notBasis o else o) store /\
    (forall o, In o store' -> ~ In newSkiAreaID (skiAreas o)) /\
    (forall o, In o store' -> _key o = _key unassignedRun ->
               isBasisForNewSkiArea o = false))
   \/
   ((In Nordic (activities unassignedRun) \/
     (In Downhill (activities unassignedRun) /\
      exists m, In m found /\ type m = Lift)) /\
    exists record p,
      In record store' /\ _key record = newSkiAreaID /\ type record = SkiArea /\
      ~ In newSkiAreaID (keys store) /\
      properties record = Some p /\ p_generated p = true /\
      p_activities p = activities record /\
      activities record <> [] /\
      (forall a, In a (activities record) ->
                 (a = Downhill \/ a = Nordic) /\ In a (activities unassignedRun)) /\
      (exists seed, In seed store' /\ _key seed = _key unassignedRun /\
                    type seed = type unassignedRun /\
                    In newSkiAreaID (skiAreas seed)) /\
      (In Downhill (activities record) ->
       exists lift, In lift store' /\ type lift = Lift /\
                    In newSkiAreaID (skiAreas lift)) /\
      (In Downhill (activities unassignedRun) ->
       ~ In Downhill (activities record) ->
       forall o, In o store' -> In newSkiAreaID (skiAreas o) ->
         o = record \/
         exists a, In a (activities o) /\ a <> Downhill /\
                   In a allSkiAreaActivities) /\
      (forall o, In o store' -> In newSkiAreaID (skiAreas o) ->
                 isBasisForNewSkiArea o = false) /\
      (In Downhill (activities unassignedRun) ->
       (exists m, In m found /\ type m = Lift) ->
       In Downhill (activities record)))).
Proof.
  intros Hnodup Hrun Hfresh H.
  pose proof (generateSkiAreaForRun_keys _ _ _ _ H) as Hkeys.
  destruct (generateSkiAreaForRun_cases _ _ _ _ H)
    as (found & visited' & acts & members & Ht & Ed & Hcases).
  exists found, visited'. split; [exact Ht|].
  pose proof Ht as Hspec. unfold traverse in Hspec.
  apply visitObject_spec in Hspec. destruct Hspec as [rest [Hfound Hd]].
  destruct Hd as (_ & _ & Hrest).
  destruct (downhillNeedsLift_spec _ _ _ _ Ed) as (Hincl & Hlift & Hdrop & Hkeep).
  assert (Hnordic : In Nordic (activities unassignedRun) ->
                    acts <> [] /\ members <> []).
  { intro Hn.
    assert (Hn0 : In Nordic (filter (includes allSkiAreaActivities)
                                    (activities unassignedRun))).
    { apply filter_In. split; [assumption | reflexivity]. }
    assert (Hr : hasAnotherActivity unassignedRun = true).
    { apply hasAnotherActivity_spec. exists Nordic.
      split; [assumption|]. split; [discriminate | right; now left]. }
    unfold downhillNeedsLift in Ed. rewrite Hfound in Ed.
    destruct (includes _ Downhill
              && negb (existsb (is_type Lift) (unassignedRun :: rest)));
      injection Ed as Ea Em; subst acts members.
    - split.
      + intro E.
        assert (Hin : In Nordic (filter (fun a => negb (Activity_eqb a Downhill))
                      (filter (includes allSkiAreaActivities)
                              (activities unassignedRun)))).
        { apply filter_In. split; [assumption | reflexivity]. }
        rewrite E in Hin. contradiction.
      + simpl. rewrite Hr. discriminate.
    - split; [intro E; rewrite E in Hn0; contradiction | discriminate]. }
  assert (Hwithlift : In Downhill (activities unassignedRun) ->
                      (exists m, In m found /\ type m = Lift) ->
                      acts <> [] /\ members <> []).
  { intros Hdown Hex.
    assert (Hd0 : In Downhill (filter (includes allSkiAreaActivities)
                                      (activities unassignedRun))).
    { apply filter_In. split; [assumption | reflexivity]. }
    destruct Hkeep as [Ea Em]; [now right|]. subst acts members.
    split; [intro E; rewrite E in Hd0; contradiction|].
    rewrite Hfound. discriminate. }
  destruct Hcases as [[Hempty ->] | (Hacts & Hmem & geom & Hc & ->)].
  { left. split.
    { intro Hn. destruct (Hnordic Hn). tauto. }
    split.
    { intros Hdown m Hm Hty. destruct (Hwithlift Hdown); [now exists m|]. tauto. }
    split; [reflexivity|]. split.
    - intros o Ho. apply in_map_iff in Ho. destruct Ho as [o0 [<- Ho0]].
      destruct (String.eqb _ _); simpl; now apply Hfresh.
    - intros o Ho Hk. apply in_map_iff in Ho. destruct Ho as [o0 [<- Ho0]].
      destruct (String.eqb (_key o0) (_key unassignedRun)) eqn:E; [reflexivity|].
      rewrite Hk, String.eqb_refl in E. discriminate. }
  right. split.
  { destruct acts as [|a acts'] eqn:Eacts; [contradiction|].
    assert (Ha : In a (filter (includes allSkiAreaActivities)
                              (activities unassignedRun))).
    { apply Hincl. now left. }
    apply filter_In in Ha. destruct Ha as [Hr Ha]. apply includes_In in Ha.
    apply allSkiAreaActivities_In in Ha. destruct Ha as [-> | ->]; [|now left].
    right. split; [exact Hr|].
    destruct (Hlift (or_introl eq_refl)) as [m [Hm Hty]]. exists m.
    split; [|exact Hty]. unfold downhillNeedsLift in Ed.
    destruct (includes _ Downhill && negb (existsb (is_type Lift) found));
      inversion Ed; subst; [|exact Hm].
    apply filter_In in Hm. tauto. }
  set (draft := draftSkiArea newSkiAreaID acts geom) in *.
  set (record := markOne newSkiAreaID false members draft).
  assert (Hnew : ~ In newSkiAreaID (keys store)).
  { destruct Hkeys as [Hk | [Hk _]]; [|exact Hk].
    exfalso. apply (f_equal (@List.length string)) in Hk.
    rewrite keys_markSkiArea in Hk. unfold keys in Hk.
    rewrite !length_map, length_app in Hk. simpl in Hk. lia. }
  (* the members are the run and documents of the store *)
  assert (Hfound_store : forall m, In m found -> In m store).
  { intros m Hm. rewrite Hfound in Hm. destruct Hm as [<-|Hm]; [exact Hrun|].
    now apply Hrest. }
  assert (Hmembers : forall m, In m members -> In m found).
  { intros m Hm. unfold downhillNeedsLift in Ed.
    destruct (includes _ Downhill && negb (existsb (is_type Lift) found));
      inversion Ed; subst; [|exact Hm].
    apply filter_In in Hm. tauto. }
  assert (Hseed : In unassignedRun members).
  { rewrite Hfound in Ed. now apply (downhillNeedsLift_keeps_seed _ rest acts). }
  assert (Hmarked : forall m, In m members ->
            In (marked newSkiAreaID false m)
               (markSkiArea newSkiAreaID false members (store ++ [draft]))).
  { intros m Hm. unfold markSkiArea. apply in_map_iff. exists m.
    split; [now apply markOne_marked|].
    apply in_or_app. left. apply Hfound_store. now apply Hmembers. }
  (* a document of the store that lists the new id afterwards is a member *)
  assert (Hlisting : forall o,
            In o (markSkiArea newSkiAreaID false members (store ++ [draft])) ->
            In newSkiAreaID (skiAreas o) ->
            o = record \/
            exists m, In m members /\ o = marked newSkiAreaID false m).
  { intros o Ho Hid. unfold markSkiArea in Ho. apply in_map_iff in Ho.
    destruct Ho as [x [<- Hx]]. apply in_app_or in Hx.
    destruct Hx as [Hx | [<-|[]]]; [|now left].
    right. unfold markOne in *.
    destruct (str_in (_key x) (keys members)) eqn:E.
    - apply str_in_In in E. unfold keys in E. apply in_map_iff in E.
      destruct E as [m [Hk Hm]]. exists m. split; [exact Hm|].
      f_equal. symmetry.
      apply (same_key_same_document store m x Hnodup); auto.
    - exfalso. now apply (Hfresh x Hx). }
  pose proof (markOne_fields newSkiAreaID false members draft) as F.
  simpl in F. destruct F as (Fk & Fi & Ft & Fg & Fp & Fs & Fprops & Fa).
  exists record, {| p_id := newSkiAreaID; p_name := None; p_generated := true;
                    p_activities := acts; p_status := Operating;
                    p_sources := [];
                    p_runConvention := getRunConvention geom;
                    p_website := None; p_location := None;
                    p_statistics := None |}.
  split.
  { unfold markSkiArea. rewrite map_app. apply in_or_app. right. now left. }
  split; [exact Fk|]. split; [exact Ft|]. split; [exact Hnew|].
  split; [exact Fprops|]. split; [reflexivity|].
  fold record in Fa. rewrite Fa. simpl.
  split; [reflexivity|]. split; [exact Hacts|]. split.
  { intros a Ha. apply Hincl in Ha. apply filter_In in Ha. destruct Ha as [Hr Ha].
    apply includes_In in Ha. split; [now apply allSkiAreaActivities_In | exact Hr]. }
  split.
  { exists (marked newSkiAreaID false unassignedRun).
    split; [now apply Hmarked|]. split; [reflexivity|]. split; [reflexivity|].
    simpl. apply APPEND_unique_In. }
  split.
  { intro Hdown. destruct (Hlift Hdown) as [m [Hm Hty]].
    exists (marked newSkiAreaID false m).
    split; [now apply Hmarked|]. split; [exact Hty|].
    simpl. apply APPEND_unique_In. }
  split.
  { intros Hdown0 Hnodown o Ho Hid.
    destruct (Hlisting o Ho Hid) as [-> | [m [Hm ->]]]; [now left|]. right.
    assert (Hd0 : In Downhill (filter (includes allSkiAreaActivities)
                                      (activities unassignedRun))).
    { apply filter_In. split; [assumption | reflexivity]. }
    assert (Hno : forall x, In x found -> type x <> Lift).
    { apply no_lift_spec. destruct (existsb (is_type Lift) found) eqn:El;
        [|reflexivity]. exfalso. apply existsb_exists in El.
      destruct El as [x [Hx Hty]]. apply MapObjectType_eqb_eq in Hty.
      destruct Hkeep as [Ea _]; [right; now exists x|].
      apply Hnodown. now rewrite Ea. }
    destruct (Hdrop Hd0 Hno) as (_ & Hmf & _).
    rewrite Hmf in Hm. apply filter_In in Hm. destruct Hm as [_ Hm].
    simpl. now apply hasAnotherActivity_spec. }
  split.
  { intros o Ho Hid.
    destruct (Hlisting o Ho Hid) as [-> | [m [Hm ->]]]; [|reflexivity].
    unfold record, markOne. destruct (str_in _ _); reflexivity. }
  intros Hdown Hex. destruct Hkeep as [Ea _]; [now right|].
  rewrite Ea. apply filter_In. split; [assumption | reflexivity].
Qed.

End GeneratedSkiArea.

Lemma generated_ski_area_invariants_witness :
  generateSkiAreaForRun "g" liftRun liftStore = Ok liftGenerated /\
  exists record lift,
    In record liftGenerated /\ _key record = "g" /\
    In Downhill (activities record) /\
    In lift liftGenerated /\ type lift = Lift /\ In "g" (skiAreas lift).
Proof.
  split; [reflexivity|].
  destruct (generated_ski_area_invariants "g" liftRun liftStore liftGenerated)
    as (found & visited' & Ht &
        [(_ & _ & _ & Hnone & _) |
         (_ & record & p & Hin & Hk & _ & _ & _ & _ & _ & _ & _ & _ & Hlift & _ & _ & Hkeep)]).
  - repeat constructor; simpl; intuition discriminate.
  - left. reflexivity.
  - intros o [<-|[<-|[]]]; simpl; tauto.
  - reflexivity.
  - exfalso. apply (Hnone (markOne "g" false liftStore liftRun)).
    + left. reflexivity.
    + left. reflexivity.
  - assert (Hd : In Downhill (activities record)).
    { apply Hkeep; [left; reflexivity|].
      exists (feature Lift "L" (pointAt 300) [Downhill] false).
      split; [|reflexivity].
      assert (Hf : traverse liftStore
                {| ctx_id := "g";
                   ctx_activities :=
                     filter (includes allSkiAreaActivities) (activities liftRun);
                   excludeObjectsAlreadyInSkiAreaPolygon := false;
                   searchPolygon := None |}
                [_key liftRun] liftRun
              = Ok ([liftRun; feature Lift "L" (pointAt 300) [Downhill] false],
                    ["R"; "L"])) by reflexivity.
      rewrite Hf in Ht. injection Ht as <- _. right. left. reflexivity. }
    destruct (Hlift Hd) as (lift & Hl & Htl & Hsl).
    exists record, lift. tauto.
Defined.

(** ** The loop over the unassigned runs, iteration by iteration *)

Section Iterations.
Context {geo : GeoLibrary}.




(** *** When the iterations cannot fail *)

Section Succeeding.
Variable store : Store.
Hypothesis buffers_are_polygons :
  forall g area, bufferGeometry g maxDistanceInKilometers = Some area ->
    geometry_type area = Polygon \/ geometry_type area = MultiPolygon.
Hypothesis queries_are_answered :
  forall area, arangoError area <> Some OtherArangoError.





Hypothesis centroid_exists : forall gs, gs <> [] -> centroid gs <> None.


End Succeeding.

End Iterations.

Section Loop.
Context {geo : GeoLibrary}.
Variable uuid : nat -> string.






(** *** Termination *)



End Loop.








(** ** A second run of the pipeline *)

Section SecondRun.
Context {geo : GeoLibrary}.
Variable mergeSkiAreaObjects : list MapObject -> option MapObject.
Variable uuid : nat -> string.
Variable skiAreaStatistics : list MapObject -> Statistics.

(** An assignment pass flags no document, however its callbacks are
    interleaved, when the composer of merged ski areas flags none. *)
Lemma assignment_pass_flags_nothing options (schedule : Schedule)
    (store store' : Store) :
  (forall l merged, mergeSkiAreaObjects l = Some merged ->
                    isBasisForNewSkiArea merged = false) ->
  assignObjectsToSkiAreas mergeSkiAreaObjects options schedule store = Ok store' ->
  Unflagged store -> Unflagged store'.
Proof.
  intros Hmerge H. unfold assignObjectsToSkiAreas in H.
  apply bind_Ok in H. destruct H as [snapshot [_ H]].
  refine (forEachBatch_Steps (fun s s1 => Unflagged s -> Unflagged s1)
            _ _ _ _ _ _ _ _ H).
  - tauto.
  - intros a b c H1 H2 Ha. auto.
  - intro skiArea.
    apply (Steps_assignObjectsToSkiArea mergeSkiAreaObjects
             (fun s s1 => Unflagged s -> Unflagged s1)).
    + tauto.
    + intros _ k s s1 Hr Hs o Ho. unfold collection_remove in Hr.
      destruct (has_key k s); inversion Hr; subst.
      apply filter_In in Ho. apply Hs. tauto.
    + intros id' b members s Hs o Ho. unfold markSkiArea in Ho.
      apply in_map_iff in Ho. destruct Ho as [x [<- Hx]].
      destruct (isBasisForNewSkiArea (markOne id' b members x)) eqn:E;
        [|reflexivity].
      apply markOne_basis in E. rewrite (Hs x Hx) in E. discriminate.
    + intros k acts s s1 Hu Hs o Ho. apply collection_update_Ok in Hu. subst s1.
      apply in_map_iff in Ho. destruct Ho as [x [<- Hx]].
      destruct (String.eqb _ _); simpl; now apply Hs.
    + intros _. split; [|split].
      * intros l merged s s1 Hm Hu Hs o Ho. apply collection_update_Ok in Hu.
        subst s1. apply in_map_iff in Ho. destruct Ho as [x [<- Hx]].
        destruct (String.eqb _ _); [now apply (Hmerge l) | now apply Hs].
      * intros ids k s Hs o Ho. unfold updateReferences in Ho.
        apply in_map_iff in Ho. destruct Ho as [x [<- Hx]].
        destruct (ANY_IN _ _); simpl; now apply Hs.
      * intros ids s Hs o Ho. unfold collection_removeByKeys in Ho.
        apply filter_In in Ho. apply Hs. tauto.
Qed.

Lemma generation_of_nothing fuel drawn (store : Store) :
  Unflagged store ->
  generateSkiAreasForUnassignedObjects uuid (S fuel) drawn store = (Ok store, []).
Proof.
  intro Hs. simpl. unfold nextUnassignedRun.
  destruct (find isBasisForNewSkiArea store) as [r|] eqn:E; [|reflexivity].
  apply find_some in E. destruct E as [Hin Hb].
  rewrite (Hs r Hin) in Hb. discriminate.
Qed.

(** C9, as far as it holds: augmentation leaves no ski area with
    [isPolygon = true], so on the collection that a first run leaves
    behind, with no document flagged as basis for a new ski area and a
    composer that flags none, the removal of ambiguous duplicates and the
    polygon pass find nothing to do and the generation finds no run,
    under every schedule: the second run is its two nearby passes
    followed by the augmentation. *)
Theorem second_run_skips_polygons_and_generation
    (geocoder : option (Geometry -> option Location))
    (store4 store : Store) (polygons nearby skimap : Schedule)
    (fuel drawn : nat) :
  (forall o, In o store4 -> type o = SkiArea -> id o = _key o) ->
  augmentSkiAreasBasedOnAssignedLiftsAndRuns skiAreaStatistics geocoder store4
  = Ok store ->
  (forall o, In o store -> isBasisForNewSkiArea o = false) ->
  (forall l merged, mergeSkiAreaObjects l = Some merged ->
                    isBasisForNewSkiArea merged = false) ->
  removeAmbiguousDuplicateSkiAreas store = Ok store /\
  assignObjectsToSkiAreas mergeSkiAreaObjects polygonPass polygons store
  = Ok store /\
  (forall store2 store3,
     assignObjectsToSkiAreas mergeSkiAreaObjects nearbyPass nearby store
     = Ok store2 ->
     assignObjectsToSkiAreas mergeSkiAreaObjects skimapPass skimap store2
     = Ok store3 ->
     generateSkiAreasForUnassignedObjects uuid (S fuel) drawn store3
     = (Ok store3, [])) /\
  clusterArangoGraph mergeSkiAreaObjects uuid skiAreaStatistics
    polygons nearby skimap (S fuel) drawn geocoder store
  = (store2 <- assignObjectsToSkiAreas mergeSkiAreaObjects nearbyPass nearby store ;;
     store3 <- assignObjectsToSkiAreas mergeSkiAreaObjects skimapPass skimap store2 ;;
     augmentSkiAreasBasedOnAssignedLiftsAndRuns skiAreaStatistics geocoder store3).
Proof.
  intros Hid Haug Hbasis Hmerge.
  pose proof (augmentation_leaves_no_polygon _ _ _ _ Hid Haug) as Hnp.
  assert (H0 : removeAmbiguousDuplicateSkiAreas store = Ok store).
  { unfold removeAmbiguousDuplicateSkiAreas.
    rewrite (getSkiAreas_no_polygons _ _ Hnp). reflexivity. }
  assert (H1 : assignObjectsToSkiAreas mergeSkiAreaObjects polygonPass polygons
                 store = Ok store).
  { apply assignObjectsToSkiAreas_none.
    exact (getSkiAreas_no_polygons _ _ Hnp). }
  assert (H4 : forall store2 store3,
            assignObjectsToSkiAreas mergeSkiAreaObjects nearbyPass nearby store
            = Ok store2 ->
            assignObjectsToSkiAreas mergeSkiAreaObjects skimapPass skimap store2
            = Ok store3 ->
            generateSkiAreasForUnassignedObjects uuid (S fuel) drawn store3
            = (Ok store3, [])).
  { intros store2 store3 H2 H3. apply generation_of_nothing.
    apply (assignment_pass_flags_nothing _ _ _ _ Hmerge H3).
    apply (assignment_pass_flags_nothing _ _ _ _ Hmerge H2).
    exact Hbasis. }
  split; [exact H0|]. split; [exact H1|]. split; [exact H4|].
  unfold clusterArangoGraph. rewrite H0. cbn [bind]. rewrite H1. cbn [bind].
  destruct (assignObjectsToSkiAreas mergeSkiAreaObjects nearbyPass nearby store)
    as [store2| |] eqn:E2; try reflexivity.
  cbn [bind].
  destruct (assignObjectsToSkiAreas mergeSkiAreaObjects skimapPass skimap store2)
    as [store3| |] eqn:E3; try reflexivity.
  cbn [bind]. rewrite (H4 store2 store3 eq_refl E3). reflexivity.
Qed.

End SecondRun.

Lemma second_run_skips_polygons_and_generation_witness :
  removeAmbiguousDuplicateSkiAreas assignedAugmented = Ok assignedAugmented /\
  assignObjectsToSkiAreas noMerge polygonPass [] assignedAugmented
  = Ok assignedAugmented.
Proof.
  destruct (second_run_skips_polygons_and_generation noMerge lineUuid countMembers
              None assignedStore assignedAugmented [] [] [] 0 0)
    as (H0 & H1 & _).
  - intros o [<-|[<-|[]]] _; reflexivity.
  - reflexivity.
  - intros o [<-|[<-|[]]]; reflexivity.
  - intros l merged H. discriminate.
  - split; [exact H0 | exact H1].
Defined.

(** C9 as stated fails: the first run over [hopStore] generates the ski
    area [g] for the run [R1] and the lift [L2] and leaves the nordic
    run [X], 700 m from [R1], without a ski area; no document is
    flagged afterwards.  The second run starts the nearby pass from the
    centroid of [R1] and [L2], which augmentation has made the geometry
    of [g], 500 m from [X], and assigns [X] to [g].  No pass has more
    than one callback, so the schedules do not matter. *)
Lemma second_run_changes_store :
  runLine 5 0 hopStore = Ok hopFirst /\
  existsb isBasisForNewSkiArea hopFirst = false /\
  runLine 5 1 hopFirst = Ok hopSecond /\
  option_map skiAreas (document "X" hopFirst) = Some [] /\
  option_map skiAreas (document "X" hopSecond) = Some ["g"] /\
  hopSecond <> hopFirst.
Proof.
  split; [reflexivity|]. split; [reflexivity|]. split; [reflexivity|].
  assert (H1 : option_map skiAreas (document "X" hopFirst) = Some [])
    by reflexivity.
  assert (H2 : option_map skiAreas (document "X" hopSecond) = Some ["g"])
    by reflexivity.
  split; [exact H1|]. split; [exact H2|].
  intro E.
  assert (H3 : option_map skiAreas (document "X" hopSecond)
               = option_map skiAreas (document "X" hopFirst))
    by (rewrite E; reflexivity).
  assert (Hc : Some ["g"] = Some (@nil string))
    by exact (eq_trans (eq_sym H2) (eq_trans H3 H1)).
  discriminate Hc.
Defined.

(** ** References to merged ski areas *)


(** ** Errors of the store *)

Lemma prefix_app (a b : string) : String.prefix a (a ++ b) = true.
Proof.
  induction a as [|c a IH]; simpl.
  - destruct b; reflexivity.
  - destruct (Ascii.ascii_dec c c) as [_|Hn]; [exact IH | now elim Hn].
Qed.

Lemma prefix_split (a s : string) :
  String.prefix a s = true -> exists post, s = (a ++ post)%string.
Proof.
  revert s. induction a as [|c a IH]; intros s H.
  - exists s. reflexivity.
  - destruct s as [|d s]; simpl in H; [discriminate|].
    destruct (Ascii.ascii_dec c d) as [->|]; [|discriminate].
    destruct (IH s H) as [post ->]. exists post. reflexivity.
Qed.

Lemma includesString_unfold (needle haystack : string) :
  includesString needle haystack =
  String.prefix needle haystack
  || match haystack with
     | EmptyString => false
     | String _ rest => includesString needle rest
     end.
Proof. destruct haystack; reflexivity. Qed.

Lemma includesString_spec (needle haystack : string) :
  includesString needle haystack = true <->
  exists pre post, haystack = (pre ++ needle ++ post)%string.
Proof.
  split.
  - induction haystack as [|c rest IH]; rewrite includesString_unfold; intro H.
    + rewrite orb_false_r in H. apply prefix_split in H.
      destruct H as [post ->]. exists "", post. reflexivity.
    + apply orb_true_iff in H. destruct H as [H|H].
      * apply prefix_split in H. destruct H as [post ->].
        exists "", post. reflexivity.
      * destruct (IH H) as [pre [post ->]].
        exists (String c pre), post. reflexivity.
  - intros [pre [post ->]]. induction pre as [|c pre IH].
    + rewrite includesString_unfold.
      change ("" ++ needle ++ post)%string with (needle ++ post)%string.
      rewrite prefix_app. reflexivity.
    + change (String c pre ++ needle ++ post)%string
        with (String c (pre ++ needle ++ post)).
      rewrite includesString_unfold. cbv beta iota.
      rewrite IH. apply orb_true_r.
Qed.

(** X16: an error of the store counts as an invalid geometry exactly
    when its message contains one of the three phrases, whatever stands
    before and after the phrase. *)
Theorem isInvalidGeometryError_spec (errorMessage : string) :
  isInvalidGeometryError errorMessage = true <->
  exists phrase pre post,
    In phrase invalidGeometryPhrases /\
    errorMessage = (pre ++ phrase ++ post)%string.
Proof.
  unfold isInvalidGeometryError, invalidGeometryPhrases.
  rewrite !orb_true_iff, !includesString_spec. split.
  - intros [[[pre [post H]]|[pre [post H]]]|[pre [post H]]];
      eexists; exists pre, post; (split; [|exact H]); simpl; auto.
  - intros [phrase [pre [post [[<-|[<-|[<-|[]]]] H]]]];
      [left; left | left; right | right]; now exists pre, post.
Qed.

Section StoreErrors.
Context {geo : GeoLibrary}.

(** X17: in the polygon pass a ski area whose polygon the store rejects
    as invalid is treated as a ski area without objects and removed; any
    other error of the store for that polygon leaves the callback as an
    exception. *)
Theorem polygonPass_with_rejected_polygon
    (skiArea : MapObject) (props : SkiAreaProperties) (store : Store) :
  type skiArea = SkiArea ->
  geometry_type (geometry skiArea) = Polygon ->
  (arangoError (geometry skiArea) = Some InvalidGeometryError ->
   clusterSkiArea polygonPass skiArea props store
   = collection_remove (_key skiArea) store) /\
  (arangoError (geometry skiArea) = Some OtherArangoError ->
   clusterSkiArea polygonPass skiArea props store = Throw QueryFailed).
Proof.
  intros Ht Hg.
  assert (Hv : forall context,
            searchPolygon context = Some (geometry skiArea) ->
            forall v o,
              traverse store context v o =
              match arangoError (geometry skiArea) with
              | Some InvalidGeometryError => Ok ([o], v)
              | Some OtherArangoError => Throw QueryFailed
              | None =>
                  '(found, v1) <-
                    visitPolygon store (visitObject (List.length store) store)
                      (objectContextOf context o) v (geometry skiArea) ;;
                  Ok (o :: found, v1)
              end).
  { intros context Hsp v o. unfold traverse. simpl. rewrite Hsp, Hg.
    unfold visitPolygon, findNearbyObjects.
    destruct (arangoError (geometry skiArea)) as [[|]|]; try reflexivity.
    simpl. rewrite Hsp. reflexivity. }
  split; intro He; unfold clusterSkiArea; simpl; rewrite Hg; simpl;
    rewrite Hv by reflexivity; rewrite He; simpl; [|reflexivity].
  unfold assignMembers. simpl. unfold noObjectsFound. simpl.
  unfold is_type. simpl. rewrite Ht. reflexivity.
Qed.

End StoreErrors.

Lemma polygonPass_with_rejected_polygon_witness :
  clusterSkiArea polygonPass reversedArea reversedProps reversedStore
  = collection_remove "A" reversedStore.
Proof.
  refine (proj1 (polygonPass_with_rejected_polygon reversedArea reversedProps
                   reversedStore _ _) _); reflexivity.
Defined.

(** ** A generated ski area and its run *)

Section GeneratedMembers.
Context {geo : GeoLibrary}.

(** X18: when [generateSkiAreaForRun] returns normally for a lift or run
    of the collection, either it only cleared the flag of that document,
    or the collection now holds a ski area under the new id and
    [getObjects] finds at least one lift or run that refers to it. *)
Theorem generated_ski_area_has_a_member
    (newSkiAreaID : string) (run : MapObject) (store store' : Store) :
  In run store -> type run <> SkiArea ->
  generateSkiAreaForRun newSkiAreaID run store = Ok store' ->
  store' = map (fun o => if String.eqb (_key o) (_key run)
                         then notBasis o else o) store \/
  (getObjects newSkiAreaID store' <> [] /\
   exists record, In record store' /\ _key record = newSkiAreaID /\
                  type record = SkiArea).
Proof.
  intros Hin Ht H.
  destruct (generateSkiAreaForRun_seed _ _ _ _ H)
    as [-> | (acts & members & geom & Hseed & ->)]; [now left|].
  right. split.
  - assert (Hm : In (markOne newSkiAreaID false members run)
                    (getObjects newSkiAreaID
                       (markSkiArea newSkiAreaID false members
                          (store ++ [draftSkiArea newSkiAreaID acts geom])))).
    { unfold getObjects. apply filter_In. split.
      - unfold markSkiArea. apply in_map. apply in_or_app. now left.
      - unfold markOne.
        assert (Hk : str_in (_key run) (keys members) = true)
          by (apply str_in_In; now apply keys_In).
        rewrite Hk. simpl. apply andb_true_iff. split.
        + apply str_in_In. apply APPEND_unique_In.
        + apply negb_true_iff. unfold is_type. simpl.
          destruct (MapObjectType_eqb (type run) SkiArea) eqn:E; [|reflexivity].
          apply MapObjectType_eqb_eq in E. contradiction. }
    intro Hnil. rewrite Hnil in Hm. contradiction.
  - exists (markOne newSkiAreaID false members (draftSkiArea newSkiAreaID acts geom)).
    pose proof (markOne_fields newSkiAreaID false members
                  (draftSkiArea newSkiAreaID acts geom)) as F.
    simpl in F. destruct F as (Fk & _ & Ft & _).
    split; [|split; [exact Fk | exact Ft]].
    unfold markSkiArea. rewrite map_app. apply in_or_app. right. now left.
Qed.

End GeneratedMembers.

Lemma generated_ski_area_has_a_member_witness :
  nordicGenerated = map (fun o => if String.eqb (_key o) (_key nordicRun)
                                  then notBasis o else o) nordicStore \/
  (getObjects "g" nordicGenerated <> [] /\
   exists record, In record nordicGenerated /\ _key record = "g" /\
                  type record = SkiArea).
Proof.
  refine (generated_ski_area_has_a_member "g" nordicRun nordicStore
            nordicGenerated _ _ _).
  - left. reflexivity.
  - discriminate.
  - reflexivity.
Defined.

(** ** Formatted ski areas *)

Section Formatted.
Context {geo : GeoLibrary}.
Variable landuseStatus : Tags -> Status.
Variable Feature : Type.
Variable buildFeature : Geometry -> FormattedProperties -> Feature.

Lemma orNull_not_empty value : orNull value <> Some "".
Proof. destruct value as [[|c s]|]; simpl; discriminate. Qed.

Lemma GeometryType_eqb_eq a b : GeometryType_eqb a b = true <-> a = b.
Proof. destruct a, b; simpl; split; intro H; try reflexivity; discriminate. Qed.

Lemma GeometryType_eqb_neq a b : GeometryType_eqb a b = false <-> a <> b.
Proof.
  destruct a, b; simpl; split; intro H; try reflexivity; try discriminate;
    try (exfalso; apply H; reflexivity).
Qed.

Lemma unsupported_sport (tags : Tags) :
  isDefined (tag tags "sport") && negb (strictEq (tag tags "sport") "skiing")
    && negb (strictEq (tag tags "sport") "ski") = true <->
  exists sport, tag tags "sport" = Some sport /\
                sport <> "skiing"%string /\ sport <> "ski"%string.
Proof.
  destruct (tag tags "sport") as [v|]; simpl.
  - rewrite andb_true_iff, !negb_true_iff. split.
    + intros [H1 H2]. exists v. split; [reflexivity|].
      split; apply String.eqb_neq; assumption.
    + intros [sport [E [H1 H2]]]. inversion E; subst sport.
      split; apply String.eqb_neq; assumption.
  - split; [discriminate|]. intros [sport [E _]]. discriminate.
Qed.

Lemma unsupported_geometry (g : Geometry) :
  negb (GeometryType_eqb (geometry_type g) Polygon)
    && negb (GeometryType_eqb (geometry_type g) MultiPolygon) = true <->
  geometry_type g <> Polygon /\ geometry_type g <> MultiPolygon.
Proof.
  rewrite andb_true_iff, !negb_true_iff, !GeometryType_eqb_neq. reflexivity.
Qed.

(** X19: [formatSkiArea] returns null exactly for an OpenStreetMap feature
    that has a sport tag other than skiing and ski, or a geometry that is
    neither a Polygon nor a MultiPolygon; a Skimap.org feature is never
    dropped.  A feature it returns is built on the geometry of the input
    from properties that are not generated, have no location and never
    the empty string as name.  From OpenStreetMap the geometry is a
    Polygon or a MultiPolygon, the one source is the [osmID], the website
    is never the empty string and there are no activities, so the
    clustering falls back on Downhill and Nordic; from Skimap.org the one
    source is the input's id, and activities, status and website pass
    through. *)
Theorem formatSkiArea_properties (source' : SourceType)
    (feature : InputSkiAreaFeature) :
  (formatSkiArea landuseStatus Feature buildFeature source' feature = None <->
   source' = OPENSTREETMAP /\
   ((exists sport, tag (in_tags feature) "sport" = Some sport /\
                   sport <> "skiing"%string /\ sport <> "ski"%string) \/
    (geometry_type (in_geometry feature) <> Polygon /\
     geometry_type (in_geometry feature) <> MultiPolygon))) /\
  forall formatted,
    formatSkiArea landuseStatus Feature buildFeature source' feature
    = Some formatted ->
    exists p,
      formatted = buildFeature (in_geometry feature) p /\
      f_generated p = false /\ f_location p = None /\
      f_name p <> Some ""%string /\
      (source' = OPENSTREETMAP ->
       (geometry_type (in_geometry feature) = Polygon \/
        geometry_type (in_geometry feature) = MultiPolygon) /\
       f_sources p = [(OPENSTREETMAP, in_osmID feature)] /\
       f_status p = landuseStatus (in_tags feature) /\
       f_website p <> Some ""%string /\
       f_activities p = [] /\
       forall skiArea : MapObject,
         activities skiArea = f_activities p ->
         activitiesForClusteringOf skiArea = allSkiAreaActivities) /\
      (source' = SKIMAP_ORG ->
       f_sources p = [(SKIMAP_ORG, in_id feature)] /\
       f_activities p = in_activities feature /\
       f_status p = in_status feature /\
       f_website p = in_official_website feature).
Proof.
  destruct source'; unfold formatSkiArea; cbv zeta.
  - destruct (isDefined (tag (in_tags feature) "sport")
              && negb (strictEq (tag (in_tags feature) "sport") "skiing")
              && negb (strictEq (tag (in_tags feature) "sport") "ski"))
      eqn:Hsport.
    + split; [|discriminate]. split; [|reflexivity]. intros _.
      split; [reflexivity|]. left. apply unsupported_sport. exact Hsport.
    + destruct (negb (GeometryType_eqb (geometry_type (in_geometry feature)) Polygon)
                && negb (GeometryType_eqb (geometry_type (in_geometry feature))
                           MultiPolygon)) eqn:Hgeom.
      * split; [|discriminate]. split; [|reflexivity]. intros _.
        split; [reflexivity|]. right. apply unsupported_geometry. exact Hgeom.
      * split.
        -- split; [discriminate|]. intros [_ [Hs|Hg]].
           ++ apply unsupported_sport in Hs. rewrite Hs in Hsport. discriminate.
           ++ apply unsupported_geometry in Hg. rewrite Hg in Hgeom. discriminate.
        -- intros formatted E. inversion E; subst formatted.
           exists (propertiesForOpenStreetMapSkiArea landuseStatus feature).
           split; [reflexivity|]. split; [reflexivity|]. split; [reflexivity|].
           split; [apply orNull_not_empty|]. split; [|discriminate].
           intros _. split.
           { apply andb_false_iff in Hgeom.
             destruct Hgeom as [H|H]; apply negb_false_iff in H;
               apply GeometryType_eqb_eq in H; [left|right]; exact H. }
           split; [reflexivity|]. split; [reflexivity|].
           split; [apply orNull_not_empty|]. split; [reflexivity|].
           intros skiArea Ha. unfold activitiesForClusteringOf.
           rewrite Ha. reflexivity.
  - split.
    + split; [discriminate|]. intros [E _]. discriminate.
    + intros formatted E. inversion E; subst formatted.
      exists (propertiesForSkiMapOrgSkiArea feature).
      split; [reflexivity|]. split; [reflexivity|]. split; [reflexivity|].
      split; [apply orNull_not_empty|]. split; [discriminate|].
      intros _. repeat split.
Qed.

End Formatted.

Lemma formatSkiArea_properties_witness :
  exists p,
    (polygonOver 0 1000, propertiesForOpenStreetMapSkiArea (fun _ => Operating)
                           resortInput)
    = pairFeature (polygonOver 0 1000) p /\
    f_generated p = false /\ f_name p = Some "Resort"%string /\ f_activities p = [].
Proof.
  destruct (proj2 (@formatSkiArea_properties lineGeo (fun _ => Operating) _
                     pairFeature OPENSTREETMAP resortInput)
              (polygonOver 0 1000,
               propertiesForOpenStreetMapSkiArea (fun _ => Operating) resortInput)
              eq_refl)
    as [p (E & Hg & _ & _ & Hosm & _)].
  destruct (Hosm eq_refl) as (_ & _ & _ & _ & Ha & _).
  exists p. split; [exact E|]. split; [exact Hg|]. split; [|exact Ha].
  inversion E. reflexivity.
Defined.
